(** * Filter plugins of [filter_plugins/comprehension.py]

    A shallow embedding of the Jinja2 filters that the module registers
    ([one], [to_map], [format_items], [flatten_list], [list_values],
    [list_keys], [to_kv_pairs], [map_keys], [filter_by_key]) and of the
    module-level helper [_flatten_list], together with the properties the
    specification states about them.

    The module is Python 2 code ([basestring], the builtin [reduce],
    [iteritems], eager [filter]).  Two embeddings are given:

    - [Module Py] is a value-level model: Python values are trees, the
      filters are total functions into a result type with the exceptions the
      interpreter or the code raise.  [Module PyFacts] proves what the
      specification says about the results of the filters.
    - [Module Store] is a store-level model: mutable containers live in a
      heap and are passed by reference, [append] and item assignment update
      the heap in place.  [Module StoreFacts] proves that no filter changes
      an object it was given, and that the outcome of every filter is the
      outcome of its value-level model on the trees of the arguments.

    Values covered: [None], [bool], [int] and [long] (an integer is a
    [long] when it does not fit the machine word), [str], [list], [tuple],
    [set], [dict].  [float], [complex], [unicode] and user-defined classes
    are outside the model. *)

From Stdlib Require Import ZArith String Ascii List Bool Lia DecimalString.
From stdpp Require Import base list strings.
Import ListNotations.

Local Open Scope string_scope.
Local Open Scope list_scope.

(** ** Exceptions and results *)

Inductive exn : Type :=
| ValueError (msg : string)
| AssertionError (msg : string)
| TypeError
| AttributeError
| KeyError
| IndexError
| RuntimeError
| SystemError.

Inductive result (A : Type) : Type :=
| Ok (a : A)
| Raise (e : exn).

Arguments Ok {A} a.
Arguments Raise {A} e.

Definition bind {A B : Type} (m : result A) (k : A -> result B) : result B :=
  match m with
  | Ok a => k a
  | Raise e => Raise e
  end.

Declare Scope py_scope.
Delimit Scope py_scope with py.
Notation "'do' x <- m ; k" := (bind m (fun x => k))
  (at level 10, x name, m at level 100, k at level 200,
   format "'[v' 'do'  x  <-  m ; '/' k ']'") : py_scope.
Local Open Scope py_scope.

(** [for x in xs: acc = f(acc, x)] with exceptions: the builtin [reduce]. *)
Fixpoint reduce {A B : Type} (f : A -> B -> result A) (xs : list B) (acc : A)
  : result A :=
  match xs with
  | [] => Ok acc
  | x :: xs' => do acc' <- f acc x; reduce f xs' acc'
  end.

(** [[f(x) for x in xs]] with exceptions. *)
Fixpoint map_result {A B : Type} (f : A -> result B) (xs : list A)
  : result (list B) :=
  match xs with
  | [] => Ok []
  | x :: xs' => do y <- f x; do ys <- map_result f xs'; Ok (y :: ys)
  end.

(** [[x for x in xs if p(x)]] with exceptions. *)
Fixpoint filter_result {A : Type} (p : A -> result bool) (xs : list A)
  : result (list A) :=
  match xs with
  | [] => Ok []
  | x :: xs' =>
      do b <- p x;
      do ys <- filter_result p xs';
      Ok (if b then x :: ys else ys)
  end.

Module Py.

(** ** Values *)

#[local] Unset Elimination Schemes.
Inductive value : Type :=
| VNone
| VBool (b : bool)
| VInt (n : Z)
| VStr (s : string)
| VList (xs : list value)
| VTuple (xs : list value)
| VSet (xs : list value)
| VDict (kvs : list (value * value)).
#[local] Set Elimination Schemes.

(** Containers are kept in iteration order: the elements of a [set], the
    entries of a [dict]. *)

(** Induction over values that reaches into the containers. *)
Section value_rect.
Variable P : value -> Prop.
Hypothesis HNone : P VNone.
Hypothesis HBool : forall b, P (VBool b).
Hypothesis HInt : forall n, P (VInt n).
Hypothesis HStr : forall s, P (VStr s).
Hypothesis HList : forall xs, Forall P xs -> P (VList xs).
Hypothesis HTuple : forall xs, Forall P xs -> P (VTuple xs).
Hypothesis HSet : forall xs, Forall P xs -> P (VSet xs).
Hypothesis HDict :
  forall kvs, Forall (fun kv => P (fst kv) /\ P (snd kv)) kvs -> P (VDict kvs).

Fixpoint value_nested_ind (v : value) : P v :=
  let fix go (xs : list value) : Forall P xs :=
    match xs with
    | [] => List.Forall_nil _
    | x :: xs' => List.Forall_cons _ x xs' (value_nested_ind x) (go xs')
    end in
  let fix go2 (kvs : list (value * value))
    : Forall (fun kv => P (fst kv) /\ P (snd kv)) kvs :=
    match kvs with
    | [] => List.Forall_nil _
    | (k, w) :: kvs' =>
        List.Forall_cons _ (k, w) kvs'
          (conj (value_nested_ind k) (value_nested_ind w)) (go2 kvs')
    end in
  match v with
  | VNone => HNone
  | VBool b => HBool b
  | VInt n => HInt n
  | VStr s => HStr s
  | VList xs => HList xs (go xs)
  | VTuple xs => HTuple xs (go xs)
  | VSet xs => HSet xs (go xs)
  | VDict kvs => HDict kvs (go2 kvs)
  end.
End value_rect.

(** [sys.maxint] on a 64-bit build.  Python 2 has two types of integers:
    an integer that fits the machine word is an [int], any other is a
    [long]; arithmetic, literals and the decoders of JSON and YAML pass
    from one to the other without notice. *)
Definition sys_maxint : Z := 9223372036854775807.

Definition is_long (n : Z) : bool :=
  (n <? - sys_maxint - 1)%Z || (sys_maxint <? n)%Z.

(** The classes [isinstance] is asked about, and those of the values. *)
Inductive py_type : Type :=
| t_NoneType | t_bool | t_int | t_long | t_float | t_complex
| t_basestring | t_str | t_list | t_tuple | t_set | t_dict.

(** [type(v)] *)
Definition type_of (v : value) : py_type :=
  match v with
  | VNone => t_NoneType
  | VBool _ => t_bool
  | VInt n => if is_long n then t_long else t_int
  | VStr _ => t_str
  | VList _ => t_list
  | VTuple _ => t_tuple
  | VSet _ => t_set
  | VDict _ => t_dict
  end.

Definition py_type_eqb (c d : py_type) : bool :=
  match c, d with
  | t_NoneType, t_NoneType | t_bool, t_bool | t_int, t_int | t_long, t_long
  | t_float, t_float | t_complex, t_complex | t_basestring, t_basestring
  | t_str, t_str | t_list, t_list | t_tuple, t_tuple | t_set, t_set
  | t_dict, t_dict => true
  | _, _ => false
  end.

(** [issubclass(c, d)]: [bool] derives from [int], [str] from
    [basestring]; [long] does not derive from [int]. *)
Definition issubclass (c d : py_type) : bool :=
  py_type_eqb c d
  || match c, d with
     | t_bool, t_int | t_str, t_basestring => true
     | _, _ => false
     end.

(** [isinstance(v, types)] for a tuple of classes. *)
Definition isinstance (v : value) (types : list py_type) : bool :=
  existsb (issubclass (type_of v)) types.

(** [scalar_types = (basestring, int, float, complex, bool)] *)
Definition scalar_types : list py_type :=
  [t_basestring; t_int; t_float; t_complex; t_bool].

Definition is_scalar_type (v : value) : bool := isinstance v scalar_types.

(** [list_types = (list, set, tuple)] *)
Definition is_list_type (v : value) : bool :=
  match v with
  | VList _ | VSet _ | VTuple _ => true
  | _ => false
  end.

(** [dict_types = (dict,)] *)
Definition is_dict_type (v : value) : bool :=
  match v with
  | VDict _ => true
  | _ => false
  end.

(** Truth value of an object, as [if v], [not v] and [operator.truth] use it. *)
Definition truthy (v : value) : bool :=
  match v with
  | VNone => false
  | VBool b => b
  | VInt n => negb (n =? 0)%Z
  | VStr s => negb (Nat.eqb (String.length s) 0)
  | VList xs | VTuple xs | VSet xs => negb (Nat.eqb (length xs) 0)
  | VDict kvs => negb (Nat.eqb (length kvs) 0)
  end.

(** [bool] is a subclass of [int]: [True == 1] and [False == 0]. *)
Definition as_number (v : value) : option Z :=
  match v with
  | VBool b => Some (if b then 1 else 0)%Z
  | VInt n => Some n
  | _ => None
  end.

(** Only immutable values can be keys of a [dict] or members of a [set]. *)
Fixpoint hashable (v : value) : bool :=
  match v with
  | VNone | VBool _ | VInt _ | VStr _ => true
  | VTuple xs => forallb hashable xs
  | VList _ | VSet _ | VDict _ => false
  end.

(** Two sequences are equal when they have the same length and equal
    elements at every index. *)
Fixpoint seq_eqb (eq : value -> value -> bool) (xs ys : list value) : bool :=
  match xs, ys with
  | [], [] => true
  | x :: xs', y :: ys' => eq x y && seq_eqb eq xs' ys'
  | _, _ => false
  end.

(** [a == b] on the values of the model; it never raises. *)
Fixpoint py_eq (a b : value) : bool :=
  match a, b with
  | VNone, VNone => true
  | VBool _, (VBool _ | VInt _) | VInt _, (VBool _ | VInt _) =>
      match as_number a, as_number b with
      | Some m, Some n => (m =? n)%Z
      | _, _ => false
      end
  | VStr s, VStr t => String.eqb s t
  | VList xs, VList ys => seq_eqb py_eq xs ys
  | VTuple xs, VTuple ys => seq_eqb py_eq xs ys
  | VSet xs, VSet ys =>
      Nat.eqb (length xs) (length ys)
      && forallb (fun x => existsb (fun y => py_eq x y) ys) xs
  | VDict d, VDict e =>
      Nat.eqb (length d) (length e)
      && forallb
           (fun kv =>
              existsb (fun kv' => py_eq (fst kv) (fst kv')
                                  && py_eq (snd kv) (snd kv')) e) d
  | _, _ => false
  end.

(** ** Text: [str], [repr], [split], [join] *)

Definition string_of_Z (n : Z) : string := NilZero.string_of_int (Z.to_int n).

Definition char_str (c : ascii) : string := String c EmptyString.

Definition squote : ascii := ascii_of_nat 39.
Definition dquote : ascii := ascii_of_nat 34.
Definition backslash : ascii := ascii_of_nat 92.

Fixpoint has_char (c : ascii) (s : string) : bool :=
  match s with
  | EmptyString => false
  | String c' s' => Ascii.eqb c c' || has_char c s'
  end.

Definition hex_digit (n : nat) : ascii :=
  match String.get n "0123456789abcdef" with
  | Some c => c
  | None => "0"%char
  end.

(** One character of [repr] of a [str] whose quote character is [q]. *)
Definition repr_char (q c : ascii) : string :=
  let n := nat_of_ascii c in
  if Ascii.eqb c q || Ascii.eqb c backslash then String backslash (char_str c)
  else if Nat.eqb n 9 then String backslash "t"
  else if Nat.eqb n 10 then String backslash "n"
  else if Nat.eqb n 13 then String backslash "r"
  else if Nat.ltb n 32 || Nat.leb 127 n then
    String backslash
      (String "x" (String (hex_digit (n / 16)) (char_str (hex_digit (n mod 16)))))
  else char_str c.

Fixpoint repr_chars (q : ascii) (s : string) : string :=
  match s with
  | EmptyString => EmptyString
  | String c s' => repr_char q c +:+ repr_chars q s'
  end.

Definition repr_str (s : string) : string :=
  let q := if has_char squote s && negb (has_char dquote s)
           then dquote else squote in
  String q (repr_chars q s +:+ char_str q).

(** [repr(v)] *)
Fixpoint py_repr (v : value) : string :=
  match v with
  | VNone => "None"
  | VBool true => "True"
  | VBool false => "False"
  | VInt n => if is_long n then string_of_Z n +:+ "L" else string_of_Z n
  | VStr s => repr_str s
  | VList xs => "[" +:+ String.concat ", " (map py_repr xs) +:+ "]"
  | VTuple xs =>
      match xs with
      | [x] => "(" +:+ py_repr x +:+ ",)"
      | _ => "(" +:+ String.concat ", " (map py_repr xs) +:+ ")"
      end
  | VSet xs => "set([" +:+ String.concat ", " (map py_repr xs) +:+ "])"
  | VDict kvs =>
      "{" +:+ String.concat ", "
               (map (fun kv => py_repr (fst kv) +:+ ": " +:+ py_repr (snd kv)) kvs)
          +:+ "}"
  end.

(** [str(v)], which is also ['{0}'.format(v)] on these values; [repr] marks
    a [long] with an [L], [str] does not. *)
Definition py_str (v : value) : string :=
  match v with
  | VStr s => s
  | VInt n => string_of_Z n
  | _ => py_repr v
  end.

Fixpoint is_prefix (p s : string) : bool :=
  match p, s with
  | EmptyString, _ => true
  | String a p', String b s' => Ascii.eqb a b && is_prefix p' s'
  | String _ _, EmptyString => false
  end.

(** [s.split(sep)] for a non-empty [sep]: [cur] is the piece being read,
    [skip] the number of characters of a matched separator still to pass. *)
Fixpoint split_on (sep : string) (skip : nat) (cur : string) (s : string)
  : list string :=
  match s with
  | EmptyString => [cur]
  | String c s' =>
      match skip with
      | S n => split_on sep n cur s'
      | O =>
          if is_prefix sep s
          then cur :: split_on sep (String.length sep - 1) EmptyString s'
          else split_on sep 0 (cur +:+ char_str c) s'
      end
  end.

Definition is_space (c : ascii) : bool :=
  let n := nat_of_ascii c in
  Nat.eqb n 32 || (Nat.leb 9 n && Nat.leb n 13).

(** [s.split()] / [s.split(None)]: the words between runs of whitespace. *)
Fixpoint split_words (cur : string) (s : string) : list string :=
  match s with
  | EmptyString => if Nat.eqb (String.length cur) 0 then [] else [cur]
  | String c s' =>
      if is_space c
      then (if Nat.eqb (String.length cur) 0 then split_words EmptyString s'
            else cur :: split_words EmptyString s')
      else split_words (cur +:+ char_str c) s'
  end.

(** [s.split(sep)] as a method call on an arbitrary object. *)
Definition py_split (s sep : value) : result (list string) :=
  match s with
  | VStr s =>
      match sep with
      | VNone => Ok (split_words EmptyString s)
      | VStr EmptyString => Raise (ValueError "empty separator")
      | VStr sep => Ok (split_on sep 0 EmptyString s)
      | _ => Raise TypeError
      end
  | _ => Raise AttributeError
  end.

(** ** Containers *)

(** The entry of a [dict] whose key equals [k]. *)
Fixpoint dict_find (k : value) (d : list (value * value)) : option value :=
  match d with
  | [] => None
  | (k', v) :: d' => if py_eq k' k then Some v else dict_find k d'
  end.

(** [d[k] = v] for a hashable [k]: an existing entry keeps its key and its
    place and takes the new value; a new entry is added (Python 2 leaves its
    place in the iteration order open, the model puts it last). *)
Fixpoint dict_set (k v : value) (d : list (value * value))
  : list (value * value) :=
  match d with
  | [] => [(k, v)]
  | (k', v') :: d' =>
      if py_eq k' k then (k', v) :: d' else (k', v') :: dict_set k v d'
  end.

(** [d[k] = v] as a statement. *)
Definition py_setitem (d : list (value * value)) (k v : value)
  : result (list (value * value)) :=
  if hashable k then Ok (dict_set k v d) else Raise TypeError.

(** [z.get(k)] *)
Definition py_get (z k : value) : result value :=
  match z with
  | VDict d =>
      if hashable k
      then Ok (match dict_find k d with Some v => v | None => VNone end)
      else Raise TypeError
  | _ => Raise AttributeError
  end.

Fixpoint is_substring (t s : string) : bool :=
  is_prefix t s
  || match s with
     | EmptyString => false
     | String _ s' => is_substring t s'
     end.

(** [k in x] *)
Definition py_contains (x k : value) : result bool :=
  match x with
  | VDict d =>
      if hashable k
      then Ok (match dict_find k d with Some _ => true | None => false end)
      else Raise TypeError
  | VList xs | VTuple xs => Ok (existsb (fun e => py_eq e k) xs)
  | VSet xs =>
      if hashable k then Ok (existsb (fun e => py_eq e k) xs)
      else match k with
           | VSet _ => Ok false
           | _ => Raise TypeError
           end
  | VStr s =>
      match k with
      | VStr t => Ok (is_substring t s)
      | _ => Raise TypeError
      end
  | VNone | VBool _ | VInt _ => Raise TypeError
  end.

Definition chars (s : string) : list value :=
  map (fun c => VStr (char_str c)) (list_ascii_of_string s).

(** The elements [for x in v] visits. *)
Definition py_iter (v : value) : result (list value) :=
  match v with
  | VList xs | VTuple xs | VSet xs => Ok xs
  | VDict kvs => Ok (map fst kvs)
  | VStr s => Ok (chars s)
  | VNone | VBool _ | VInt _ => Raise TypeError
  end.

(** [len(v)] *)
Definition py_len (v : value) : result nat :=
  match v with
  | VList xs | VTuple xs | VSet xs => Ok (length xs)
  | VDict kvs => Ok (length kvs)
  | VStr s => Ok (String.length s)
  | VNone | VBool _ | VInt _ => Raise TypeError
  end.

(** [v[0]] *)
Definition py_getitem0 (v : value) : result value :=
  match v with
  | VList xs | VTuple xs =>
      match xs with
      | x :: _ => Ok x
      | [] => Raise IndexError
      end
  | VStr s =>
      match s with
      | String c _ => Ok (VStr (char_str c))
      | EmptyString => Raise IndexError
      end
  | VDict kvs =>
      match dict_find (VInt 0) kvs with
      | Some x => Ok x
      | None => Raise KeyError
      end
  | VSet _ | VNone | VBool _ | VInt _ => Raise TypeError
  end.

(** [d.keys()], [d.values()], [d.items()] *)
Definition py_keys (d : value) : result (list value) :=
  match d with
  | VDict kvs => Ok (map fst kvs)
  | _ => Raise AttributeError
  end.

Definition py_values (d : value) : result (list value) :=
  match d with
  | VDict kvs => Ok (map snd kvs)
  | _ => Raise AttributeError
  end.

Definition py_items (d : value) : result (list (value * value)) :=
  match d with
  | VDict kvs => Ok kvs
  | _ => Raise AttributeError
  end.

(** ** The module *)

(** [_flatten_list(pres, y)]: [pres] is the list the caller accumulates
    into, returned after the leaves of [y] were appended to it. *)
Fixpoint _flatten_list (pres : list value) (y : value) {struct y}
  : list value :=
  match y with
  | VList ys | VSet ys | VTuple ys => fold_left _flatten_list ys pres
  | VNone | VBool _ | VInt _ | VStr _ | VDict _ => pres ++ [y]
  end.

(** [one(l)] *)
Definition one (l : value) : result value :=
  do n <- py_len l;
  if Nat.ltb 1 n then
    Raise (ValueError "The list contains more than 1 element")
  else if Nat.eqb n 0 then
    Raise (ValueError "The list is empty")
  else py_getitem0 l.

(** [flatten_list(l)]: [reduce(_flatten_list, l, [])] *)
Definition flatten_list (l : value) : result value :=
  do ys <- py_iter l;
  Ok (VList (fold_left _flatten_list ys [])).

(** [f = lambda z,k: z.get(k) if z else None], the step of a key path. *)
Definition path_step (z k : value) : result value :=
  if truthy z then py_get z k else Ok VNone.

(** [reduce(f, p, x)]: the value at key path [p] below [x]. *)
Definition resolve (p : list string) (x : value) : result value :=
  reduce path_step (map VStr p) x.

(** The body of the loop of [to_map]: [k = reduce(f, p, x)], then
    [res[k] = x] if [k]. *)
Definition to_map_step (p : list string) (res : list (value * value))
    (x : value) : result (list (value * value)) :=
  do k <- resolve p x;
  if truthy k then py_setitem res k x else Ok res.

(** [to_map(l, item_key, path_delimiter='.')] *)
Definition to_map (l item_key path_delimiter : value) : result value :=
  do p <- py_split item_key path_delimiter;
  do xs <- py_iter l;
  do res <- reduce (to_map_step p) xs [];
  Ok (VDict res).

(** [list_values(d)] and [list_keys(d)]: Python 2 returns new lists. *)
Definition list_values (d : value) : result value :=
  do vs <- py_values d; Ok (VList vs).

Definition list_keys (d : value) : result value :=
  do ks <- py_keys d; Ok (VList ks).

(** [not v or isinstance(v, scalar_types)], the guard of [to_kv_pairs]. *)
Definition kv_included (kv : value * value) : bool :=
  negb (truthy (snd kv)) || is_scalar_type (snd kv).

(** [f = lambda k, v: '{0}={1}'.format(k, v) if v else str(k)]; the format
    string is fixed, so that the call is written out with [py_str]. *)
Definition kv_token (kv : value * value) : string :=
  if truthy (snd kv) then py_str (fst kv) +:+ "=" +:+ py_str (snd kv)
  else py_str (fst kv).

(** [to_kv_pairs(d, sep=',')]: [sep.join] is looked up before [d.items()]. *)
Definition to_kv_pairs (d sep : value) : result value :=
  match sep with
  | VStr sep =>
      do items <- py_items d;
      Ok (VStr (String.concat sep (map kv_token (List.filter kv_included items))))
  | _ => Raise AttributeError
  end.

(** The tables [unary_ops] and [binary_ops] bind names to functions of the
    module [operator]. *)
Inductive unary_entry : Type := op_not_ | op_truth | op_is_ | op_is_not.
Inductive binary_entry : Type := op_eq | op_le | op_ge | op_lt | op_gt | op_ne.

Definition unary_ops (name : string) : option unary_entry :=
  if String.eqb name "not" then Some op_not_
  else if String.eqb name "truth" then Some op_truth
  else if String.eqb name "is" then Some op_is_
  else if String.eqb name "is_not" then Some op_is_not
  else None.

Definition binary_ops (name : string) : option binary_entry :=
  if String.eqb name "eq" then Some op_eq
  else if String.eqb name "le" then Some op_le
  else if String.eqb name "ge" then Some op_ge
  else if String.eqb name "lt" then Some op_lt
  else if String.eqb name "gt" then Some op_gt
  else if String.eqb name "ne" then Some op_ne
  else None.

(** [t(a)] for an entry [t] of [unary_ops]: [operator.is_] and
    [operator.is_not] take exactly two arguments, the call with one raises
    [TypeError]. *)
Definition call_unary (t : unary_entry) (a : value) : result value :=
  match t with
  | op_not_ => Ok (VBool (negb (truthy a)))
  | op_truth => Ok (VBool (truthy a))
  | op_is_ | op_is_not => Raise TypeError
  end.

(** What the interpreter and the standard library supply: [str.format] for
    an arbitrary format string, [json.loads], and the ordering operators
    [<], [<=], [>], [>=], which may raise.  Equality is [py_eq]. *)
Section Runtime.

Variable str_format : string -> list value -> result string.
Variable json_loads : value -> result value.
Variable py_order : binary_entry -> value -> value -> result bool.

(** [fmt.format(x)] on an arbitrary object [fmt]. *)
Definition py_format (fmt : value) (args : list value) : result value :=
  match fmt with
  | VStr f => do s <- str_format f args; Ok (VStr s)
  | _ => Raise AttributeError
  end.

(** [t(a, b)] for an entry [t] of [binary_ops]. *)
Definition call_binary (t : binary_entry) (a b : value) : result value :=
  match t with
  | op_eq => Ok (VBool (py_eq a b))
  | op_ne => Ok (VBool (negb (py_eq a b)))
  | op_le | op_ge | op_lt | op_gt => do r <- py_order t a b; Ok (VBool r)
  end.

(** [format_items(it, fmt)] *)
Definition format_items (it fmt : value) : result value :=
  do xs <- py_iter it;
  do ys <- map_result (fun x => py_format fmt [x]) xs;
  Ok (VList ys).

(** [{k: e(k) for k in keys}] *)
Definition dict_comprehension {A : Type} (key : A -> value)
    (e : A -> result value) (xs : list A) : result (list (value * value)) :=
  reduce (fun res x => do v <- e x; py_setitem res (key x) v) xs [].

(** [map_keys(d, keys, source_path=None, path_delimiter='.',
    decode_json=False)] *)
Definition map_keys (d keys source_path path_delimiter decode_json : value)
  : result value :=
  do keys <- (if py_eq keys (VStr "*") then py_keys d
              else match keys with
                   | VList ks | VSet ks => Ok ks
                   | _ => Raise (AssertionError "Expected an iterable of keys")
                   end);
  do res <- match source_path with
            | VStr _ =>
                dict_comprehension (fun k => k)
                  (fun k =>
                     do s <- py_format source_path [k];
                     do p <- py_split s path_delimiter;
                     resolve p d)
                  keys
            | _ => dict_comprehension (fun k => k) (fun k => py_get d k) keys
            end;
  if truthy decode_json then
    do res' <- dict_comprehension fst (fun kv => json_loads (snd kv)) res;
    Ok (VDict res')
  else Ok (VDict res).

(** The predicate [filter_by_key] chooses, as a function into truth values;
    [None] when the operator is in neither table. *)
Definition predicate (key : value) (op : string) (val : value)
  : option (value -> result bool) :=
  if String.eqb op "exists" then
    Some (fun x => py_contains x key)
  else match unary_ops op with
  | Some t =>
      Some (fun x =>
              do c <- py_contains x key;
              if c then (do a <- py_get x key;
                         do r <- call_unary t a;
                         Ok (truthy r))
              else Ok false)
  | None =>
      match binary_ops op with
      | Some t =>
          Some (fun x =>
                  do c <- py_contains x key;
                  if c then (do a <- py_get x key;
                             do r <- call_binary t a val;
                             Ok (truthy r))
                  else Ok false)
      | None => None
      end
  end.

(** The builtin [filter(pred, l)] of Python 2: eager, a [tuple] or a [str]
    gives a [tuple] or a [str], any other iterable gives a [list]. *)
Definition py_filter (pred : value -> result bool) (l : value) : result value :=
  match l with
  | VTuple xs => do ys <- filter_result pred xs; Ok (VTuple ys)
  | VStr s =>
      do ys <- filter_result pred (chars s);
      Ok (VStr (String.concat EmptyString (map py_str ys)))
  | _ => do xs <- py_iter l; do ys <- filter_result pred xs; Ok (VList ys)
  end.

(** [filter_by_key(l, key, op='exists', value=None)]; the last parameter
    is written [val] here. *)
Definition filter_by_key (l key : value) (op : string) (val : value)
  : result value :=
  match predicate key op val with
  | None => Raise (ValueError ("Unknown operator: " +:+ op))
  | Some pred => py_filter pred l
  end.

(** [filter_by_key] with an operator that need not be a string.  An object
    that is in neither table is an unknown operator, and [%] renders it
    with [str]; one that cannot be hashed cannot be looked up in a table;
    a tuple is taken apart by [%], which wants exactly one element. *)
Definition filter_by_key_any (l key op val : value) : result value :=
  match op with
  | VStr op => filter_by_key l key op val
  | VNone | VBool _ | VInt _ =>
      Raise (ValueError ("Unknown operator: " +:+ py_str op))
  | VTuple [x] =>
      if hashable x
      then Raise (ValueError ("Unknown operator: " +:+ py_str x))
      else Raise TypeError
  | VTuple _ | VList _ | VSet _ | VDict _ => Raise TypeError
  end.

(** [filters()]: the registered names, each bound to its function called
    with positional arguments; a parameter left out takes its default, any
    other number of arguments is a [TypeError]. *)
Definition filters (name : string) : option (list value -> result value) :=
  if String.eqb name "one" then
    Some (fun args => match args with
                      | [l] => one l
                      | _ => Raise TypeError
                      end)
  else if String.eqb name "format_items" then
    Some (fun args => match args with
                      | [it; fmt] => format_items it fmt
                      | _ => Raise TypeError
                      end)
  else if String.eqb name "flatten_list" then
    Some (fun args => match args with
                      | [l] => flatten_list l
                      | _ => Raise TypeError
                      end)
  else if String.eqb name "map_keys" then
    Some (fun args =>
            match args with
            | [d; keys] => map_keys d keys VNone (VStr ".") (VBool false)
            | [d; keys; sp] => map_keys d keys sp (VStr ".") (VBool false)
            | [d; keys; sp; pd] => map_keys d keys sp pd (VBool false)
            | [d; keys; sp; pd; dj] => map_keys d keys sp pd dj
            | _ => Raise TypeError
            end)
  else if String.eqb name "list_values" then
    Some (fun args => match args with
                      | [d] => list_values d
                      | _ => Raise TypeError
                      end)
  else if String.eqb name "list_keys" then
    Some (fun args => match args with
                      | [d] => list_keys d
                      | _ => Raise TypeError
                      end)
  else if String.eqb name "to_kv_pairs" then
    Some (fun args => match args with
                      | [d] => to_kv_pairs d (VStr ",")
                      | [d; sep] => to_kv_pairs d sep
                      | _ => Raise TypeError
                      end)
  else if String.eqb name "filter_by_key" then
    Some (fun args =>
            match args with
            | [l; key] => filter_by_key l key "exists" VNone
            | [l; key; op] => filter_by_key_any l key op VNone
            | [l; key; op; val] => filter_by_key_any l key op val
            | _ => Raise TypeError
            end)
  else if String.eqb name "to_map" then
    Some (fun args => match args with
                      | [l; item_key] => to_map l item_key (VStr ".")
                      | [l; item_key; pd] => to_map l item_key pd
                      | _ => Raise TypeError
                      end)
  else None.

End Runtime.

(** [str.format] on the format strings whose replacement fields are single
    positions [{0}] to [{9}], with the escapes [{{] and [}}]; it is used to
    run the examples and answers [ValueError] on any other field. *)
Fixpoint format_indexed (f : string) (args : list value) : result string :=
  match f with
  | EmptyString => Ok EmptyString
  | String "{" (String "{" f') =>
      do r <- format_indexed f' args; Ok (String "{" r)
  | String "}" (String "}" f') =>
      do r <- format_indexed f' args; Ok (String "}" r)
  | String "{" (String d (String "}" f')) =>
      let n := nat_of_ascii d - 48 in
      if Nat.leb 48 (nat_of_ascii d) && Nat.leb (nat_of_ascii d) 57 then
        match nth_error args n with
        | Some v => do r <- format_indexed f' args; Ok (py_str v +:+ r)
        | None => Raise IndexError
        end
      else Raise (ValueError "unsupported replacement field")
  | String "{" _ => Raise (ValueError "unsupported replacement field")
  | String "}" _ =>
      Raise (ValueError "Single '}' encountered in format string")
  | String c f' => do r <- format_indexed f' args; Ok (String c r)
  end.

(** A decoder that accepts no text, in the place of [json.loads] where an
    example does not decode. *)
Definition json_refuse (v : value) : result value :=
  match v with
  | VStr _ => Raise (ValueError "No JSON object could be decoded")
  | _ => Raise TypeError
  end.

(** [json.loads] over a decoder of texts: anything but a string is refused
    with a [TypeError]. *)
Definition json_loads_of (decode : string -> result value) (v : value)
  : result value :=
  match v with
  | VStr s => decode s
  | _ => Raise TypeError
  end.

(** The number of levels of a value, containers counted. *)
Fixpoint height (v : value) : nat :=
  match v with
  | VNone | VBool _ | VInt _ | VStr _ => 1
  | VList xs | VTuple xs | VSet xs => S (list_max (map height xs))
  | VDict kvs =>
      S (list_max (map (fun kv => Nat.max (height (fst kv)) (height (snd kv)))
                     kvs))
  end.

(** An ordering that agrees with the interpreter on numbers and on strings,
    used to run the examples; it answers [TypeError] on every other pair,
    on which no statement below relies. *)
Definition scalar_order (t : binary_entry) (a b : value) : result bool :=
  let answer (c : comparison) : bool :=
    match t, c with
    | op_lt, Lt | op_le, (Lt | Eq) | op_gt, Gt | op_ge, (Gt | Eq) => true
    | op_eq, Eq | op_ne, (Lt | Gt) => true
    | _, _ => false
    end in
  match as_number a, as_number b with
  | Some m, Some n => Ok (answer (m ?= n)%Z)
  | _, _ =>
      match a, b with
      | VStr s, VStr u => Ok (answer (String.compare s u))
      | _, _ => Raise TypeError
      end
  end.

(** The ordering operators as the interpreter evaluates them on the pairs
    the language orders.  [int], [long] and [bool] go through the three-way
    comparison of numbers, [str] through that of byte strings, and the
    operator answers to its outcome.  The rich comparison of two lists, or
    of two tuples, looks for the first index at which the elements are not
    equal and applies the operator to these two elements; without such an
    index it applies it to the lengths. *)
Definition order_answer (t : binary_entry) (c : comparison) : bool :=
  match t, c with
  | op_lt, Lt | op_le, (Lt | Eq) | op_gt, Gt | op_ge, (Gt | Eq) => true
  | op_eq, Eq | op_ne, (Lt | Gt) => true
  | _, _ => false
  end.

Fixpoint seq_order (ord : value -> value -> option bool)
    (len : comparison -> bool) (xs ys : list value) : option bool :=
  match xs, ys with
  | x :: xs', y :: ys' => if py_eq x y then seq_order ord len xs' ys' else ord x y
  | [], [] => Some (len Eq)
  | [], _ :: _ => Some (len Lt)
  | _ :: _, [] => Some (len Gt)
  end.

Fixpoint rich_order (t : binary_entry) (a b : value) : option bool :=
  match a, b with
  | VStr s, VStr u => Some (order_answer t (String.compare s u))
  | VList xs, VList ys | VTuple xs, VTuple ys =>
      seq_order (rich_order t) (order_answer t) xs ys
  | _, _ =>
      match as_number a, as_number b with
      | Some m, Some n => Some (order_answer t (m ?= n)%Z)
      | _, _ => None
      end
  end.

(** [<], [<=], [>], [>=] of the interpreter: on numbers, on strings and on
    sequences of one type as above; on any other pair ([None], values of
    different types, sets, mappings) the outcome is the implementation's,
    [rest]. *)
Definition python_order (rest : binary_entry -> value -> value -> result bool)
    (t : binary_entry) (a b : value) : result bool :=
  match rich_order t a b with
  | Some r => Ok r
  | None => rest t a b
  end.

(** ** What the specification says, in its own words *)

(** A sequence in the sense of [one]: an object with a length whose first
    element is [l[0]]. *)
Definition sequence_items (l : value) : option (list value) :=
  match l with
  | VList xs | VTuple xs => Some xs
  | VStr s => Some (chars s)
  | _ => None
  end.

(** The non-sequence leaf values of a nested sequence, depth first and left
    to right: sequence-like values are expanded, any other value is a
    leaf. *)
Fixpoint leaves (v : value) : list value :=
  match v with
  | VList xs | VSet xs | VTuple xs => flat_map leaves xs
  | _ => [v]
  end.





(** The key [to_map] files an item under: the value its key path resolves
    to, when that value is truthy. *)
Definition item_key_of (p : list string) (x : value) : option value :=
  match resolve p x with
  | Ok k => if truthy k then Some k else None
  | Raise _ => None
  end.

(** The item the specification binds to key [q]: the last item of the
    sequence that is filed under a key equal to [q]. *)
Definition last_item_keyed (p : list string) (q : value) (xs : list value)
  : option value :=
  List.find (fun x => match item_key_of p x with
                      | Some k => py_eq k q
                      | None => false
                      end) (rev xs).

(** An item the loop can file: its key path resolves, to a value that is
    falsy or can be a key. *)
Definition fileable (p : list string) (x : value) : Prop :=
  exists k, resolve p x = Ok k /\ (truthy k = true -> hashable k = true).

(** No two entries of a mapping have equal keys. *)
Fixpoint unique_keys (d : list (value * value)) : bool :=
  match d with
  | [] => true
  | (k, _) :: d' =>
      negb (existsb (fun kv => py_eq (fst kv) k) d') && unique_keys d'
  end.

(** The items the specification selects: those that contain [key] and
    whose value under [key] passes the test [holds]. *)
Definition has_key_with (holds : value -> bool) (key x : value) : bool :=
  match x with
  | VDict d =>
      match dict_find key d with
      | Some a => holds a
      | None => false
      end
  | _ => false
  end.

(** The number a value stands for. *)
Definition number_value (v : value) : option Z :=
  match v with
  | VInt n => Some n
  | VBool true => Some 1%Z
  | VBool false => Some 0%Z
  | _ => None
  end.

(** Lexicographic order: the first pair of elements that are not equal
    decides; a proper prefix comes first. *)
Fixpoint lex_compare (cmp : value -> value -> option comparison)
    (xs ys : list value) : option comparison :=
  match xs, ys with
  | [], [] => Some Eq
  | [], _ :: _ => Some Lt
  | _ :: _, [] => Some Gt
  | x :: xs', y :: ys' =>
      if py_eq x y then lex_compare cmp xs' ys' else cmp x y
  end.

(** How two values compare, where the language orders them: two numbers by
    their value, two strings and two sequences of one type
    lexicographically. *)
Fixpoint value_compare (a b : value) : option comparison :=
  match a, b with
  | VStr s, VStr u => Some (String.compare s u)
  | VList xs, VList ys => lex_compare value_compare xs ys
  | VTuple xs, VTuple ys => lex_compare value_compare xs ys
  | _, _ =>
      match number_value a, number_value b with
      | Some m, Some n => Some (m ?= n)%Z
      | _, _ => None
      end
  end.

(** Whether the comparison [a <operator> b] holds, for the operator with
    the given name; no answer where the language does not order the two
    values. *)
Definition comparison_holds (op : string) (a b : value) : option bool :=
  if String.eqb op "eq" then Some (py_eq a b)
  else if String.eqb op "ne" then Some (negb (py_eq a b))
  else
    match value_compare a b with
    | None => None
    | Some c =>
        if String.eqb op "lt" then Some (match c with Lt => true | _ => false end)
        else if String.eqb op "le"
        then Some (match c with Gt => false | _ => true end)
        else if String.eqb op "gt"
        then Some (match c with Gt => true | _ => false end)
        else if String.eqb op "ge"
        then Some (match c with Lt => false | _ => true end)
        else None
    end.

(** The comparison [a <operator> val] is defined and holds. *)
Definition holds (op : string) (val a : value) : bool :=
  match comparison_holds op a val with
  | Some b => b
  | None => false
  end.

(** The [keys] arguments [map_keys] lets through: the string ["*"], a
    [list], a [set]. *)
Definition keys_accepted (keys : value) : bool :=
  py_eq keys (VStr "*")
  || match keys with
     | VList _ | VSet _ => true
     | _ => false
     end.

(** The call does not end in an [AssertionError]. *)
Definition no_assertion {A : Type} (r : result A) : Prop :=
  forall msg, r <> Raise (AssertionError msg).

(** ** Notions used by the further properties *)

(** The operator names [filter_by_key] knows: ['exists'] and the keys of
    [unary_ops] and [binary_ops]. *)
Definition operator_names : list string :=
  ["exists"; "not"; "truth"; "is"; "is_not";
   "eq"; "le"; "ge"; "lt"; "gt"; "ne"].

(** An object with elements or entries, other than a string. *)
Definition is_container (v : value) : bool :=
  match v with
  | VList _ | VTuple _ | VSet _ | VDict _ => true
  | _ => false
  end.

(** [key in x] for a container [x] and a hashable [key]. *)
Definition contains_key (key x : value) : bool :=
  match x with
  | VDict d => match dict_find key d with Some _ => true | None => false end
  | VList ys | VTuple ys | VSet ys => existsb (fun e => py_eq e key) ys
  | _ => false
  end.

(** A mapping as the interpreter builds it: the keys can be hashed and no
    two of them are equal. *)
Definition well_formed_dict (d : list (value * value)) : bool :=
  forallb (fun kv => hashable (fst kv)) d && unique_keys d.

(** [d.get(k)] on the entries of a mapping. *)
Definition get_or_none (d : list (value * value)) (k : value) : value :=
  match dict_find k d with
  | Some v => v
  | None => VNone
  end.

(** The value a mapping item has under a plain key, [None] when it has
    none: what [to_map] files the item under when the key holds no
    delimiter. *)
Definition plain_key_of (k : string) (x : value) : value :=
  match x with
  | VDict d => get_or_none d (VStr k)
  | _ => VNone
  end.

End Py.

(** * The store-level model *)

Module Store.

(** ** Values, objects and the heap *)

Abbreviation loc := nat.

(** Immutable objects are carried as they are; a [list], a [set] or a
    [dict] is carried as a reference to the object in the heap, so that two
    uses of one container share it. *)
#[local] Unset Elimination Schemes.
Inductive value : Type :=
| VNone
| VBool (b : bool)
| VInt (n : Z)
| VStr (s : string)
| VTuple (xs : list value)
| VRef (l : loc).
#[local] Set Elimination Schemes.

Inductive object : Type :=
| OList (xs : list value)
| OSet (xs : list value)
| ODict (kvs : list (value * value)).

(** The heap: the object at address [l] is the [l]-th one; a new object
    takes the next free address. *)
Abbreviation heap := (list object).

(** A computation reads and updates the heap and ends in a value or in an
    exception; the heap is kept when an exception is raised. *)
Definition M (A : Type) : Type := heap -> result A * heap.

Definition ret {A : Type} (a : A) : M A := fun h => (Ok a, h).

Definition raise {A : Type} (e : exn) : M A := fun h => (Raise e, h).

Definition mbind {A B : Type} (m : M A) (k : A -> M B) : M B :=
  fun h => match m h with
           | (Ok a, h') => k a h'
           | (Raise e, h') => (Raise e, h')
           end.

Notation "'let*' x ':=' m 'in' k" := (mbind m (fun x => k))
  (at level 10, x name, m at level 100, k at level 200,
   format "'[v' 'let*'  x  ':='  m  'in' '/' k ']'") : py_scope.

(** A computation that only reads the heap. *)
Definition peek {A : Type} (f : heap -> result A) : M A := fun h => (f h, h).

(** A new object. *)
Definition alloc (o : object) : M value :=
  fun h => (Ok (VRef (length h)), h ++ [o]).

(** The object a reference points to; [SystemError] stands for a reference
    to no object, which the interpreter never hands out. *)
Definition load (l : loc) : M object :=
  peek (fun h => match h !! l with
                 | Some o => Ok o
                 | None => Raise SystemError
                 end).

(** Update in place of the object at [l]. *)
Definition store (l : loc) (o : object) : M unit :=
  fun h => (Ok tt, <[l := o]> h).

Fixpoint reduce_M {A B : Type} (f : A -> B -> M A) (xs : list B) (acc : A)
  : M A :=
  match xs with
  | [] => ret acc
  | x :: xs' => let* acc' := f acc x in reduce_M f xs' acc'
  end.

Fixpoint map_M {A B : Type} (f : A -> M B) (xs : list A) : M (list B) :=
  match xs with
  | [] => ret []
  | x :: xs' => let* y := f x in let* ys := map_M f xs' in ret (y :: ys)
  end.

Fixpoint filter_M {A : Type} (p : A -> M bool) (xs : list A) : M (list A) :=
  match xs with
  | [] => ret []
  | x :: xs' =>
      let* b := p x in
      let* ys := filter_M p xs' in
      ret (if b then x :: ys else ys)
  end.

(** ** Primitives *)

(** [isinstance(v, scalar_types)]: a [str], a [bool], or an integer that
    is an [int] and no [long]; no container is one. *)
Definition is_scalar_type (v : value) : bool :=
  match v with
  | VStr _ | VBool _ => true
  | VInt n => negb (Py.is_long n)
  | _ => false
  end.

Definition is_list_type (h : heap) (v : value) : bool :=
  match v with
  | VTuple _ => true
  | VRef l =>
      match h !! l with
      | Some (OList _ | OSet _) => true
      | _ => false
      end
  | _ => false
  end.

Definition truthy (h : heap) (v : value) : bool :=
  match v with
  | VNone => false
  | VBool b => b
  | VInt n => negb (n =? 0)%Z
  | VStr s => negb (Nat.eqb (String.length s) 0)
  | VTuple xs => negb (Nat.eqb (length xs) 0)
  | VRef l =>
      match h !! l with
      | Some (OList xs | OSet xs) => negb (Nat.eqb (length xs) 0)
      | Some (ODict kvs) => negb (Nat.eqb (length kvs) 0)
      | None => false
      end
  end.

Fixpoint hashable (v : value) : bool :=
  match v with
  | VNone | VBool _ | VInt _ | VStr _ => true
  | VTuple xs => forallb hashable xs
  | VRef _ => false
  end.

Definition as_number (v : value) : option Z :=
  match v with
  | VBool b => Some (if b then 1 else 0)%Z
  | VInt n => Some n
  | _ => None
  end.

(** [a == b] when one side is a key: a mutable container equals no key. *)
Fixpoint key_eq (a b : value) : bool :=
  match a, b with
  | VNone, VNone => true
  | VBool _, (VBool _ | VInt _) | VInt _, (VBool _ | VInt _) =>
      match as_number a, as_number b with
      | Some m, Some n => (m =? n)%Z
      | _, _ => false
      end
  | VStr s, VStr t => String.eqb s t
  | VTuple xs, VTuple ys =>
      (fix eq_seq (xs ys : list value) {struct xs} : bool :=
         match xs, ys with
         | [], [] => true
         | x :: xs', y :: ys' => key_eq x y && eq_seq xs' ys'
         | _, _ => false
         end) xs ys
  | _, _ => false
  end.

Fixpoint dict_find (k : value) (d : list (value * value)) : option value :=
  match d with
  | [] => None
  | (k', v) :: d' => if key_eq k' k then Some v else dict_find k d'
  end.

Fixpoint dict_set (k v : value) (d : list (value * value))
  : list (value * value) :=
  match d with
  | [] => [(k, v)]
  | (k', v') :: d' =>
      if key_eq k' k then (k', v) :: d' else (k', v') :: dict_set k v d'
  end.

Definition chars (s : string) : list value :=
  map (fun c => VStr (Py.char_str c)) (list_ascii_of_string s).

(** [for x in v]: the elements are read when the loop starts.  A loop of
    the module never updates the container it runs over. *)
Definition py_iter (v : value) : M (list value) :=
  match v with
  | VTuple xs => ret xs
  | VStr s => ret (chars s)
  | VRef l =>
      let* o := load l in
      match o with
      | OList xs | OSet xs => ret xs
      | ODict kvs => ret (map fst kvs)
      end
  | VNone | VBool _ | VInt _ => raise TypeError
  end.

Definition py_len (v : value) : M nat :=
  match v with
  | VTuple xs => ret (length xs)
  | VStr s => ret (String.length s)
  | VRef l =>
      let* o := load l in
      match o with
      | OList xs | OSet xs => ret (length xs)
      | ODict kvs => ret (length kvs)
      end
  | VNone | VBool _ | VInt _ => raise TypeError
  end.

Definition py_getitem0 (v : value) : M value :=
  match v with
  | VTuple (x :: _) => ret x
  | VTuple [] => raise IndexError
  | VStr (String c _) => ret (VStr (Py.char_str c))
  | VStr EmptyString => raise IndexError
  | VRef l =>
      let* o := load l in
      match o with
      | OList (x :: _) => ret x
      | OList [] => raise IndexError
      | OSet _ => raise TypeError
      | ODict kvs =>
          match dict_find (VInt 0) kvs with
          | Some x => ret x
          | None => raise KeyError
          end
      end
  | VNone | VBool _ | VInt _ => raise TypeError
  end.

(** The entries of the [dict] behind [d]; any other object has none of the
    methods [get], [keys], [values], [items]. *)
Definition py_items (d : value) : M (list (value * value)) :=
  match d with
  | VRef l =>
      let* o := load l in
      match o with
      | ODict kvs => ret kvs
      | OList _ | OSet _ => raise AttributeError
      end
  | _ => raise AttributeError
  end.

(** [z.get(k)] *)
Definition py_get (z k : value) : M value :=
  let* kvs := py_items z in
  if hashable k
  then ret (match dict_find k kvs with Some v => v | None => VNone end)
  else raise TypeError.

(** [res[k] = v]: the [dict] behind [res] is updated in place. *)
Definition py_setitem (res k v : value) : M unit :=
  match res with
  | VRef l =>
      let* o := load l in
      match o with
      | ODict kvs =>
          if hashable k then store l (ODict (dict_set k v kvs))
          else raise TypeError
      | OList _ | OSet _ => raise TypeError
      end
  | _ => raise TypeError
  end.

(** [pres.append(y)]: the [list] behind [pres] is updated in place. *)
Definition py_append (pres y : value) : M unit :=
  match pres with
  | VRef l =>
      let* o := load l in
      match o with
      | OList xs => store l (OList (xs ++ [y]))
      | OSet _ | ODict _ => raise AttributeError
      end
  | _ => raise AttributeError
  end.

Definition py_split (s sep : value) : M (list string) :=
  match s with
  | VStr s =>
      match sep with
      | VNone => ret (Py.split_words EmptyString s)
      | VStr EmptyString => raise (ValueError "empty separator")
      | VStr sep => ret (Py.split_on sep 0 EmptyString s)
      | _ => raise TypeError
      end
  | _ => raise AttributeError
  end.

(** The first [true], the first exception, or [false]: [any(f(x) for x in
    xs)]. *)
Fixpoint exists_result {A : Type} (f : A -> result bool) (xs : list A)
  : result bool :=
  match xs with
  | [] => Ok false
  | x :: xs' =>
      match f x with
      | Ok true => Ok true
      | Ok false => exists_result f xs'
      | Raise e => Raise e
      end
  end.

(** A tree of values built in the heap, every container a new object. *)
Fixpoint alloc_value (v : Py.value) : M value :=
  match v with
  | Py.VNone => ret VNone
  | Py.VBool b => ret (VBool b)
  | Py.VInt n => ret (VInt n)
  | Py.VStr s => ret (VStr s)
  | Py.VTuple xs => let* ys := map_M alloc_value xs in ret (VTuple ys)
  | Py.VList xs => let* ys := map_M alloc_value xs in alloc (OList ys)
  | Py.VSet xs => let* ys := map_M alloc_value xs in alloc (OSet ys)
  | Py.VDict kvs =>
      let* es := map_M (fun kv => let* k := alloc_value (fst kv) in
                                  let* w := alloc_value (snd kv) in
                                  ret (k, w)) kvs in
      alloc (ODict es)
  end.

(** The tree below a value, to depth [fuel]: what a deep copy of it would
    hold. *)
Fixpoint snapshot (fuel : nat) (h : heap) (v : value) : option Py.value :=
  match fuel with
  | O => None
  | S n =>
      match v with
      | VNone => Some Py.VNone
      | VBool b => Some (Py.VBool b)
      | VInt z => Some (Py.VInt z)
      | VStr s => Some (Py.VStr s)
      | VTuple xs => Py.VTuple <$> mapM (snapshot n h) xs
      | VRef l =>
          match h !! l with
          | Some (OList xs) => Py.VList <$> mapM (snapshot n h) xs
          | Some (OSet xs) => Py.VSet <$> mapM (snapshot n h) xs
          | Some (ODict kvs) =>
              Py.VDict <$> mapM (fun kv =>
                                   match snapshot n h (fst kv),
                                         snapshot n h (snd kv) with
                                   | Some k, Some w => Some (k, w)
                                   | _, _ => None
                                   end) kvs
          | None => None
          end
      end
  end.

(** ** The module *)

(** What the interpreter and the standard library supply.  They read the
    heap and do not update it: [str.format] and [str], the comparison
    operators, and the decoder of [json.loads], whose result is built from
    new objects. *)
Section Runtime.

Variable str_format : heap -> string -> list value -> result string.
Variable py_str : heap -> value -> string.
Variable json_decode : string -> result Py.value.
Variable py_eq : heap -> value -> value -> result bool.
Variable py_order : heap -> Py.binary_entry -> value -> value -> result bool.

(** [_flatten_list(pres, y)]; [depth] is the room left on the interpreter's
    call stack, a cyclic [y] exhausts it. *)
Fixpoint _flatten_list (depth : nat) (pres y : value) : M value :=
  match depth with
  | O => raise RuntimeError
  | S depth' =>
      let* expand := peek (fun h => Ok (is_list_type h y)) in
      if negb expand then
        let* _ := py_append pres y in ret pres
      else
        let* ys := py_iter y in
        reduce_M (_flatten_list depth') ys pres
  end.

Definition one (l : value) : M value :=
  let* n := py_len l in
  if Nat.ltb 1 n then
    raise (ValueError "The list contains more than 1 element")
  else if Nat.eqb n 0 then
    raise (ValueError "The list is empty")
  else py_getitem0 l.

Definition path_step (z k : value) : M value :=
  let* t := peek (fun h => Ok (truthy h z)) in
  if t then py_get z k else ret VNone.

Definition resolve (p : list string) (x : value) : M value :=
  reduce_M path_step (map VStr p) x.

Definition to_map (l item_key path_delimiter : value) : M value :=
  let* res := alloc (ODict []) in
  let* p := py_split item_key path_delimiter in
  let* xs := py_iter l in
  let* _ := reduce_M (fun _ x =>
                        let* k := resolve p x in
                        let* t := peek (fun h => Ok (truthy h k)) in
                        if t then py_setitem res k x else ret tt)
                     xs tt in
  ret res.

Definition py_format (fmt : value) (args : list value) : M value :=
  match fmt with
  | VStr f => let* s := peek (fun h => str_format h f args) in ret (VStr s)
  | _ => raise AttributeError
  end.

Definition format_items (it fmt : value) : M value :=
  let* xs := py_iter it in
  let* ys := map_M (fun x => py_format fmt [x]) xs in
  alloc (OList ys).

Definition flatten_list (depth : nat) (l : value) : M value :=
  let* pres := alloc (OList []) in
  let* ys := py_iter l in
  reduce_M (_flatten_list depth) ys pres.

Definition list_values (d : value) : M value :=
  let* kvs := py_items d in alloc (OList (map snd kvs)).

Definition list_keys (d : value) : M value :=
  let* kvs := py_items d in alloc (OList (map fst kvs)).

Definition kv_included (h : heap) (kv : value * value) : bool :=
  negb (truthy h (snd kv)) || is_scalar_type (snd kv).

Definition kv_token (h : heap) (kv : value * value) : string :=
  if truthy h (snd kv)
  then py_str h (fst kv) +:+ "=" +:+ py_str h (snd kv)
  else py_str h (fst kv).

Definition to_kv_pairs (d sep : value) : M value :=
  match sep with
  | VStr sep =>
      let* items := py_items d in
      peek (fun h =>
              Ok (VStr (String.concat sep
                          (map (kv_token h) (List.filter (kv_included h) items)))))
  | _ => raise AttributeError
  end.

(** [{k: e(k) for k in keys}]: a new [dict], filled entry by entry. *)
Definition dict_comprehension {A : Type} (key : A -> value) (e : A -> M value)
    (xs : list A) : M value :=
  let* res := alloc (ODict []) in
  let* _ := reduce_M (fun _ x => let* v := e x in py_setitem res (key x) v)
                     xs tt in
  ret res.

Definition json_loads (v : value) : M value :=
  match v with
  | VStr s =>
      match json_decode s with
      | Ok t => alloc_value t
      | Raise e => raise e
      end
  | _ => raise TypeError
  end.

Definition map_keys (d keys source_path path_delimiter decode_json : value)
  : M value :=
  let* keys :=
    (if key_eq keys (VStr "*") then
       let* ks := list_keys d in py_iter ks
     else
       let* accepted :=
         peek (fun h => Ok (match keys with
                            | VRef l =>
                                match h !! l with
                                | Some (OList _ | OSet _) => true
                                | _ => false
                                end
                            | _ => false
                            end)) in
       if accepted then py_iter keys
       else raise (AssertionError "Expected an iterable of keys")) in
  let* res :=
    match source_path with
    | VStr _ =>
        dict_comprehension (fun k => k)
          (fun k =>
             let* s := py_format source_path [k] in
             let* p := py_split s path_delimiter in
             resolve p d)
          keys
    | _ => dict_comprehension (fun k => k) (fun k => py_get d k) keys
    end in
  let* decode := peek (fun h => Ok (truthy h decode_json)) in
  if decode then
    let* kvs := py_items res in
    dict_comprehension fst (fun kv => json_loads (snd kv)) kvs
  else ret res.

(** [k in x] *)
Definition py_contains (x k : value) : M bool :=
  match x with
  | VTuple xs => peek (fun h => exists_result (fun e => py_eq h e k) xs)
  | VStr s =>
      match k with
      | VStr t => ret (Py.is_substring t s)
      | _ => raise TypeError
      end
  | VRef l =>
      let* o := load l in
      match o with
      | OList xs => peek (fun h => exists_result (fun e => py_eq h e k) xs)
      | OSet xs =>
          if hashable k then ret (existsb (fun e => key_eq e k) xs)
          else
            let* is_set :=
              peek (fun h => Ok (match k with
                                 | VRef l' =>
                                     match h !! l' with
                                     | Some (OSet _) => true
                                     | _ => false
                                     end
                                 | _ => false
                                 end)) in
            if is_set then ret false else raise TypeError
      | ODict kvs =>
          if hashable k
          then ret (match dict_find k kvs with Some _ => true | None => false end)
          else raise TypeError
      end
  | VNone | VBool _ | VInt _ => raise TypeError
  end.

Definition call_unary (t : Py.unary_entry) (a : value) : M value :=
  match t with
  | Py.op_not_ => peek (fun h => Ok (VBool (negb (truthy h a))))
  | Py.op_truth => peek (fun h => Ok (VBool (truthy h a)))
  | Py.op_is_ | Py.op_is_not => raise TypeError
  end.

Definition call_binary (t : Py.binary_entry) (a b : value) : M value :=
  match t with
  | Py.op_eq => let* r := peek (fun h => py_eq h a b) in ret (VBool r)
  | Py.op_ne => let* r := peek (fun h => py_eq h a b) in ret (VBool (negb r))
  | Py.op_le | Py.op_ge | Py.op_lt | Py.op_gt =>
      let* r := peek (fun h => py_order h t a b) in ret (VBool r)
  end.

Definition predicate (key : value) (op : string) (val : value)
  : option (value -> M bool) :=
  if String.eqb op "exists" then
    Some (fun x => py_contains x key)
  else match Py.unary_ops op with
  | Some t =>
      Some (fun x =>
              let* c := py_contains x key in
              if c then
                let* a := py_get x key in
                let* r := call_unary t a in
                peek (fun h => Ok (truthy h r))
              else ret false)
  | None =>
      match Py.binary_ops op with
      | Some t =>
          Some (fun x =>
                  let* c := py_contains x key in
                  if c then
                    let* a := py_get x key in
                    let* r := call_binary t a val in
                    peek (fun h => Ok (truthy h r))
                  else ret false)
      | None => None
      end
  end.

Definition py_filter (pred : value -> M bool) (l : value) : M value :=
  match l with
  | VTuple xs => let* ys := filter_M pred xs in ret (VTuple ys)
  | VStr s =>
      let* ys := filter_M pred (chars s) in
      ret (VStr (String.concat EmptyString
                   (map (fun y => match y with
                                  | VStr c => c
                                  | _ => EmptyString
                                  end) ys)))
  | _ => let* xs := py_iter l in let* ys := filter_M pred xs in alloc (OList ys)
  end.

Definition filter_by_key (l key : value) (op : string) (val : value)
  : M value :=
  match predicate key op val with
  | None => raise (ValueError ("Unknown operator: " +:+ op))
  | Some pred => py_filter pred l
  end.

(** [filter_by_key] with an operator that need not be a string: an object
    that is in neither table is an unknown operator, one that cannot be
    hashed cannot be looked up, and a tuple is taken apart by [%]. *)
Definition filter_by_key_any (l key op val : value) : M value :=
  match op with
  | VStr op => filter_by_key l key op val
  | VNone | VBool _ | VInt _ =>
      peek (fun h => Raise (ValueError ("Unknown operator: " +:+ py_str h op)))
  | VTuple [x] =>
      if hashable x
      then peek (fun h => Raise (ValueError ("Unknown operator: " +:+ py_str h x)))
      else raise TypeError
  | VTuple _ | VRef _ => raise TypeError
  end.

(** [filters()]: the registered names, each bound to its function called
    with positional arguments; a parameter left out takes its default, any
    other number of arguments is a [TypeError]. *)
Definition filters (depth : nat) (name : string)
  : option (list value -> M value) :=
  if String.eqb name "one" then
    Some (fun args => match args with
                      | [l] => one l
                      | _ => raise TypeError
                      end)
  else if String.eqb name "format_items" then
    Some (fun args => match args with
                      | [it; fmt] => format_items it fmt
                      | _ => raise TypeError
                      end)
  else if String.eqb name "flatten_list" then
    Some (fun args => match args with
                      | [l] => flatten_list depth l
                      | _ => raise TypeError
                      end)
  else if String.eqb name "map_keys" then
    Some (fun args =>
            match args with
            | [d; keys] => map_keys d keys VNone (VStr ".") (VBool false)
            | [d; keys; sp] => map_keys d keys sp (VStr ".") (VBool false)
            | [d; keys; sp; pd] => map_keys d keys sp pd (VBool false)
            | [d; keys; sp; pd; dj] => map_keys d keys sp pd dj
            | _ => raise TypeError
            end)
  else if String.eqb name "list_values" then
    Some (fun args => match args with
                      | [d] => list_values d
                      | _ => raise TypeError
                      end)
  else if String.eqb name "list_keys" then
    Some (fun args => match args with
                      | [d] => list_keys d
                      | _ => raise TypeError
                      end)
  else if String.eqb name "to_kv_pairs" then
    Some (fun args => match args with
                      | [d] => to_kv_pairs d (VStr ",")
                      | [d; sep] => to_kv_pairs d sep
                      | _ => raise TypeError
                      end)
  else if String.eqb name "filter_by_key" then
    Some (fun args =>
            match args with
            | [l; key] => filter_by_key l key "exists" VNone
            | [l; key; op] => filter_by_key_any l key op VNone
            | [l; key; op; val] => filter_by_key_any l key op val
            | _ => raise TypeError
            end)
  else if String.eqb name "to_map" then
    Some (fun args => match args with
                      | [l; item_key] => to_map l item_key (VStr ".")
                      | [l; item_key; pd] => to_map l item_key pd
                      | _ => raise TypeError
                      end)
  else None.

End Runtime.

(** ** What the call may touch *)

(** The heap [h] holds every object of [h0], unchanged and at its address,
    followed by new ones. *)
Definition extends (h0 h : heap) : Prop := exists new, h = h0 ++ new.

(** A reference to an object that was created after [h0] was taken. *)
Definition fresh (h0 : heap) (v : value) : Prop :=
  exists l, v = VRef l /\ length h0 <= l.

(** From a heap that extends [h0] the computation leaves a heap that
    extends [h0], and a value it returns satisfies [Q]. *)
Definition keeps {A : Type} (h0 : heap) (m : M A) (Q : A -> Prop) : Prop :=
  forall h, extends h0 h ->
            extends h0 (snd (m h)) /\ (forall a, fst (m h) = Ok a -> Q a).

Definition any {A : Type} (a : A) : Prop := True.

(** The values [xs] have the snapshots [ts], one by one. *)
Definition snapshots (n : nat) (h : heap) (xs : list value)
    (ts : list Py.value) : Prop :=
  Forall2 (fun x t => snapshot n h x = Some t) xs ts.

(** The primitives of the interpreter read the content of their arguments
    and nothing else: on values whose trees, to depth [fuel], are known,
    [str.format], [str], [==] and the ordering operators answer what their
    value-level counterparts answer on the trees. *)
Definition content_readers (fuel : nat)
    (str_format : heap -> string -> list value -> result string)
    (py_str : heap -> value -> string)
    (py_eq : heap -> value -> value -> result bool)
    (py_order : heap -> Py.binary_entry -> value -> value -> result bool)
    (tree_format : string -> list Py.value -> result string)
    (tree_order : Py.binary_entry -> Py.value -> Py.value -> result bool)
  : Prop :=
  (forall h f args ts,
      snapshots fuel h args ts -> str_format h f args = tree_format f ts)
  /\ (forall h v t, snapshot fuel h v = Some t -> py_str h v = Py.py_str t)
  /\ (forall h a b ta tb,
        snapshot fuel h a = Some ta -> snapshot fuel h b = Some tb ->
        py_eq h a b = Ok (Py.py_eq ta tb))
  /\ (forall h t a b ta tb,
        snapshot fuel h a = Some ta -> snapshot fuel h b = Some tb ->
        py_order h t a b = tree_order t ta tb).

(** The outcome of a store-level call is the outcome [p] of a value-level
    one: the same exception, or a value below which the heap holds the tree
    that [p] returns. *)
Definition outcome_is (r : result value * heap) (p : result Py.value) : Prop :=
  match fst r, p with
  | Ok v, Ok t => exists n, snapshot n (snd r) v = Some t
  | Raise e, Raise e' => e = e'
  | _, _ => False
  end.

(** The entries [kvs] have the trees [tkvs], keys and values. *)
Definition entries (n : nat) (h : heap) (kvs : list (value * value))
    (tkvs : list (Py.value * Py.value)) : Prop :=
  Forall2 (fun kv tkv => snapshot n h (fst kv) = Some (fst tkv)
                         /\ snapshot n h (snd kv) = Some (snd tkv)) kvs tkvs.

(** Two results are related: the same exception, or values that [Q]
    relates. *)
Definition rrel {A B : Type} (Q : A -> B -> Prop) (r : result A)
    (p : result B) : Prop :=
  match r, p with
  | Ok a, Ok b => Q a b
  | Raise e, Raise e' => e = e'
  | _, _ => False
  end.

(** The computation [m] reads the heap and leaves it as it is; in any heap
    that extends [h0] its result is the value-level result [p], up to
    [Q]. *)
Definition reads_as {A B : Type} (h0 : heap) (m : M A) (p : result B)
    (Q : A -> B -> Prop) : Prop :=
  forall h, extends h0 h -> snd (m h) = h /\ rrel Q (fst (m h)) p.

(** [alloc_value] never raises; the objects it creates refer to each other
    only, so that the tree below the value it returns is read off them
    wherever they are put. *)
Definition allocates (t : Py.value) : Prop :=
  forall h, exists v block,
    alloc_value t h = (Ok v, h ++ block)
    /\ forall hpre rest n,
         length hpre = length h -> Py.height t <= n ->
         snapshot n (hpre ++ block ++ rest) v = Some t.

(** The outcome of a computation that fills the mapping created at the end
    of [h1]: it leaves that one object changed, and the entries it has put
    are those of the value-level computation. *)
Definition filled (n : nat) (h0 h1 : heap) (r : result unit * heap)
    (p : result (list (Py.value * Py.value))) : Prop :=
  exists kvs,
    snd r = h1 ++ [ODict kvs]
    /\ match p with
       | Ok tkvs => fst r = Ok tt /\ entries n h0 kvs tkvs
       | Raise e => fst r = Raise e
       end.

(** The entries of the mapping that [decode_json] fills at the end of [h2]:
    the keys are those of the caller, the values are new objects, created
    after the mapping, whose trees do not depend on it. *)
Definition decoded (n : nat) (h0 h2 post : heap) (kvs : list (value * value))
    (tkvs : list (Py.value * Py.value)) : Prop :=
  Forall2 (fun kv tkv =>
             snapshot n h0 (fst kv) = Some (fst tkv)
             /\ forall d rest m,
                  Py.height (snd tkv) <= m ->
                  snapshot m (h2 ++ ODict d :: post ++ rest) (snd kv)
                  = Some (snd tkv)) kvs tkvs.

(** Two calls have the same outcome: the same exception, or two values
    below which their heaps hold the same tree. *)
Definition same_outcome (r1 r2 : result value * heap) : Prop :=
  match fst r1, fst r2 with
  | Ok v1, Ok v2 =>
      exists n t, snapshot n (snd r1) v1 = Some t
                  /\ snapshot n (snd r2) v2 = Some t
  | Raise e1, Raise e2 => e1 = e2
  | _, _ => False
  end.

(** Primitives that read their arguments through the snapshots of depth
    [n], used to run the examples: [str.format], [str], [==] and the
    ordering operators answer what their value-level counterparts answer on
    the trees of their arguments. *)
Definition str_format_at (n : nat)
    (tree_format : string -> list Py.value -> result string)
    (h : heap) (f : string) (args : list value) : result string :=
  match mapM (snapshot n h) args with
  | Some ts => tree_format f ts
  | None => Raise TypeError
  end.

Definition py_str_at (n : nat) (h : heap) (v : value) : string :=
  match snapshot n h v with
  | Some t => Py.py_str t
  | None => EmptyString
  end.

Definition py_eq_at (n : nat) (h : heap) (a b : value) : result bool :=
  match snapshot n h a, snapshot n h b with
  | Some ta, Some tb => Ok (Py.py_eq ta tb)
  | _, _ => Raise TypeError
  end.

Definition py_order_at (n : nat)
    (tree_order : Py.binary_entry -> Py.value -> Py.value -> result bool)
    (h : heap) (t : Py.binary_entry) (a b : value) : result bool :=
  match snapshot n h a, snapshot n h b with
  | Some ta, Some tb => tree_order t ta tb
  | _, _ => Raise TypeError
  end.

End Store.

(** * Properties of the value-level model *)

Module PyFacts.
Import Py.

Lemma bind_Ok {A B : Type} (m : result A) (k : A -> result B) (b : B) :
  bind m k = Ok b -> exists a, m = Ok a /\ k a = Ok b.
Proof. destruct m as [a|e]; simpl; [eauto | discriminate]. Qed.

Lemma reduce_app {A B : Type} (f : A -> B -> result A) (xs ys : list B) (a : A) :
  reduce f (xs ++ ys) a = bind (reduce f xs a) (reduce f ys).
Proof.
  revert a. induction xs as [|x xs IH]; intros a; simpl; [reflexivity|].
  destruct (f a x) as [a'|e]; simpl; [apply IH | reflexivity].
Qed.

Lemma chars_length (s : string) : length (chars s) = String.length s.
Proof.
  unfold chars. rewrite length_map.
  induction s as [|c s IH]; simpl; [reflexivity | now rewrite IH].
Qed.

(** *** [one] *)

(** C5: on a sequence, [one] returns the sole element when there is exactly
    one, and raises [ValueError] (the specification's CardinalityError) when
    the sequence is empty or has more than one element; [one([5]) == 5],
    [one([])] and [one([1,2])] fail. *)
Theorem one_sole_element_or_cardinality_error :
  (forall l xs,
     sequence_items l = Some xs ->
     one l = match xs with
             | [] => Raise (ValueError "The list is empty")
             | [x] => Ok x
             | _ :: _ :: _ =>
                 Raise (ValueError "The list contains more than 1 element")
             end)
  /\ one (VList [VInt 5]) = Ok (VInt 5)
  /\ one (VList []) = Raise (ValueError "The list is empty")
  /\ one (VList [VInt 1; VInt 2])
     = Raise (ValueError "The list contains more than 1 element").
Proof.
  split; [|repeat split; reflexivity].
  intros l xs H.
  destruct l as [| | |s|ys|ys|ys|kvs]; simpl in H; try discriminate;
    injection H as <-.
  - unfold one. simpl. rewrite <- chars_length.
    destruct s as [|c [|c' s]]; reflexivity.
  - destruct ys as [|x [|y ys]]; reflexivity.
  - destruct ys as [|x [|y ys]]; reflexivity.
Qed.

Lemma one_sole_element_or_cardinality_error_witness :
  sequence_items (VTuple [VStr "a"]) = Some [VStr "a"]
  /\ one (VTuple [VStr "a"]) = Ok (VStr "a").
Proof.
  split; [reflexivity|].
  apply (proj1 one_sole_element_or_cardinality_error
           (VTuple [VStr "a"]) [VStr "a"]).
  reflexivity.
Defined.

(** *** [flatten_list] *)

Lemma fold_flatten_leaves (ys pres : list value) :
  Forall (fun y => forall pres, _flatten_list pres y = pres ++ leaves y) ys ->
  fold_left _flatten_list ys pres = pres ++ flat_map leaves ys.
Proof.
  intros H. revert pres.
  induction H as [|y ys Hy _ IH]; intros pres; simpl.
  - now rewrite app_nil_r.
  - rewrite Hy, IH. now rewrite <- app_assoc.
Qed.

(** The accumulator grows by the leaves of the visited value. *)
Lemma _flatten_list_leaves (y : value) :
  forall pres, _flatten_list pres y = pres ++ leaves y.
Proof.
  induction y using value_nested_ind; intros pres; try reflexivity;
    simpl; now apply fold_flatten_leaves.
Qed.

Lemma leaves_not_list_type (v : value) :
  Forall (fun w => is_list_type w = false) (leaves v).
Proof.
  induction v using value_nested_ind; simpl;
    try (repeat constructor; fail);
    match goal with
    | H : Forall _ ?xs |- _ =>
        induction H; simpl; [constructor | apply Forall_app; split; assumption]
    end.
Qed.

Lemma flat_map_leaves_flat (xs : list value) :
  Forall (fun w => is_list_type w = false) xs -> flat_map leaves xs = xs.
Proof.
  induction 1 as [|x xs Hx _ IH]; simpl; [reflexivity|].
  rewrite IH. destruct x; simpl in Hx; try discriminate; reflexivity.
Qed.

Lemma flatten_list_iter (l : value) (xs : list value) :
  py_iter l = Ok xs -> flatten_list l = Ok (VList (flat_map leaves xs)).
Proof.
  intros H. unfold flatten_list. rewrite H. simpl.
  rewrite fold_flatten_leaves; [reflexivity|].
  apply Forall_forall. intros; apply _flatten_list_leaves.
Qed.

Lemma flatten_list_leaves (l : value) :
  is_list_type l = true -> flatten_list l = Ok (VList (leaves l)).
Proof.
  intros H. destruct l; simpl in H; try discriminate;
    now apply flatten_list_iter.
Qed.

(** C7: on a nested sequence (a tree of lists, sets and tuples, finite and
    acyclic by construction) [flatten_list] returns the list of the leaves,
    depth first and left to right; no leaf is sequence-like, mappings are
    leaves, empty sequences contribute nothing; and
    [flatten_list([[1,[2,3]],[],[4]]) == [1,2,3,4]]. *)
Theorem flatten_list_depth_first_leaves :
  (forall l, is_list_type l = true ->
     flatten_list l = Ok (VList (leaves l))
     /\ Forall (fun w => is_list_type w = false) (leaves l))
  /\ (forall kvs, leaves (VDict kvs) = [VDict kvs])
  /\ leaves (VList []) = [] /\ leaves (VTuple []) = [] /\ leaves (VSet []) = []
  /\ flatten_list
       (VList [VList [VInt 1; VList [VInt 2; VInt 3]]; VList []; VList [VInt 4]])
     = Ok (VList [VInt 1; VInt 2; VInt 3; VInt 4]).
Proof.
  split; [|repeat split; reflexivity].
  intros l H. split; [now apply flatten_list_leaves | apply leaves_not_list_type].
Qed.

Lemma flatten_list_depth_first_leaves_witness :
  flatten_list (VTuple [VSet [VInt 1]; VList [VDict []; VTuple []]])
  = Ok (VList [VInt 1; VDict []]).
Proof.
  apply (proj1 (proj1 flatten_list_depth_first_leaves
                  (VTuple [VSet [VInt 1]; VList [VDict []; VTuple []]])
                  eq_refl)).
Defined.

(** C8: on an already flat sequence [x], flattening the result of
    [flatten_list(x)] gives the same list again, which holds the elements of
    [x] in order. *)
Theorem flatten_list_idempotent_on_flat (x : value) (xs : list value) :
  py_iter x = Ok xs ->
  Forall (fun w => is_list_type w = false) xs ->
  exists r, flatten_list x = Ok r /\ flatten_list r = Ok r /\ r = VList xs.
Proof.
  intros Hit Hflat. exists (VList xs).
  pose proof (flat_map_leaves_flat xs Hflat) as Hl.
  repeat split.
  - rewrite (flatten_list_iter x xs Hit). now rewrite Hl.
  - rewrite (flatten_list_iter (VList xs) xs eq_refl). now rewrite Hl.
Qed.

Lemma flatten_list_idempotent_on_flat_witness :
  exists r,
    flatten_list (VTuple [VInt 1; VStr "a"; VDict []]) = Ok r
    /\ flatten_list r = Ok r
    /\ r = VList [VInt 1; VStr "a"; VDict []].
Proof.
  apply (flatten_list_idempotent_on_flat
           (VTuple [VInt 1; VStr "a"; VDict []]) [VInt 1; VStr "a"; VDict []]).
  - reflexivity.
  - repeat constructor.
Defined.

(** *** [to_kv_pairs] *)









(** *** Key paths *)

Lemma resolve_app (p1 p2 : list string) (x : value) :
  resolve (p1 ++ p2) x = bind (resolve p1 x) (resolve p2).
Proof. unfold resolve. rewrite map_app. apply reduce_app. Qed.

(** Below a falsy value every further step yields [None]. *)
Lemma resolve_falsy (p : list string) (z : value) :
  truthy z = false -> p <> [] -> resolve p z = Ok VNone.
Proof.
  intros Hz Hp. destruct p as [|k p]; [congruence|]. clear Hp.
  unfold resolve. simpl. unfold path_step at 1. rewrite Hz. simpl.
  induction p as [|k' p IH]; simpl; [reflexivity | exact IH].
Qed.

(** C10: when the resolution of a key path reaches a falsy value [z] before
    the end of the path (whatever it is: [{}], [0], the empty string,
    [None], also as the value of a key that is present), the value resolved
    for the whole path is [None]: there is no error and no lookup into [z].
    Both [to_map] and [map_keys] with a [source_path] resolve with
    [resolve]. *)
Theorem resolve_short_circuits_on_falsy
    (p1 : list string) (k : string) (p2 : list string) (x z : value) :
  resolve p1 x = Ok z ->
  truthy z = false ->
  resolve (p1 ++ k :: p2) x = Ok VNone.
Proof.
  intros H1 Hz. rewrite resolve_app, H1. simpl.
  apply resolve_falsy; [assumption | discriminate].
Qed.

Lemma resolve_short_circuits_on_falsy_witness :
  resolve ["a"; "b"; "c"]
    (VDict [(VStr "a", VDict [(VStr "b", VInt 0)])]) = Ok VNone.
Proof.
  apply (resolve_short_circuits_on_falsy ["a"; "b"] "c" []
           (VDict [(VStr "a", VDict [(VStr "b", VInt 0)])]) (VInt 0));
    reflexivity.
Defined.

(** *** Equality of keys *)

Lemma seq_eqb_refl (xs : list value) :
  Forall (fun x => hashable x = true -> py_eq x x = true) xs ->
  forallb hashable xs = true -> seq_eqb py_eq xs xs = true.
Proof.
  induction 1 as [|x xs Hx _ IH]; simpl; [reflexivity|].
  intros [H1 H2]%andb_prop. now rewrite Hx, IH.
Qed.

Lemma py_eq_refl (a : value) : hashable a = true -> py_eq a a = true.
Proof.
  induction a using value_nested_ind; simpl; intros Hh;
    try discriminate; try reflexivity.
  - apply Z.eqb_refl.
  - apply Z.eqb_refl.
  - apply String.eqb_refl.
  - now apply seq_eqb_refl.
Qed.

Lemma seq_eqb_sym (xs : list value) :
  Forall (fun x => hashable x = true -> forall b, py_eq x b = py_eq b x) xs ->
  forallb hashable xs = true ->
  forall ys, seq_eqb py_eq xs ys = seq_eqb py_eq ys xs.
Proof.
  induction 1 as [|x xs Hx _ IH]; simpl; intros Hh ys.
  - destruct ys; reflexivity.
  - apply andb_prop in Hh as [H1 H2].
    destruct ys as [|y ys]; simpl; [reflexivity|].
    now rewrite Hx, IH.
Qed.

Lemma py_eq_sym (a : value) :
  hashable a = true -> forall b, py_eq a b = py_eq b a.
Proof.
  induction a using value_nested_ind; simpl; intros Hh c;
    try discriminate; destruct c; simpl; try reflexivity;
    try apply Z.eqb_sym.
  - apply String.eqb_sym.
  - now apply seq_eqb_sym.
Qed.

Lemma seq_eqb_trans (xs : list value) :
  Forall (fun x => hashable x = true ->
                   forall b c, py_eq x b = true -> py_eq x c = py_eq b c) xs ->
  forallb hashable xs = true ->
  forall ys zs, seq_eqb py_eq xs ys = true ->
                seq_eqb py_eq xs zs = seq_eqb py_eq ys zs.
Proof.
  induction 1 as [|x xs Hx _ IH]; simpl; intros Hh ys zs Hxy.
  - destruct ys; [reflexivity | discriminate].
  - apply andb_prop in Hh as [H1 H2].
    destruct ys as [|y ys]; [discriminate|].
    apply andb_prop in Hxy as [E1 E2].
    destruct zs as [|z zs]; simpl; [reflexivity|].
    now rewrite (Hx H1 y z E1), (IH H2 ys zs E2).
Qed.

Lemma py_eq_trans (a : value) :
  hashable a = true ->
  forall b c, py_eq a b = true -> py_eq a c = py_eq b c.
Proof.
  induction a using value_nested_ind; simpl; intros Hh u w Huw;
    try discriminate;
    destruct u; simpl in Huw; try discriminate.
  - reflexivity.
  - apply Z.eqb_eq in Huw. destruct w; simpl; try reflexivity; now rewrite Huw.
  - apply Z.eqb_eq in Huw. destruct w; simpl; try reflexivity; now rewrite Huw.
  - apply Z.eqb_eq in Huw. destruct w; simpl; try reflexivity; now rewrite Huw.
  - apply Z.eqb_eq in Huw. destruct w; simpl; try reflexivity; now rewrite Huw.
  - apply String.eqb_eq in Huw. now subst.
  - destruct w; simpl; try reflexivity. now apply seq_eqb_trans.
Qed.

Lemma seq_eqb_hashable (xs : list value) :
  Forall (fun x => hashable x = true ->
                   forall b, py_eq x b = true -> hashable b = true) xs ->
  forallb hashable xs = true ->
  forall ys, seq_eqb py_eq xs ys = true -> forallb hashable ys = true.
Proof.
  induction 1 as [|x xs Hx _ IH]; simpl; intros Hh ys Hxy.
  - destruct ys; [reflexivity | discriminate].
  - apply andb_prop in Hh as [H1 H2].
    destruct ys as [|y ys]; [discriminate|].
    apply andb_prop in Hxy as [E1 E2]. simpl.
    now rewrite (Hx H1 y E1), (IH H2 ys E2).
Qed.

(** A value equal to a hashable value is hashable. *)
Lemma py_eq_hashable (a : value) :
  hashable a = true -> forall b, py_eq a b = true -> hashable b = true.
Proof.
  induction a using value_nested_ind; simpl; intros Hh u Hu;
    try discriminate;
    destruct u; simpl in Hu; try discriminate; try reflexivity.
  simpl. now apply seq_eqb_hashable with (xs := xs).
Qed.

(** *** Item assignment *)

(** Reading after [d[k] = v]. *)
Lemma dict_find_set (k v q : value) (d : list (value * value)) :
  hashable k = true ->
  dict_find q (dict_set k v d) = if py_eq k q then Some v else dict_find q d.
Proof.
  intros Hk. induction d as [|[k' v'] d IH]; simpl; [reflexivity|].
  destruct (py_eq k' k) eqn:E; simpl.
  - rewrite <- (py_eq_sym k Hk k') in E.
    rewrite (py_eq_trans k Hk k' q E).
    destruct (py_eq k' q); reflexivity.
  - rewrite IH. destruct (py_eq k q) eqn:Eq; [|reflexivity].
    destruct (py_eq k' q) eqn:Eq'; [|reflexivity].
    exfalso.
    pose proof (py_eq_hashable k Hk q Eq) as Hq.
    rewrite <- (py_eq_sym q Hq k') in Eq'.
    rewrite <- (py_eq_sym k Hk k'), (py_eq_trans k Hk q k' Eq) in E.
    congruence.
Qed.

Lemma existsb_dict_set (g : value -> bool) (k v : value)
    (d : list (value * value)) :
  existsb (fun kv => g (fst kv)) (dict_set k v d) = true ->
  existsb (fun kv => g (fst kv)) d = true \/ g k = true.
Proof.
  induction d as [|[k' v'] d IH]; simpl.
  - rewrite orb_false_r. auto.
  - destruct (py_eq k' k); simpl; [auto|].
    destruct (g k'); simpl; [auto | exact IH].
Qed.

Lemma unique_keys_set (k v : value) (d : list (value * value)) :
  hashable k = true -> unique_keys d = true ->
  unique_keys (dict_set k v d) = true.
Proof.
  intros Hk. induction d as [|[k' v'] d IH]; simpl; [reflexivity|].
  intros [H1 H2]%andb_prop.
  destruct (py_eq k' k) eqn:E; simpl.
  - now rewrite H1, H2.
  - rewrite (IH H2), andb_true_r.
    destruct (existsb (fun kv => py_eq (fst kv) k') (dict_set k v d)) eqn:Ex;
      [|reflexivity].
    apply (existsb_dict_set (fun a => py_eq a k')) in Ex as [Ex|Ex].
    + now rewrite Ex in H1.
    + rewrite (py_eq_sym k Hk k') in Ex. congruence.
Qed.

(** *** [to_map] *)

Lemma find_app {A : Type} (f : A -> bool) (xs ys : list A) :
  List.find f (xs ++ ys)
  = match List.find f xs with Some x => Some x | None => List.find f ys end.
Proof.
  induction xs as [|x xs IH]; simpl; [reflexivity|].
  destruct (f x); [reflexivity | exact IH].
Qed.

Lemma to_map_loop (p : list string) (xs : list value) :
  Forall (fileable p) xs ->
  forall res0, exists res,
    reduce (to_map_step p) xs res0 = Ok res
    /\ (forall q, dict_find q res
                  = match last_item_keyed p q xs with
                    | Some x => Some x
                    | None => dict_find q res0
                    end)
    /\ (unique_keys res0 = true -> unique_keys res = true).
Proof.
  induction 1 as [|x xs (k & Hk & Hh) _ IH]; intros res0.
  - exists res0. repeat split; auto.
  - simpl. unfold to_map_step at 1. rewrite Hk. simpl.
    assert (Hstep : exists res1,
               (if truthy k then py_setitem res0 k x else Ok res0) = Ok res1
               /\ (forall q, dict_find q res1
                             = if match item_key_of p x with
                                  | Some k' => py_eq k' q
                                  | None => false
                                  end
                               then Some x else dict_find q res0)
               /\ (unique_keys res0 = true -> unique_keys res1 = true)).
    { unfold item_key_of. rewrite Hk.
      destruct (truthy k) eqn:Ht.
      - unfold py_setitem. rewrite (Hh eq_refl).
        exists (dict_set k x res0). repeat split.
        + intros q. now apply dict_find_set, Hh.
        + now apply unique_keys_set, Hh.
      - exists res0. repeat split; auto. }
    destruct Hstep as (res1 & -> & Hfind1 & Huniq1). simpl.
    destruct (IH res1) as (res & Hred & Hfind & Huniq).
    exists res. repeat split; [exact Hred | | auto].
    intros q. rewrite Hfind. unfold last_item_keyed. simpl.
    rewrite find_app. simpl.
    destruct (List.find _ (rev xs)); [reflexivity|].
    rewrite Hfind1.
    destruct (match item_key_of p x with Some _ => _ | None => _ end);
      reflexivity.
Qed.

(** [to_map] returns only when the key path splits and every item can be
    filed. *)
Lemma to_map_returns_only_if_fileable (l item_key path_delimiter r : value) :
  to_map l item_key path_delimiter = Ok r ->
  exists xs p res,
    py_iter l = Ok xs /\ py_split item_key path_delimiter = Ok p
    /\ Forall (fileable p) xs /\ r = VDict res.
Proof.
  unfold to_map. intros H.
  apply bind_Ok in H as (p & Hp & H).
  apply bind_Ok in H as (xs & Hxs & H).
  apply bind_Ok in H as (res & Hres & H).
  injection H as <-. exists xs, p, res. repeat split; try assumption.
  clear Hxs. revert Hres. generalize (@nil (value * value)) as res0.
  induction xs as [|x xs IH]; intros res0 Hres; [constructor|].
  simpl in Hres. apply bind_Ok in Hres as (res1 & Hstep & Hres).
  constructor; [|now apply (IH res1)].
  unfold to_map_step in Hstep. apply bind_Ok in Hstep as (k & Hk & Hstep).
  exists k. split; [exact Hk|]. intros Ht. rewrite Ht in Hstep.
  unfold py_setitem in Hstep. now destruct (hashable k).
Qed.

(** C2, as the code has it: on a sequence of items whose key path resolves
    without error, to a falsy value or to a value that can be a key,
    [to_map] returns a mapping that binds a key [q] to the last item filed
    under a key equal to [q], where an item is filed under its resolved key
    when that key is truthy; items with a falsy resolved key are bound
    nowhere; the mapping has no two equal keys and is empty for an empty
    sequence.  [to_map] returns under these conditions only.  The two
    examples of the specification hold. *)
Theorem to_map_last_truthy_key_wins :
  (forall l xs item_key path_delimiter p,
     py_iter l = Ok xs ->
     py_split item_key path_delimiter = Ok p ->
     Forall (fileable p) xs ->
     exists res,
       to_map l item_key path_delimiter = Ok (VDict res)
       /\ (forall q, dict_find q res = last_item_keyed p q xs)
       /\ unique_keys res = true
       /\ (xs = [] -> res = []))
  /\ (forall l item_key path_delimiter r,
        to_map l item_key path_delimiter = Ok r ->
        exists xs p res,
          py_iter l = Ok xs /\ py_split item_key path_delimiter = Ok p
          /\ Forall (fileable p) xs /\ r = VDict res)
  /\ to_map
       (VList [VDict [(VStr "id", VInt 0); (VStr "v", VInt 1)];
               VDict [(VStr "id", VStr "b"); (VStr "v", VInt 2)]])
       (VStr "id") (VStr ".")
     = Ok (VDict [(VStr "b", VDict [(VStr "id", VStr "b"); (VStr "v", VInt 2)])])
  /\ to_map
       (VList [VDict [(VStr "id", VStr "a"); (VStr "v", VInt 1)];
               VDict [(VStr "id", VStr "b"); (VStr "v", VInt 2)]])
       (VStr "id") (VStr ".")
     = Ok (VDict [(VStr "a", VDict [(VStr "id", VStr "a"); (VStr "v", VInt 1)]);
                  (VStr "b", VDict [(VStr "id", VStr "b"); (VStr "v", VInt 2)])]).
Proof.
  split; [|split; [exact to_map_returns_only_if_fileable | split; reflexivity]].
  intros l xs item_key path_delimiter p Hit Hsp Hxs.
  destruct (to_map_loop p xs Hxs []) as (res & Hred & Hfind & Huniq).
  exists res. unfold to_map. rewrite Hsp, Hit. simpl.
  rewrite Hred. simpl. repeat split.
  - intros q. rewrite Hfind. now destruct (last_item_keyed p q xs).
  - now apply Huniq.
  - intros ->. simpl in Hred. now injection Hred as <-.
Qed.

Lemma to_map_last_truthy_key_wins_witness :
  exists res,
    to_map (VTuple [VDict [(VStr "n", VInt 1)]; VDict [];
                    VDict [(VStr "n", VBool true); (VStr "w", VNone)]])
           (VStr "n") (VStr ".")
    = Ok (VDict res)
    /\ (forall q, dict_find q res
                  = last_item_keyed ["n"] q
                      [VDict [(VStr "n", VInt 1)]; VDict [];
                       VDict [(VStr "n", VBool true); (VStr "w", VNone)]])
    /\ unique_keys res = true
    /\ ([VDict [(VStr "n", VInt 1)]; VDict [];
         VDict [(VStr "n", VBool true); (VStr "w", VNone)]] = [] -> res = []).
Proof.
  apply (proj1 to_map_last_truthy_key_wins
           (VTuple [VDict [(VStr "n", VInt 1)]; VDict [];
                    VDict [(VStr "n", VBool true); (VStr "w", VNone)]])
           _ (VStr "n") (VStr ".") ["n"]).
  - reflexivity.
  - reflexivity.
  - repeat constructor.
    + exists (VInt 1). split; reflexivity.
    + exists VNone. split; [reflexivity | discriminate].
    + exists (VBool true). split; reflexivity.
Defined.

(** C2 as the specification states it fails: an item that is a mapping
    whose key path runs into a truthy value that is not a mapping is not
    skipped, the call raises; so does the call on an item whose resolved key
    is truthy and cannot be hashed, where the claim binds that key to the
    item. *)
Lemma to_map_raises_on_unfileable_item :
  (is_dict_type (VDict [(VStr "a", VInt 5)]) = true
   /\ to_map (VList [VDict [(VStr "a", VInt 5)]]) (VStr "a.b") (VStr ".")
      = Raise AttributeError)
  /\ (is_dict_type (VDict [(VStr "id", VList [VInt 1])]) = true
      /\ resolve ["id"] (VDict [(VStr "id", VList [VInt 1])])
         = Ok (VList [VInt 1])
      /\ truthy (VList [VInt 1]) = true
      /\ to_map (VList [VDict [(VStr "id", VList [VInt 1])]]) (VStr "id")
           (VStr ".")
         = Raise TypeError).
Proof. repeat split; reflexivity. Qed.

(** The separator must not be empty. *)
Example to_map_empty_separator :
  to_map (VList []) (VStr "id") (VStr EmptyString)
  = Raise (ValueError "empty separator").
Proof. reflexivity. Qed.

(** An item that is a mapping can be filed under a plain key when its value
    under that key, if truthy, can be hashed. *)
Lemma fileable_plain_key (k : string) (d : list (value * value)) :
  (forall v, dict_find (VStr k) d = Some v -> truthy v = true ->
             hashable v = true) ->
  fileable [k] (VDict d).
Proof.
  intros H. unfold fileable, resolve, reduce, path_step. cbn [map].
  destruct (truthy (VDict d)).
  - exists (match dict_find (VStr k) d with Some v => v | None => VNone end).
    split; [reflexivity|].
    destruct (dict_find (VStr k) d) as [v|]; [now apply H | discriminate].
  - exists VNone. split; [reflexivity | discriminate].
Qed.

(** *** [filter_by_key] *)

Lemma filter_result_total {A : Type} (pred : A -> result bool) (f : A -> bool)
    (xs : list A) :
  Forall (fun x => pred x = Ok (f x)) xs ->
  filter_result pred xs = Ok (List.filter f xs).
Proof.
  induction 1 as [|x xs Hx _ IH]; simpl; [reflexivity|].
  rewrite Hx, IH. simpl. now destruct (f x).
Qed.

Lemma filter_result_raises {A : Type} (pred : A -> result bool) (e : exn)
    (xs : list A) :
  Exists (fun x => pred x = Raise e) xs ->
  Forall (fun x => pred x = Raise e \/ exists b, pred x = Ok b) xs ->
  filter_result pred xs = Raise e.
Proof.
  induction 1 as [x xs Hx|x xs _ IH]; intros Hall; simpl.
  - now rewrite Hx.
  - apply Forall_cons in Hall as [[Hx|[b Hx]] Hall]; rewrite Hx; simpl;
      [reflexivity|].
    now rewrite (IH Hall).
Qed.

Lemma filter_result_sublist {A : Type} (p : A -> result bool) (xs ys : list A) :
  filter_result p xs = Ok ys ->
  ys `sublist_of` xs /\ Forall (fun x => p x = Ok true) ys.
Proof.
  revert ys. induction xs as [|x xs IH]; simpl; intros ys H.
  - injection H as <-. split; constructor.
  - apply bind_Ok in H as (b & Hb & H).
    apply bind_Ok in H as (zs & Hzs & H). injection H as <-.
    destruct (IH zs Hzs) as [Hs Hf].
    destruct b; split; try assumption.
    + now apply sublist_skip.
    + now constructor.
    + now apply sublist_cons.
Qed.

Ltac name_cases H :=
  repeat match type of H with
         | (if String.eqb ?op ?s then _ else _) = _ =>
             let E := fresh "E" in
             destruct (String.eqb op s) eqn:E;
             [apply String.eqb_eq in E; subst op | clear E]
         end;
  try discriminate H.

Section RuntimeFacts.

Variable py_order : binary_entry -> value -> value -> result bool.

Lemma predicate_unary (key : value) (op : string) (t : unary_entry) (val : value) :
  unary_ops op = Some t ->
  predicate py_order key op val
  = Some (fun x =>
            do c <- py_contains x key;
            if c then (do a <- py_get x key;
                       do r <- call_unary t a;
                       Ok (truthy r))
            else Ok false).
Proof.
  intros H. unfold unary_ops in H.
  name_cases H; injection H as <-; reflexivity.
Qed.


(** With [not] and [truth] the claim on the unary operators holds: the
    items returned are those that contain the key and whose value under it
    is falsy, respectively truthy. *)
Lemma filter_by_key_not_truth (xs : list value) (key : value) (op : string)
    (val : value) :
  hashable key = true ->
  Forall (fun x => is_dict_type x = true) xs ->
  (op = "not" ->
   filter_by_key py_order (VList xs) key op val
   = Ok (VList (List.filter (has_key_with (fun a => negb (truthy a)) key) xs)))
  /\ (op = "truth" ->
      filter_by_key py_order (VList xs) key op val
      = Ok (VList (List.filter (has_key_with truthy key) xs))).
Proof.
  intros Hkey Hdict.
  split; intros ->; unfold filter_by_key; simpl;
    (erewrite filter_result_total; [reflexivity|]);
    apply Forall_forall; intros x Hx;
    rewrite Forall_forall in Hdict; specialize (Hdict x Hx);
    (destruct x; simpl in Hdict; try discriminate);
    simpl; rewrite Hkey;
    (destruct (dict_find key kvs) as [a|]; simpl; [|reflexivity]);
    now destruct (truthy a).
Qed.

(** C3 (the code departs from it): with [is] or [is_not], [filter_by_key]
    raises [TypeError] as soon as an item contains the key, because
    [operator.is_] and [operator.is_not] are called with one argument; it
    returns no item where the claim lets it return those whose value passes
    the test. *)
Theorem filter_by_key_is_raises_TypeError :
  (forall xs key op val,
     op = "is" \/ op = "is_not" ->
     hashable key = true ->
     Forall (fun x => is_dict_type x = true) xs ->
     Exists (fun x => py_contains x key = Ok true) xs ->
     filter_by_key py_order (VList xs) key op val = Raise TypeError)
  /\ filter_by_key py_order (VList [VDict [(VStr "k", VNone)]]) (VStr "k") "is" VNone
     = Raise TypeError.
Proof.
  split; [|reflexivity].
  intros xs key op val Hop Hkey Hdict Hex.
  assert (Hpred : exists t, (t = op_is_ \/ t = op_is_not)
                            /\ unary_ops op = Some t).
  { destruct Hop as [-> | ->]; eexists; (split; [| reflexivity]); auto. }
  destruct Hpred as (t & Ht & Hu).
  unfold filter_by_key. rewrite (predicate_unary key op t val Hu). simpl.
  rewrite (filter_result_raises _ TypeError); [reflexivity | | ].
  - apply Exists_exists. apply Exists_exists in Hex as (x & Hx & Hc).
    exists x. split; [assumption|]. rewrite Hc. simpl.
    rewrite Forall_forall in Hdict. specialize (Hdict x Hx).
    destruct x; simpl in Hdict; try discriminate. simpl. rewrite Hkey. simpl.
    destruct Ht as [-> | ->]; reflexivity.
  - apply Forall_forall. intros x Hx.
    rewrite Forall_forall in Hdict. specialize (Hdict x Hx).
    destruct x; simpl in Hdict; try discriminate. simpl. rewrite Hkey.
    destruct (dict_find key kvs); simpl; [left | right; eauto].
    destruct Ht as [-> | ->]; reflexivity.
Qed.

End RuntimeFacts.

(** *** [filter_by_key] with an operator of [binary_ops] *)



Section BinaryFacts.

(** The ordering of the implementation on the pairs the language does not
    order. *)
Variable py_rest : binary_entry -> value -> value -> result bool.



End BinaryFacts.


Lemma filter_by_key_is_raises_TypeError_witness :
  filter_by_key scalar_order
    (VList [VDict []; VDict [(VStr "k", VInt 1)]]) (VStr "k") "is_not" VNone
  = Raise TypeError.
Proof.
  apply (proj1 (filter_by_key_is_raises_TypeError scalar_order)
           [VDict []; VDict [(VStr "k", VInt 1)]] (VStr "k") "is_not" VNone).
  - right. reflexivity.
  - reflexivity.
  - repeat constructor.
  - apply Exists_cons_tl, Exists_cons_hd. reflexivity.
Defined.

(** *** [map_keys] *)

Lemma no_assertion_bind {A B : Type} (m : result A) (k : A -> result B) :
  no_assertion m -> (forall a, no_assertion (k a)) -> no_assertion (bind m k).
Proof.
  intros Hm Hk msg. destruct m as [a|e]; simpl; [apply Hk|].
  intros [= ->]. now apply (Hm msg).
Qed.

Lemma no_assertion_reduce {A B : Type} (f : A -> B -> result A) (xs : list B) :
  (forall acc x, no_assertion (f acc x)) ->
  forall acc, no_assertion (reduce f xs acc).
Proof.
  intros Hf. induction xs as [|x xs IH]; intros acc; simpl.
  - discriminate.
  - apply no_assertion_bind; [apply Hf | apply IH].
Qed.

Lemma no_assertion_path_step (z k : value) : no_assertion (path_step z k).
Proof.
  unfold path_step, py_get. intros msg.
  destruct (truthy z); [|discriminate].
  destruct z; try discriminate. destruct (hashable k); discriminate.
Qed.

Lemma no_assertion_resolve (p : list string) (x : value) :
  no_assertion (resolve p x).
Proof. apply no_assertion_reduce, no_assertion_path_step. Qed.

Lemma no_assertion_split (s sep : value) : no_assertion (py_split s sep).
Proof.
  intros msg. destruct s; simpl; try discriminate.
  destruct sep as [| | |[|c sep]| | | |]; discriminate.
Qed.

Lemma no_assertion_setitem (res : list (value * value)) (k v : value) :
  no_assertion (py_setitem res k v).
Proof. intros msg. unfold py_setitem. destruct (hashable k); discriminate. Qed.

Lemma no_assertion_get (d k : value) : no_assertion (py_get d k).
Proof.
  intros msg. destruct d; simpl; try discriminate.
  destruct (hashable k); discriminate.
Qed.

Lemma no_assertion_comprehension {A : Type} (key : A -> value)
    (e : A -> result value) (xs : list A) :
  (forall x, no_assertion (e x)) -> no_assertion (dict_comprehension key e xs).
Proof.
  intros He. apply no_assertion_reduce. intros acc x.
  apply no_assertion_bind; [apply He | intros; apply no_assertion_setitem].
Qed.

Section MapKeysFacts.

Variable str_format : string -> list value -> result string.
Variable json_loads : value -> result value.
Hypothesis str_format_no_assertion : forall f args, no_assertion (str_format f args).
Hypothesis json_loads_no_assertion : forall v, no_assertion (json_loads v).

Lemma no_assertion_format (fmt : value) (args : list value) :
  no_assertion (py_format str_format fmt args).
Proof using str_format_no_assertion.
  destruct fmt; simpl; try discriminate.
  apply no_assertion_bind; [apply str_format_no_assertion | discriminate].
Qed.

(** C4, as the code has it: [map_keys] raises the assertion error
    ['Expected an iterable of keys'] exactly when [keys] is neither equal to
    ["*"] nor a [list] nor a [set]; with ["*"], a list or a set the call
    never ends in an assertion error (the interpreter's [str.format] and
    [json.loads] raise none). *)
Theorem map_keys_asserts_list_or_set
    (d keys source_path path_delimiter decode_json : value) :
  (keys_accepted keys = false ->
   map_keys str_format json_loads d keys source_path path_delimiter decode_json
   = Raise (AssertionError "Expected an iterable of keys"))
  /\ (keys_accepted keys = true ->
      no_assertion
        (map_keys str_format json_loads d keys source_path path_delimiter
           decode_json)).
Proof using str_format_no_assertion json_loads_no_assertion.
  unfold keys_accepted, map_keys. split; intros Hk.
  - apply orb_false_elim in Hk as [-> Hk].
    destruct keys; try discriminate; reflexivity.
  - apply no_assertion_bind.
    + destruct (py_eq keys (VStr "*")).
      * destruct d; discriminate.
      * destruct keys; try discriminate.
    + intros ks. apply no_assertion_bind.
      * destruct source_path;
          try (apply no_assertion_comprehension; intros; apply no_assertion_get).
        apply no_assertion_comprehension. intros k.
        apply no_assertion_bind; [apply no_assertion_format|].
        intros text. apply no_assertion_bind; [apply no_assertion_split|].
        intros p. apply no_assertion_resolve.
      * intros res. destruct (truthy decode_json); [|discriminate].
        apply no_assertion_bind; [|discriminate].
        apply no_assertion_comprehension. intros kv.
        apply json_loads_no_assertion.
Qed.

End MapKeysFacts.

Lemma format_indexed_no_assertion (f : string) (args : list value) :
  no_assertion (format_indexed f args).
Proof.
  remember (String.length f) as n eqn:Hn.
  revert f Hn. induction n as [n IH] using lt_wf_ind. intros f Hn msg.
  assert (Hrec : forall f', String.length f' < String.length f ->
                            no_assertion (format_indexed f' args)).
  { intros f' Hlt. apply (IH (String.length f')); [lia | reflexivity]. }
  clear IH Hn.
  destruct f as [|c f]; [discriminate|].
  destruct c as [[] [] [] [] [] [] [] []];
    try (simpl; apply no_assertion_bind;
         [apply Hrec; simpl; lia | discriminate]).
  - destruct f as [|c' f]; [discriminate|].
    assert (Hfield :
              no_assertion
                (match f with
                 | String "}" f' =>
                     if Nat.leb 48 (nat_of_ascii c') && Nat.leb (nat_of_ascii c') 57
                     then match nth_error args (nat_of_ascii c' - 48) with
                          | Some v => do r <- format_indexed f' args;
                                      Ok (py_str v +:+ r)
                          | None => Raise IndexError
                          end
                     else Raise (ValueError "unsupported replacement field")
                 | _ => Raise (ValueError "unsupported replacement field")
                 end)).
    { destruct f as [|c'' f]; [discriminate|].
      destruct c'' as [[] [] [] [] [] [] [] []]; try discriminate.
      destruct (_ && _); [|discriminate].
      destruct (nth_error _ _); [|discriminate].
      apply no_assertion_bind; [apply Hrec; simpl; lia | discriminate]. }
    destruct c' as [[] [] [] [] [] [] [] []];
      try exact (Hfield msg).
    simpl. apply no_assertion_bind; [apply Hrec; simpl; lia | discriminate].
  - destruct f as [|c' f]; [discriminate|].
    destruct c' as [[] [] [] [] [] [] [] []];
      try discriminate;
      try (simpl; apply no_assertion_bind;
           [apply Hrec; simpl; lia | discriminate]).
Qed.

Lemma json_refuse_no_assertion (v : value) : no_assertion (json_refuse v).
Proof. intros msg. destruct v; discriminate. Qed.

Lemma map_keys_asserts_list_or_set_witness :
  map_keys format_indexed json_refuse
    (VDict [(VStr "a", VInt 1)]) (VInt 3) VNone (VStr ".") (VBool false)
  = Raise (AssertionError "Expected an iterable of keys")
  /\ no_assertion
       (map_keys format_indexed json_refuse
          (VDict [(VStr "a", VInt 1)]) (VSet [VStr "a"]) (VStr "x-{0}")
          (VStr ".") (VBool true)).
Proof.
  split.
  - apply (map_keys_asserts_list_or_set format_indexed json_refuse
             format_indexed_no_assertion json_refuse_no_assertion
             (VDict [(VStr "a", VInt 1)]) (VInt 3) VNone (VStr ".") (VBool false)).
    reflexivity.
  - apply (map_keys_asserts_list_or_set format_indexed json_refuse
             format_indexed_no_assertion json_refuse_no_assertion
             (VDict [(VStr "a", VInt 1)]) (VSet [VStr "a"]) (VStr "x-{0}")
             (VStr ".") (VBool true)).
    reflexivity.
Defined.

(** C4 as the specification states it fails: a tuple of keys is an iterable
    collection of key identifiers, and [map_keys] rejects it with the error
    the claim reserves for arguments that are not iterable. *)
Lemma map_keys_rejects_tuple_of_keys :
  map_keys format_indexed json_refuse
    (VDict [(VStr "a", VInt 1); (VStr "b", VInt 2)])
    (VTuple [VStr "a"; VStr "b"]) VNone (VStr ".") (VBool false)
  = Raise (AssertionError "Expected an iterable of keys")
  /\ py_iter (VTuple [VStr "a"; VStr "b"]) = Ok [VStr "a"; VStr "b"]
  /\ forallb hashable [VStr "a"; VStr "b"] = true.
Proof. repeat split; reflexivity. Qed.

Example map_keys_star :
  map_keys format_indexed json_refuse
    (VDict [(VStr "a", VInt 1); (VStr "b", VInt 2)]) (VStr "*") VNone (VStr ".")
    (VBool false)
  = Ok (VDict [(VStr "a", VInt 1); (VStr "b", VInt 2)]).
Proof. reflexivity. Qed.

Example map_keys_source_path :
  map_keys format_indexed json_refuse
    (VDict [(VStr "pkg-aa", VDict [(VStr "version", VInt 2)]);
            (VStr "pkg-bb", VDict [])])
    (VList [VStr "aa"; VStr "bb"; VStr "cc"]) (VStr "pkg-{0}.version") (VStr ".")
    (VBool false)
  = Ok (VDict [(VStr "aa", VInt 2); (VStr "bb", VNone); (VStr "cc", VNone)]).
Proof. reflexivity. Qed.

Example one_5 : one (VList [VInt 5]) = Ok (VInt 5).
Proof. reflexivity. Qed.

Example flatten_nested :
  flatten_list
    (VList [VList [VInt 1; VList [VInt 2; VInt 3]]; VList []; VList [VInt 4]])
  = Ok (VList [VInt 1; VInt 2; VInt 3; VInt 4]).
Proof. reflexivity. Qed.

Example repr_demo :
  py_repr (VDict [(VStr "a'b", VTuple [VInt (-12)]); (VNone, VSet [VBool true; VInt 0])])
  = String "{" (String dquote ("a'b" +:+ String dquote ": (-12,), None: set([True, 0])}")).
Proof. reflexivity. Qed.

Example split_demo :
  split_on "." 0 EmptyString "a..b.c" = ["a"; EmptyString; "b"; "c"]
  /\ split_on "ab" 0 EmptyString "xabyab" = ["x"; "y"; EmptyString]
  /\ split_words EmptyString "  a b  c " = ["a"; "b"; "c"].
Proof. repeat split; reflexivity. Qed.

(** ** Further properties of the value-level model *)

(** *** [_flatten_list] and [flatten_list] *)

(** X1: [_flatten_list(pres, y)] keeps what was accumulated: the result is
    [pres] followed by what flattening [y] into an empty list gives, and
    nothing it adds is a list, a set or a tuple. *)
Theorem _flatten_list_extends_accumulator (pres : list value) (y : value) :
  _flatten_list pres y = pres ++ _flatten_list [] y
  /\ Forall (fun w => is_list_type w = false) (_flatten_list [] y)
  /\ length (_flatten_list pres y) = length pres + length (leaves y).
Proof.
  rewrite (_flatten_list_leaves y pres), (_flatten_list_leaves y []).
  simpl. repeat split.
  - apply leaves_not_list_type.
  - now rewrite length_app.
Qed.

(** X2: [flatten_list] is idempotent on every argument it accepts, flat or
    not: flattening its result gives the result again. *)
Theorem flatten_list_idempotent (l r : value) :
  flatten_list l = Ok r -> flatten_list r = Ok r.
Proof.
  unfold flatten_list at 1. intros H.
  apply bind_Ok in H as (xs & Hxs & H). injection H as <-.
  rewrite fold_flatten_leaves
    by (apply Forall_forall; intros; apply _flatten_list_leaves).
  simpl. rewrite (flatten_list_iter (VList _) _ eq_refl).
  rewrite flat_map_leaves_flat; [reflexivity|].
  clear Hxs. induction xs as [|x xs IH]; simpl; [constructor|].
  apply Forall_app. split; [apply leaves_not_list_type | exact IH].
Qed.

Lemma flatten_list_idempotent_witness :
  flatten_list (VList [VInt 1; VInt 2; VStr "ab"; VInt 3])
  = Ok (VList [VInt 1; VInt 2; VStr "ab"; VInt 3]).
Proof.
  apply (flatten_list_idempotent
           (VTuple [VList [VInt 1; VSet [VInt 2]]; VStr "ab"; VTuple [VInt 3]])).
  reflexivity.
Defined.

(** X3: flattening a concatenation gives the concatenation of the flattened
    parts, and wrapping the parts in a list and a tuple changes nothing. *)
Theorem flatten_list_concatenation (xs ys : list value) :
  exists fx fy,
    flatten_list (VList xs) = Ok (VList fx)
    /\ flatten_list (VList ys) = Ok (VList fy)
    /\ flatten_list (VList (xs ++ ys)) = Ok (VList (fx ++ fy))
    /\ flatten_list (VList [VList xs; VTuple ys]) = Ok (VList (fx ++ fy)).
Proof.
  exists (flat_map leaves xs), (flat_map leaves ys).
  rewrite !(flatten_list_iter (VList _) _ eq_refl).
  repeat split.
  - now rewrite flat_map_app.
  - simpl. now rewrite app_nil_r.
Qed.

(** X4: [flatten_list] raises (a [TypeError]) exactly on [None], a [bool]
    and an [int]; on every other argument it returns a list without lists,
    sets or tuples.  A string argument is taken apart into its characters,
    a string inside the argument is a leaf; of a mapping the keys are
    flattened. *)
Theorem flatten_list_accepts_iterables :
  (forall l,
     match l with
     | VNone | VBool _ | VInt _ => flatten_list l = Raise TypeError
     | _ => exists ys, flatten_list l = Ok (VList ys)
                       /\ Forall (fun w => is_list_type w = false) ys
     end)
  /\ (forall s, flatten_list (VStr s) = Ok (VList (chars s)))
  /\ (forall s pre post,
        flatten_list (VList (pre ++ VStr s :: post))
        = Ok (VList (flat_map leaves pre ++ VStr s :: flat_map leaves post)))
  /\ (forall d, flatten_list (VDict d)
                = Ok (VList (flat_map leaves (map fst d)))).
Proof.
  assert (Hflat : forall xs,
             Forall (fun w => is_list_type w = false) (flat_map leaves xs)).
  { induction xs as [|x xs IH]; simpl; [constructor|].
    apply Forall_app. split; [apply leaves_not_list_type | exact IH]. }
  repeat split.
  - intros l. destruct l; try reflexivity;
      eexists; (split; [now apply flatten_list_iter | apply Hflat]).
  - intros s. rewrite (flatten_list_iter (VStr s) _ eq_refl). f_equal. f_equal.
    apply flat_map_leaves_flat. unfold chars.
    apply Forall_forall. intros w Hw. apply list_elem_of_In in Hw.
    apply in_map_iff in Hw as (c & <- & _). reflexivity.
  - intros s pre post. rewrite (flatten_list_iter (VList _) _ eq_refl).
    now rewrite flat_map_app.
  - intros d. now apply flatten_list_iter.
Qed.

(** *** [one] *)

(** X5: [one] returns only for an object of length one, and then its
    element at index 0; it never returns for a set, which has no index, and
    for a mapping it returns the value under a key equal to [0] only. *)
Theorem one_returns_only_for_length_one :
  (forall l x, one l = Ok x -> py_len l = Ok 1 /\ py_getitem0 l = Ok x)
  /\ (forall xs, exists e, one (VSet xs) = Raise e)
  /\ (forall d x, one (VDict d) = Ok x ->
                  length d = 1 /\ dict_find (VInt 0) d = Some x).
Proof.
  assert (H1 : forall l x, one l = Ok x ->
                           py_len l = Ok 1 /\ py_getitem0 l = Ok x).
  { intros l x H. unfold one in H.
    apply bind_Ok in H as (n & Hn & H).
    destruct n as [|[|n]]; simpl in H; try discriminate. now split. }
  split; [exact H1 | split].
  - intros xs. destruct xs as [|x [|y xs]]; eexists; reflexivity.
  - intros d x H. destruct (H1 _ _ H) as [Hl Hg]. simpl in Hl, Hg. split.
    + now injection Hl.
    + destruct (dict_find (VInt 0) d); [now injection Hg as -> | discriminate].
Qed.

(** *** Key paths *)

Lemma path_step_raises (z k : value) (e : exn) :
  hashable k = true ->
  path_step z k = Raise e ->
  e = AttributeError /\ truthy z = true /\ is_dict_type z = false.
Proof.
  unfold path_step. intros Hk H.
  destruct (truthy z); [|discriminate].
  destruct z; simpl in H; try (injection H as <-; now repeat split).
  rewrite Hk in H. discriminate.
Qed.

(** X6: the resolution of a key path fails in one way only, with an
    [AttributeError], and exactly when it reaches, before the end of the
    path, a truthy value that is not a mapping; and resolving a path goes on
    from where a prefix of it arrived. *)
Theorem resolve_fails_on_truthy_non_mapping :
  (forall p x e, resolve p x = Raise e -> e = AttributeError)
  /\ (forall p x,
        resolve p x = Raise AttributeError <->
        exists p1 k p2 z,
          p = p1 ++ k :: p2 /\ resolve p1 x = Ok z
          /\ truthy z = true /\ is_dict_type z = false)
  /\ (forall p1 p2 x z,
        resolve p1 x = Ok z -> resolve (p1 ++ p2) x = resolve p2 z).
Proof.
  assert (Hfwd : forall p x e,
             resolve p x = Raise e ->
             e = AttributeError
             /\ exists p1 k p2 z,
                 p = p1 ++ k :: p2 /\ resolve p1 x = Ok z
                 /\ truthy z = true /\ is_dict_type z = false).
  { induction p as [|k p IH]; intros x e H; [discriminate|].
    unfold resolve in H. simpl in H.
    destruct (path_step x (VStr k)) as [z|e'] eqn:E; simpl in H.
    - destruct (IH z e H) as (-> & p1 & k' & p2 & z' & -> & Hr & Ht & Hd).
      split; [reflexivity|].
      exists (k :: p1), k', p2, z'. repeat split; try assumption.
      unfold resolve. simpl. now rewrite E.
    - injection H as <-.
      destruct (path_step_raises x (VStr k) e' eq_refl E) as (-> & Ht & Hd).
      split; [reflexivity|]. now exists [], k, p, x. }
  split; [|split].
  - intros p x e H. now destruct (Hfwd p x e H).
  - intros p x. split.
    + intros H. now destruct (Hfwd p x _ H).
    + intros (p1 & k & p2 & z & -> & Hr & Ht & Hd).
      rewrite resolve_app, Hr. simpl. unfold resolve. simpl.
      unfold path_step at 1. rewrite Ht.
      destruct z; simpl in Hd; try discriminate; reflexivity.
  - intros p1 p2 x z Hr. now rewrite resolve_app, Hr.
Qed.

(** *** [filter_by_key], every operator *)

Lemma filter_result_again {A : Type} (p : A -> result bool) (xs ys : list A) :
  filter_result p xs = Ok ys -> filter_result p ys = Ok ys.
Proof.
  intros H. apply filter_result_sublist in H as [_ H].
  induction H as [|y ys Hy _ IH]; simpl; [reflexivity|].
  now rewrite Hy, IH.
Qed.

Lemma filter_result_after {A : Type} (p q : A -> result bool) (xs ys : list A) :
  (forall x, q x = Ok false -> p x = Ok false) ->
  filter_result q xs = Ok ys ->
  filter_result p ys = filter_result p xs.
Proof.
  intros Hqp. revert ys. induction xs as [|x xs IH]; simpl; intros ys H.
  - now injection H as <-.
  - apply bind_Ok in H as (b & Hb & H).
    apply bind_Ok in H as (zs & Hzs & H). injection H as <-.
    destruct b.
    + simpl. now rewrite (IH zs Hzs).
    + rewrite (Hqp x Hb). simpl. rewrite (IH zs Hzs).
      now destruct (filter_result p xs).
Qed.

Lemma filter_split_length {A : Type} (f g h : A -> bool) (xs : list A) :
  (forall x, f x = g x || h x) -> (forall x, g x && h x = false) ->
  length (List.filter f xs)
  = length (List.filter g xs) + length (List.filter h xs).
Proof.
  intros Hf Hgh. induction xs as [|x xs IH]; simpl; [reflexivity|].
  rewrite (Hf x). specialize (Hgh x).
  destruct (g x), (h x); simpl in *; try discriminate; lia.
Qed.

Section FilterFacts.

Variable py_order : binary_entry -> value -> value -> result bool.

(** Whatever the operator, the predicate holds of an item only if the item
    contains the key, and fails quietly on an item that does not. *)
Lemma predicate_needs_key (key : value) (op : string) (val : value)
    (pred : value -> result bool) :
  predicate py_order key op val = Some pred ->
  forall x,
    (pred x = Ok true -> py_contains x key = Ok true)
    /\ (py_contains x key = Ok false -> pred x = Ok false).
Proof.
  unfold predicate. intros H x.
  destruct (String.eqb op "exists"); [injection H as <-; split; congruence|].
  destruct (unary_ops op) as [t|].
  { injection H as <-. split.
    - destruct (py_contains x key) as [[|]|]; simpl; congruence.
    - now intros ->. }
  destruct (binary_ops op) as [t|]; [|discriminate].
  injection H as <-. split.
  - destruct (py_contains x key) as [[|]|]; simpl; congruence.
  - now intros ->.
Qed.

(** The two shapes of argument for which [filter] keeps the shape. *)
Lemma py_filter_sequence (pred : value -> result bool) (l r : value)
    (xs : list value) :
  l = VList xs \/ l = VTuple xs ->
  py_filter pred l = Ok r ->
  exists ys, filter_result pred xs = Ok ys
             /\ (l = VList xs /\ r = VList ys \/ l = VTuple xs /\ r = VTuple ys).
Proof.
  intros [-> | ->] H; simpl in H;
    apply bind_Ok in H as (ys & Hys & H); injection H as <-; eauto.
Qed.

(** X7: whatever the operator, what [filter_by_key] returns for a list is a
    list of items of the argument, in their order, each of which contains
    the key: no operator returns an item without the key. *)
Theorem filter_by_key_selects_among_items
    (xs : list value) (key : value) (op : string) (val r : value) :
  filter_by_key py_order (VList xs) key op val = Ok r ->
  exists ys, r = VList ys /\ ys `sublist_of` xs
             /\ Forall (fun x => py_contains x key = Ok true) ys.
Proof.
  unfold filter_by_key. intros H.
  destruct (predicate py_order key op val) as [pred|] eqn:E; [|discriminate].
  simpl in H. apply bind_Ok in H as (ys & Hys & H). injection H as <-.
  exists ys. destruct (filter_result_sublist _ _ _ Hys) as [Hs Hf].
  repeat split; [assumption|].
  eapply Forall_impl; [exact Hf|].
  intros x Hx. now apply (predicate_needs_key key op val pred E x).
Qed.

(** X8: [filter_by_key] is idempotent, and filtering for the presence of
    the key first changes nothing: on the result of
    [filter_by_key(l, key)] any operator gives what it gives on [l],
    exception included. *)
Theorem filter_by_key_again
    (l : value) (xs : list value) (key : value) (op : string) (val : value) :
  l = VList xs \/ l = VTuple xs ->
  (forall r, filter_by_key py_order l key op val = Ok r ->
             filter_by_key py_order r key op val = Ok r)
  /\ (forall val' r,
        filter_by_key py_order l key "exists" val' = Ok r ->
        filter_by_key py_order r key op val
        = filter_by_key py_order l key op val).
Proof.
  intros Hl. split.
  - unfold filter_by_key.
    destruct (predicate py_order key op val) as [pred|]; [|discriminate].
    intros r H.
    destruct (py_filter_sequence pred l r xs Hl H)
      as (ys & Hys & [[-> ->] | [-> ->]]);
      simpl; now rewrite (filter_result_again _ _ _ Hys).
  - intros val' r H. unfold filter_by_key in *.
    change (predicate py_order key "exists" val')
      with (Some (fun x => py_contains x key)) in H.
    destruct (predicate py_order key op val) as [pred|] eqn:E; [|reflexivity].
    destruct (py_filter_sequence _ l r xs Hl H)
      as (ys & Hys & [[-> ->] | [-> ->]]);
      simpl;
      rewrite (filter_result_after pred _ xs ys
                 (fun x => proj2 (predicate_needs_key key op val pred E x)) Hys);
      reflexivity.
Qed.

Lemma py_contains_container (key x : value) :
  hashable key = true -> (forall s, x <> VStr s) ->
  py_contains x key
  = if is_container x then Ok (contains_key key x) else Raise TypeError.
Proof.
  intros Hkey Hx. destruct x; simpl; rewrite ?Hkey; try reflexivity.
  now destruct (Hx s).
Qed.

(** X9: with ['exists'] the items may be any containers: the call returns
    those that contain the key, a mapping by its keys, a list, a tuple or a
    set by its elements; an item that is [None], a [bool] or an [int] makes
    the call raise a [TypeError]. *)
Theorem filter_by_key_exists (xs : list value) (key val : value) :
  hashable key = true ->
  Forall (fun x => forall s, x <> VStr s) xs ->
  filter_by_key py_order (VList xs) key "exists" val
  = if forallb is_container xs
    then Ok (VList (List.filter (contains_key key) xs))
    else Raise TypeError.
Proof.
  intros Hkey Hxs. unfold filter_by_key.
  change (predicate py_order key "exists" val)
    with (Some (fun x => py_contains x key)).
  simpl. induction Hxs as [|x xs Hx _ IH]; [reflexivity|].
  simpl. rewrite (py_contains_container key x Hkey Hx).
  destruct (is_container x); simpl; [|reflexivity].
  destruct (forallb is_container xs);
    destruct (filter_result (fun x => py_contains x key) xs) as [ys|e];
    simpl in IH; try discriminate.
  - injection IH as ->. simpl. now destruct (contains_key key x).
  - injection IH as ->. reflexivity.
Qed.

(** X10: an operator other than ['exists'] reads the value with [get]: on
    items that are lists, tuples or sets, as soon as one of them contains
    the key, the call raises an [AttributeError]. *)
Theorem filter_by_key_operators_need_mappings
    (xs : list value) (key : value) (op : string) (val : value) :
  In op operator_names -> op <> "exists" ->
  hashable key = true ->
  Forall (fun x => is_list_type x = true) xs ->
  Exists (fun x => contains_key key x = true) xs ->
  filter_by_key py_order (VList xs) key op val = Raise AttributeError.
Proof.
  intros Hop Hne Hkey Hxs Hex.
  assert (Hpred : exists pred,
             predicate py_order key op val = Some pred
             /\ forall x, is_list_type x = true ->
                          pred x = if contains_key key x
                                   then Raise AttributeError else Ok false).
  { simpl in Hop.
    repeat (destruct Hop as [<- | Hop]; [try congruence|]); try contradiction;
      (eexists; split; [reflexivity|]);
      intros x Hx; destruct x; simpl in Hx; try discriminate; simpl;
      rewrite ?Hkey; simpl;
      match goal with
      | |- context [existsb ?f ?l] => now destruct (existsb f l)
      end. }
  destruct Hpred as (pred & Hp & Hpx).
  unfold filter_by_key. rewrite Hp. simpl.
  rewrite (filter_result_raises pred AttributeError); [reflexivity | | ].
  - apply Exists_exists. apply Exists_exists in Hex as (x & Hin & Hc).
    exists x. split; [assumption|].
    rewrite Hpx, Hc; [reflexivity|].
    rewrite Forall_forall in Hxs. now apply Hxs.
  - apply Forall_forall. intros x Hin.
    rewrite Forall_forall in Hxs. rewrite (Hpx x (Hxs x Hin)).
    destruct (contains_key key x); eauto.
Qed.

(** X11: an operator name outside ['exists'] and the two tables is refused
    with [ValueError('Unknown operator: ...')] before the items are looked
    at, so also when [l] is not iterable; every other name yields a
    predicate. *)
Theorem filter_by_key_unknown_operator
    (l key : value) (op : string) (val : value) :
  (~ In op operator_names ->
   filter_by_key py_order l key op val
   = Raise (ValueError ("Unknown operator: " +:+ op)))
  /\ (In op operator_names ->
      exists pred, predicate py_order key op val = Some pred).
Proof.
  split.
  - intros H. unfold filter_by_key, predicate, unary_ops, binary_ops.
    repeat match goal with
           | |- context [String.eqb op ?s] =>
               destruct (String.eqb_spec op s) as [->|_];
               [exfalso; apply H; simpl; tauto|]
           end.
    reflexivity.
  - simpl. intros H.
    repeat (destruct H as [<- | H]; [eexists; reflexivity|]). contradiction.
Qed.

Lemma filter_by_key_eq_ne (xs : list value) (key val : value) :
  hashable key = true ->
  Forall (fun x => is_dict_type x = true) xs ->
  filter_by_key py_order (VList xs) key "eq" val
  = Ok (VList (List.filter (has_key_with (fun a => py_eq a val) key) xs))
  /\ filter_by_key py_order (VList xs) key "ne" val
     = Ok (VList (List.filter (has_key_with (fun a => negb (py_eq a val)) key)
                    xs)).
Proof.
  intros Hkey Hdict.
  split; unfold filter_by_key; simpl;
    (erewrite filter_result_total; [reflexivity|]);
    apply Forall_forall; intros x Hx;
    rewrite Forall_forall in Hdict; specialize (Hdict x Hx);
    (destruct x; simpl in Hdict; try discriminate);
    simpl; rewrite Hkey;
    (destruct (dict_find key kvs) as [a|]; simpl; [|reflexivity]);
    now destruct (py_eq a val).
Qed.

(** X12: on mappings, [truth] and [not] split the items that have the key,
    and so do [eq] and [ne]: an item with the key is returned by exactly
    one operator of each pair, and the sizes add up to the size of the
    result of ['exists']. *)
Theorem filter_by_key_complementary_operators
    (xs : list value) (key val : value) :
  hashable key = true ->
  Forall (fun x => is_dict_type x = true) xs ->
  exists ex tr nt eq ne,
    filter_by_key py_order (VList xs) key "exists" val = Ok (VList ex)
    /\ filter_by_key py_order (VList xs) key "truth" val = Ok (VList tr)
    /\ filter_by_key py_order (VList xs) key "not" val = Ok (VList nt)
    /\ filter_by_key py_order (VList xs) key "eq" val = Ok (VList eq)
    /\ filter_by_key py_order (VList xs) key "ne" val = Ok (VList ne)
    /\ length ex = length tr + length nt
    /\ length ex = length eq + length ne
    /\ (forall x, In x ex <-> In x tr \/ In x nt)
    /\ (forall x, In x ex <-> In x eq \/ In x ne)
    /\ (forall x, In x tr -> ~ In x nt)
    /\ (forall x, In x eq -> ~ In x ne).
Proof.
  intros Hkey Hdict.
  destruct (filter_by_key_not_truth py_order xs key "not" val Hkey Hdict)
    as [Hnt _].
  destruct (filter_by_key_not_truth py_order xs key "truth" val Hkey Hdict)
    as [_ Htr].
  destruct (filter_by_key_eq_ne xs key val Hkey Hdict) as [Heq Hne].
  assert (Hex : filter_by_key py_order (VList xs) key "exists" val
                = Ok (VList (List.filter (has_key_with (fun _ => true) key) xs))).
  { unfold filter_by_key. simpl.
    erewrite filter_result_total; [reflexivity|].
    apply Forall_forall. intros x Hx.
    rewrite Forall_forall in Hdict. specialize (Hdict x Hx).
    destruct x; simpl in Hdict; try discriminate.
    simpl. rewrite Hkey. now destruct (dict_find key kvs). }
  do 5 eexists.
  split; [exact Hex|]. split; [now apply Htr|]. split; [now apply Hnt|].
  split; [exact Heq|]. split; [exact Hne|].
  assert (Hsplit : forall g : value -> bool, forall x,
             has_key_with (fun _ => true) key x
             = has_key_with g key x || has_key_with (fun a => negb (g a)) key x).
  { intros g x. destruct x; try reflexivity. simpl.
    destruct (dict_find key kvs) as [a|]; [|reflexivity]. now destruct (g a). }
  assert (Hexcl : forall g : value -> bool, forall x,
             has_key_with g key x && has_key_with (fun a => negb (g a)) key x
             = false).
  { intros g x. destruct x; try reflexivity. simpl.
    destruct (dict_find key kvs) as [a|]; [|reflexivity]. now destruct (g a). }
  assert (Hin : forall g : value -> bool, forall x,
             In x (List.filter (has_key_with (fun _ => true) key) xs) <->
             In x (List.filter (has_key_with g key) xs)
             \/ In x (List.filter (has_key_with (fun a => negb (g a)) key) xs)).
  { intros g x. rewrite !filter_In, (Hsplit g x), orb_true_iff. tauto. }
  assert (Hnot : forall g : value -> bool, forall x,
             In x (List.filter (has_key_with g key) xs) ->
             ~ In x (List.filter (has_key_with (fun a => negb (g a)) key) xs)).
  { intros g x. rewrite !filter_In. intros [_ H1] [_ H2].
    specialize (Hexcl g x). now rewrite H1, H2 in Hexcl. }
  repeat split.
  - now apply filter_split_length.
  - now apply filter_split_length.
  - now apply (Hin truthy).
  - now apply (Hin truthy).
  - now apply (Hin (fun a => py_eq a val)).
  - now apply (Hin (fun a => py_eq a val)).
  - apply (Hnot truthy).
  - apply (Hnot (fun a => py_eq a val)).
Qed.

End FilterFacts.

Lemma filter_by_key_selects_among_items_witness :
  exists ys,
    VList [VDict [(VStr "k", VInt 2)]] = VList ys
    /\ ys `sublist_of` [VDict [(VStr "k", VInt 0)]; VDict [];
                        VDict [(VStr "k", VInt 2)]]
    /\ Forall (fun x => py_contains x (VStr "k") = Ok true) ys.
Proof.
  apply (filter_by_key_selects_among_items scalar_order
           [VDict [(VStr "k", VInt 0)]; VDict []; VDict [(VStr "k", VInt 2)]]
           (VStr "k") "ge" (VInt 1)).
  reflexivity.
Defined.

Lemma filter_by_key_again_witness :
  filter_by_key scalar_order (VTuple [VDict [(VStr "k", VInt 2)]]) (VStr "k")
    "truth" VNone
  = Ok (VTuple [VDict [(VStr "k", VInt 2)]])
  /\ filter_by_key scalar_order
       (VTuple [VDict [(VStr "k", VInt 0)]; VDict [(VStr "k", VInt 2)]])
       (VStr "k") "lt" (VInt 1)
     = filter_by_key scalar_order
         (VTuple [VDict [(VStr "k", VInt 0)]; VDict [];
                  VDict [(VStr "k", VInt 2)]])
         (VStr "k") "lt" (VInt 1).
Proof.
  split.
  - apply (proj1 (filter_by_key_again scalar_order
                    (VTuple [VDict [(VStr "k", VInt 0)]; VDict [];
                             VDict [(VStr "k", VInt 2)]])
                    _ (VStr "k") "truth" VNone (or_intror eq_refl))).
    reflexivity.
  - apply (proj2 (filter_by_key_again scalar_order
                    (VTuple [VDict [(VStr "k", VInt 0)]; VDict [];
                             VDict [(VStr "k", VInt 2)]])
                    _ (VStr "k") "lt" (VInt 1) (or_intror eq_refl)) VNone).
    reflexivity.
Defined.

Lemma filter_by_key_exists_witness :
  filter_by_key scalar_order
    (VList [VList [VInt 1; VInt 2]; VDict [(VInt 3, VNone)];
            VSet [VInt 3; VInt 1]; VTuple []])
    (VInt 1) "exists" VNone
  = Ok (VList [VList [VInt 1; VInt 2]; VSet [VInt 3; VInt 1]])
  /\ filter_by_key scalar_order (VList [VDict []; VNone]) (VInt 1) "exists" VNone
     = Raise TypeError.
Proof.
  split.
  - apply (filter_by_key_exists scalar_order
             [VList [VInt 1; VInt 2]; VDict [(VInt 3, VNone)];
              VSet [VInt 3; VInt 1]; VTuple []] (VInt 1) VNone eq_refl).
    repeat constructor; discriminate.
  - apply (filter_by_key_exists scalar_order [VDict []; VNone] (VInt 1) VNone
             eq_refl).
    repeat constructor; discriminate.
Defined.

Lemma filter_by_key_operators_need_mappings_witness :
  filter_by_key scalar_order (VList [VList []; VTuple [VStr "k"]]) (VStr "k")
    "eq" (VInt 1)
  = Raise AttributeError.
Proof.
  apply (filter_by_key_operators_need_mappings scalar_order
           [VList []; VTuple [VStr "k"]] (VStr "k") "eq" (VInt 1)).
  - simpl. tauto.
  - discriminate.
  - reflexivity.
  - repeat constructor.
  - apply Exists_cons_tl, Exists_cons_hd. reflexivity.
Defined.

Lemma filter_by_key_complementary_operators_witness :
  exists ex tr nt eq ne,
    filter_by_key scalar_order
      (VList [VDict [(VStr "k", VInt 0)]; VDict []; VDict [(VStr "k", VInt 2)]])
      (VStr "k") "exists" (VInt 2) = Ok (VList ex)
    /\ filter_by_key scalar_order
         (VList [VDict [(VStr "k", VInt 0)]; VDict [];
                 VDict [(VStr "k", VInt 2)]])
         (VStr "k") "truth" (VInt 2) = Ok (VList tr)
    /\ filter_by_key scalar_order
         (VList [VDict [(VStr "k", VInt 0)]; VDict [];
                 VDict [(VStr "k", VInt 2)]])
         (VStr "k") "not" (VInt 2) = Ok (VList nt)
    /\ filter_by_key scalar_order
         (VList [VDict [(VStr "k", VInt 0)]; VDict [];
                 VDict [(VStr "k", VInt 2)]])
         (VStr "k") "eq" (VInt 2) = Ok (VList eq)
    /\ filter_by_key scalar_order
         (VList [VDict [(VStr "k", VInt 0)]; VDict [];
                 VDict [(VStr "k", VInt 2)]])
         (VStr "k") "ne" (VInt 2) = Ok (VList ne)
    /\ length ex = length tr + length nt
    /\ length ex = length eq + length ne
    /\ (forall x, In x ex <-> In x tr \/ In x nt)
    /\ (forall x, In x ex <-> In x eq \/ In x ne)
    /\ (forall x, In x tr -> ~ In x nt)
    /\ (forall x, In x eq -> ~ In x ne).
Proof.
  apply (filter_by_key_complementary_operators scalar_order
           [VDict [(VStr "k", VInt 0)]; VDict []; VDict [(VStr "k", VInt 2)]]
           (VStr "k") (VInt 2)).
  - reflexivity.
  - repeat constructor.
Defined.

(** *** [format_items] *)

Lemma map_result_Ok {A B : Type} (f : A -> result B) (xs : list A) (ys : list B) :
  map_result f xs = Ok ys <-> Forall2 (fun x y => f x = Ok y) xs ys.
Proof.
  revert ys. induction xs as [|x xs IH]; simpl; intros ys.
  - split; [intros [= <-]; constructor | now inversion 1].
  - split.
    + intros H. apply bind_Ok in H as (y & Hy & H).
      apply bind_Ok in H as (zs & Hzs & H). injection H as <-.
      constructor; [assumption | now apply IH].
    + inversion 1 as [|? y ? zs Hy Hzs]; subst.
      rewrite Hy. simpl. apply IH in Hzs. now rewrite Hzs.
Qed.

Lemma map_result_raises {A B : Type} (f : A -> result B) (xs : list A) :
  Exists (fun x => exists e, f x = Raise e) xs ->
  exists e, map_result f xs = Raise e.
Proof.
  induction 1 as [x xs [e Hx]|x xs _ [e IH]]; simpl.
  - rewrite Hx. eauto.
  - destruct (f x); simpl; [|eauto]. rewrite IH. eauto.
Qed.

Section FormatFacts.

Variable str_format : string -> list value -> result string.

(** X13: [format_items] formats element by element: what it returns is a
    list of strings, as long as the argument and in its order, the [i]-th
    one being [fmt.format] of the [i]-th element; one element that cannot
    be formatted fails the whole call; on an empty argument the call
    returns the empty list whatever [fmt] is, on a non-empty one a [fmt]
    that is not a string gives an [AttributeError]. *)
Theorem format_items_elementwise (it fmt : value) (xs : list value) :
  py_iter it = Ok xs ->
  (forall r, format_items str_format it fmt = Ok r <->
             exists ys, r = VList (map VStr ys)
                        /\ Forall2 (fun x y => py_format str_format fmt [x]
                                               = Ok (VStr y)) xs ys)
  /\ (forall r, format_items str_format it fmt = Ok r ->
                py_len r = Ok (length xs))
  /\ (Exists (fun x => exists e, py_format str_format fmt [x] = Raise e) xs ->
      exists e, format_items str_format it fmt = Raise e)
  /\ (xs = [] -> format_items str_format it fmt = Ok (VList []))
  /\ (xs <> [] -> (forall f, fmt <> VStr f) ->
      format_items str_format it fmt = Raise AttributeError).
Proof.
  intros Hit. unfold format_items. rewrite Hit. simpl.
  assert (Hstr : forall zs,
             Forall2 (fun x y => py_format str_format fmt [x] = Ok y) xs zs ->
             exists ys, zs = map VStr ys
                        /\ Forall2 (fun x y => py_format str_format fmt [x]
                                               = Ok (VStr y)) xs ys).
  { clear Hit. induction 1 as [|x z xs' zs Hz _ IH].
    - exists []. split; [reflexivity | constructor].
    - destruct IH as (ys & Hzs & IH). subst zs.
      assert (exists y, z = VStr y) as [y ->].
      { destruct fmt; simpl in Hz; try discriminate.
        destruct (str_format s [x]); simpl in Hz; [|discriminate].
        injection Hz as <-. eauto. }
      exists (y :: ys). split; [reflexivity | now constructor]. }
  assert (Hiff : forall r,
             bind (map_result (fun x => py_format str_format fmt [x]) xs)
               (fun ys => Ok (VList ys)) = Ok r <->
             exists ys, r = VList (map VStr ys)
                        /\ Forall2 (fun x y => py_format str_format fmt [x]
                                               = Ok (VStr y)) xs ys).
  { intros r. split.
    - intros H. apply bind_Ok in H as (zs & Hzs & H). injection H as <-.
      apply map_result_Ok in Hzs. destruct (Hstr zs Hzs) as (ys & -> & H).
      eauto.
    - intros (ys & -> & H).
      assert (Hm : map_result (fun x => py_format str_format fmt [x]) xs
                   = Ok (map VStr ys)).
      { apply map_result_Ok. clear Hstr Hit.
        induction H; simpl; constructor; assumption. }
      now rewrite Hm. }
  split; [exact Hiff|]. split; [|split; [|split]].
  - intros r H. apply Hiff in H as (ys & -> & H). simpl.
    rewrite length_map. f_equal. symmetry. eapply Forall2_length. exact H.
  - intros H. apply map_result_raises in H as [e He]. rewrite He. simpl. eauto.
  - now intros ->.
  - intros Hne Hfmt. destruct xs as [|x xs']; [congruence|]. simpl.
    destruct fmt; try reflexivity. now destruct (Hfmt s).
Qed.

End FormatFacts.

Lemma format_items_elementwise_witness :
  format_items format_indexed (VTuple [VInt 1; VStr "b"; VNone]) (VStr "<{0}>")
  = Ok (VList [VStr "<1>"; VStr "<b>"; VStr "<None>"]).
Proof.
  apply (proj1 (format_items_elementwise format_indexed
                  (VTuple [VInt 1; VStr "b"; VNone]) (VStr "<{0}>")
                  [VInt 1; VStr "b"; VNone] eq_refl)).
  exists ["<1>"; "<b>"; "<None>"]. split; [reflexivity|].
  repeat constructor.
Defined.

(** *** Mappings: [list_keys], [list_values], [map_keys] *)

Lemma dict_find_skip (k : value) (pre rest : list (value * value)) :
  Forall (fun kv => py_eq (fst kv) k = false) pre ->
  dict_find k (pre ++ rest) = dict_find k rest.
Proof.
  induction 1 as [|[k0 v0] pre H0 _ IH]; simpl; [reflexivity|].
  simpl in H0. now rewrite H0.
Qed.

Lemma dict_set_new (k v : value) (pre : list (value * value)) :
  Forall (fun kv => py_eq (fst kv) k = false) pre ->
  dict_set k v pre = pre ++ [(k, v)].
Proof.
  induction 1 as [|[k0 v0] pre H0 _ IH]; simpl; [reflexivity|].
  simpl in H0. now rewrite H0, IH.
Qed.

(** In a well-formed mapping no entry before a given one has an equal
    key. *)
Lemma unique_keys_before (k v : value) (pre suf : list (value * value)) :
  hashable k = true ->
  unique_keys (pre ++ (k, v) :: suf) = true ->
  Forall (fun kv => py_eq (fst kv) k = false) pre.
Proof.
  intros Hk. induction pre as [|[k0 v0] pre IH]; simpl; [constructor|].
  intros [H1 H2]%andb_prop. constructor; [|now apply IH].
  simpl. apply negb_true_iff in H1.
  rewrite existsb_app in H1. apply orb_false_elim in H1 as [_ H1].
  simpl in H1. apply orb_false_elim in H1 as [H1 _].
  now rewrite <- (py_eq_sym k Hk k0).
Qed.

Lemma well_formed_entry (k v : value) (pre suf : list (value * value)) :
  well_formed_dict (pre ++ (k, v) :: suf) = true ->
  hashable k = true
  /\ Forall (fun kv => py_eq (fst kv) k = false) pre
  /\ dict_find k (pre ++ (k, v) :: suf) = Some v.
Proof.
  unfold well_formed_dict. intros [Hh Hu]%andb_prop.
  rewrite forallb_app in Hh. apply andb_prop in Hh as [_ Hh].
  simpl in Hh. apply andb_prop in Hh as [Hk _].
  pose proof (unique_keys_before k v pre suf Hk Hu) as Hpre.
  repeat split; try assumption.
  rewrite (dict_find_skip k pre _ Hpre). simpl. now rewrite (py_eq_refl k Hk).
Qed.

(** Equal keys find the same entry. *)
Lemma dict_find_equal_keys (k q : value) (d : list (value * value)) :
  hashable k = true -> py_eq k q = true -> dict_find k d = dict_find q d.
Proof.
  intros Hk Hkq. pose proof (py_eq_hashable k Hk q Hkq) as Hq.
  induction d as [|[k0 v0] d IH]; simpl; [reflexivity|].
  rewrite IH.
  rewrite <- (py_eq_sym k Hk k0), <- (py_eq_sym q Hq k0).
  now rewrite (py_eq_trans k Hk q k0 Hkq).
Qed.

(** X14: [list_keys] and [list_values] pair up: they return two lists of
    the same length which, zipped, are the entries of the mapping, and in a
    well-formed mapping the [i]-th key leads to the [i]-th value; on
    anything but a mapping both raise an [AttributeError]. *)
Theorem list_keys_values_pair_up :
  (forall d, exists ks vs,
      list_keys (VDict d) = Ok (VList ks)
      /\ list_values (VDict d) = Ok (VList vs)
      /\ length ks = length vs
      /\ combine ks vs = d
      /\ (well_formed_dict d = true ->
          forall i k v, ks !! i = Some k -> vs !! i = Some v ->
                        py_get (VDict d) k = Ok v))
  /\ (forall v, is_dict_type v = false ->
                list_keys v = Raise AttributeError
                /\ list_values v = Raise AttributeError).
Proof.
  split.
  - intros d. exists (map fst d), (map snd d).
    repeat split.
    + now rewrite !length_map.
    + induction d as [|[k v] d IH]; simpl; [reflexivity | now rewrite IH].
    + intros Hwf i k v Hk Hv.
      rewrite list_lookup_fmap in Hk, Hv.
      destruct (d !! i) as [[k' v']|] eqn:E; simpl in Hk, Hv; try discriminate.
      injection Hk as <-. injection Hv as <-.
      apply list_elem_of_split_length in E as (pre & suf & -> & _).
      destruct (well_formed_entry k' v' pre suf Hwf) as (Hh & _ & Hf).
      simpl. now rewrite Hh, Hf.
  - intros v Hv. destruct v; simpl in Hv; try discriminate; now split.
Qed.

Section MapKeysMore.

Variable str_format : string -> list value -> result string.
Variable json_loads : value -> result value.

(** [map_keys] without a [source_path] and without decoding. *)
Lemma map_keys_plain (d keys source_path path_delimiter decode_json : value)
    (ks : list value) :
  keys = VList ks \/ keys = VSet ks ->
  (forall s, source_path <> VStr s) ->
  truthy decode_json = false ->
  map_keys str_format json_loads d keys source_path path_delimiter decode_json
  = bind (dict_comprehension (fun k => k) (fun k => py_get d k) ks)
      (fun res => Ok (VDict res)).
Proof.
  intros Hkeys Hsp Hdj. unfold map_keys.
  assert (Hstar : py_eq keys (VStr "*") = false)
    by (destruct Hkeys as [-> | ->]; reflexivity).
  rewrite Hstar, Hdj.
  assert (Hks : match keys with
                | VList ks | VSet ks => Ok ks
                | _ => Raise (AssertionError "Expected an iterable of keys")
                end = Ok ks) by (destruct Hkeys as [-> | ->]; reflexivity).
  rewrite Hks. simpl.
  destruct source_path; try reflexivity. now destruct (Hsp s).
Qed.

Lemma plain_comprehension (d : list (value * value)) (ks : list value) :
  Forall (fun k => hashable k = true) ks ->
  forall res0, exists res,
    reduce (fun res k => do v <- py_get (VDict d) k; py_setitem res k v) ks res0
    = Ok res
    /\ (forall q, dict_find q res
                  = if existsb (fun k => py_eq k q) ks
                    then Some (get_or_none d q) else dict_find q res0)
    /\ (unique_keys res0 = true -> unique_keys res = true).
Proof.
  induction 1 as [|k ks Hk _ IH]; intros res0.
  - exists res0. repeat split; auto.
  - simpl. rewrite Hk. simpl. unfold py_setitem. rewrite Hk.
    destruct (IH (dict_set k (get_or_none d k) res0))
      as (res & Hred & Hfind & Huniq).
    exists res. split; [exact Hred|]. split.
    + intros q. rewrite Hfind, dict_find_set by assumption.
      destruct (existsb (fun k0 => py_eq k0 q) ks); [now rewrite orb_true_r|].
      rewrite orb_false_r. destruct (py_eq k q) eqn:E; [|reflexivity].
      unfold get_or_none. now rewrite (dict_find_equal_keys k q d Hk E).
    + intros H0. apply Huniq. now apply unique_keys_set.
Qed.

Lemma map_keys_binds_given_keys_aux (d : list (value * value))
    (ks : list value) :
  Forall (fun k => hashable k = true) ks ->
  exists res,
    reduce (fun res k => do v <- py_get (VDict d) k; py_setitem res k v) ks []
    = Ok res
    /\ (forall q, dict_find q res
                  = if existsb (fun k => py_eq k q) ks
                    then Some (get_or_none d q) else None).
Proof.
  intros Hks.
  destruct (plain_comprehension d ks Hks []) as (res & Hred & Hfind & _).
  exists res. split; [exact Hred | exact Hfind].
Qed.

(** X15: without a [source_path], [map_keys] on a mapping and a list or a
    set of hashable keys returns a mapping that binds exactly the given
    keys, each to [d.get(key)]: a key that [d] does not have is bound to
    [None], and keys given twice are bound once. *)
Theorem map_keys_binds_given_keys
    (d : list (value * value)) (keys source_path path_delimiter decode_json : value)
    (ks : list value) :
  keys = VList ks \/ keys = VSet ks ->
  (forall s, source_path <> VStr s) ->
  truthy decode_json = false ->
  Forall (fun k => hashable k = true) ks ->
  exists res,
    map_keys str_format json_loads (VDict d) keys source_path path_delimiter
      decode_json = Ok (VDict res)
    /\ (forall q, dict_find q res
                  = if existsb (fun k => py_eq k q) ks
                    then Some (get_or_none d q) else None)
    /\ (forall k, In k ks -> dict_find k d = None ->
                  dict_find k res = Some VNone)
    /\ unique_keys res = true
    /\ length res <= length ks.
Proof.
  intros Hkeys Hsp Hdj Hks.
  rewrite (map_keys_plain _ _ _ _ _ ks Hkeys Hsp Hdj).
  unfold dict_comprehension.
  destruct (plain_comprehension d ks Hks []) as (res & Hred & Hfind & Huniq).
  exists res. rewrite Hred. simpl. split; [reflexivity|].
  split; [exact Hfind|]. split; [|split; [now apply Huniq|]].
  - intros k Hin Hnone. rewrite Hfind.
    assert (Hex : existsb (fun k0 => py_eq k0 k) ks = true).
    { apply existsb_exists. exists k. split; [assumption|].
      apply py_eq_refl. rewrite Forall_forall in Hks.
      apply Hks. now apply list_elem_of_In. }
    rewrite Hex. unfold get_or_none. now rewrite Hnone.
  - clear Hfind Huniq.
    assert (Hlen : forall k v (r : list (value * value)),
               length (dict_set k v r) <= S (length r)).
    { intros k v r. induction r as [|[k0 v0] r IH]; simpl; [lia|].
      destruct (py_eq k0 k); simpl; lia. }
    assert (Hgen : forall ks res0 res,
               reduce (fun res k => do v <- py_get (VDict d) k;
                                    py_setitem res k v) ks res0 = Ok res ->
               length res <= length res0 + length ks).
    { clear Hks. induction ks0 as [|k ks0 IH]; intros res0 res1 H; simpl in H.
      - injection H as <-. lia.
      - apply bind_Ok in H as (r1 & Hstep & H).
        apply bind_Ok in Hstep as (v & _ & Hset).
        unfold py_setitem in Hset.
        destruct (hashable k); [|discriminate]. injection Hset as <-.
        apply IH in H. specialize (Hlen k v res0). simpl. lia. }
    apply Hgen in Hred. simpl in Hred. lia.
Qed.

(** X16: [map_keys(d, "*")] gives back a well-formed mapping entry by
    entry: the result has the entries of [d]. *)
Theorem map_keys_star_round_trip
    (d : list (value * value)) (source_path path_delimiter decode_json : value) :
  well_formed_dict d = true ->
  (forall s, source_path <> VStr s) ->
  truthy decode_json = false ->
  map_keys str_format json_loads (VDict d) (VStr "*") source_path path_delimiter
    decode_json = Ok (VDict d).
Proof.
  intros Hwf Hsp Hdj.
  assert (Hloop : forall suf pre,
             d = pre ++ suf ->
             reduce (fun res k => do v <- py_get (VDict d) k;
                                  py_setitem res k v) (map fst suf) pre
             = Ok d).
  { induction suf as [|[k v] suf IH]; intros pre Hd.
    - simpl. now rewrite Hd, app_nil_r.
    - rewrite Hd in Hwf.
      destruct (well_formed_entry k v pre suf Hwf) as (Hk & Hpre & Hf).
      rewrite <- Hd in Hf. simpl. rewrite Hk, Hf. simpl.
      unfold py_setitem. rewrite Hk, (dict_set_new k v pre Hpre).
      apply IH. rewrite Hd. now rewrite <- app_assoc. }
  assert (Hc : dict_comprehension (fun k => k) (fun k => py_get (VDict d) k)
                 (map fst d) = Ok d) by (apply (Hloop d []); reflexivity).
  unfold map_keys. rewrite Hdj.
  destruct source_path as [| | |sp| | | |]; try (now destruct (Hsp sp));
    (transitivity (bind (dict_comprehension (fun k => k)
                           (fun k => py_get (VDict d) k) (map fst d))
                     (fun res => Ok (VDict res)));
     [reflexivity | now rewrite Hc]).
Qed.

Lemma reduce_raises {A B : Type} (f : A -> B -> result A) (xs : list B) :
  Exists (fun x => forall acc, exists e, f acc x = Raise e) xs ->
  forall acc, exists e, reduce f xs acc = Raise e.
Proof.
  induction 1 as [x xs Hx|x xs _ IH]; intros acc; simpl.
  - destruct (Hx acc) as [e ->]. eauto.
  - destruct (f acc x) as [acc'|e]; simpl; [apply IH | eauto].
Qed.

Lemma dict_find_In (q v : value) (d : list (value * value)) :
  dict_find q d = Some v -> exists k, In (k, v) d.
Proof.
  induction d as [|[k0 v0] d IH]; simpl; [discriminate|].
  destruct (py_eq k0 q).
  - intros [= <-]. eauto.
  - intros H. destruct (IH H) as [k Hk]. eauto.
Qed.

(** X17: with [decode_json], a key that [d] does not have fails the call:
    its value is [None], which [json.loads] refuses. *)
Theorem map_keys_decode_json_missing_key
    (d : list (value * value)) (keys source_path path_delimiter decode_json : value)
    (ks : list value) (k : value) (e0 : exn) :
  json_loads VNone = Raise e0 ->
  keys = VList ks \/ keys = VSet ks ->
  (forall s, source_path <> VStr s) ->
  truthy decode_json = true ->
  Forall (fun k => hashable k = true) ks ->
  In k ks -> dict_find k d = None ->
  exists e,
    map_keys str_format json_loads (VDict d) keys source_path path_delimiter
      decode_json = Raise e.
Proof.
  intros Hjson Hkeys Hsp Hdj Hks Hin Hnone.
  destruct (map_keys_binds_given_keys_aux d ks Hks) as (res & Hred & Hfind).
  assert (Hplain : dict_comprehension (fun k => k)
                     (fun k => py_get (VDict d) k) ks = Ok res) by exact Hred.
  assert (Hentry : exists k', In (k', VNone) res).
  { apply (dict_find_In k). rewrite Hfind.
    assert (Hex : existsb (fun k0 => py_eq k0 k) ks = true).
    { apply existsb_exists. exists k. split; [assumption|].
      apply py_eq_refl. rewrite Forall_forall in Hks.
      apply Hks. now apply list_elem_of_In. }
    rewrite Hex. unfold get_or_none. now rewrite Hnone. }
  destruct Hentry as [k' Hk'].
  assert (Hdec : exists e,
             dict_comprehension fst (fun kv => json_loads (snd kv)) res
             = Raise e).
  { apply reduce_raises. apply Exists_exists. exists (k', VNone).
    split; [now apply list_elem_of_In|].
    intros acc. simpl. rewrite Hjson. eauto. }
  destruct Hdec as [e He]. exists e.
  assert (Hstar : py_eq keys (VStr "*") = false)
    by (destruct Hkeys as [-> | ->]; reflexivity).
  assert (Hkl : match keys with
                | VList ks | VSet ks => Ok ks
                | _ => Raise (AssertionError "Expected an iterable of keys")
                end = Ok ks) by (destruct Hkeys as [-> | ->]; reflexivity).
  unfold map_keys. rewrite Hstar, Hkl, Hdj.
  destruct source_path as [| | |sp| | | |]; try (now destruct (Hsp sp));
    (transitivity
       (bind (dict_comprehension (fun k => k) (fun k => py_get (VDict d) k) ks)
          (fun res =>
             bind (dict_comprehension fst (fun kv => json_loads (snd kv)) res)
               (fun res' => Ok (VDict res'))));
     [reflexivity | now rewrite Hplain; simpl; rewrite He]).
Qed.

End MapKeysMore.

Lemma map_keys_binds_given_keys_witness :
  exists res,
    map_keys format_indexed json_refuse
      (VDict [(VStr "a", VInt 1); (VStr "b", VInt 2)])
      (VList [VStr "b"; VStr "z"; VStr "b"]) VNone (VStr ".") (VBool false)
    = Ok (VDict res)
    /\ (forall q, dict_find q res
                  = if existsb (fun k => py_eq k q) [VStr "b"; VStr "z"; VStr "b"]
                    then Some (get_or_none
                                 [(VStr "a", VInt 1); (VStr "b", VInt 2)] q)
                    else None)
    /\ (forall k, In k [VStr "b"; VStr "z"; VStr "b"] ->
                  dict_find k [(VStr "a", VInt 1); (VStr "b", VInt 2)] = None ->
                  dict_find k res = Some VNone)
    /\ unique_keys res = true
    /\ length res <= length [VStr "b"; VStr "z"; VStr "b"].
Proof.
  apply (map_keys_binds_given_keys format_indexed json_refuse
           [(VStr "a", VInt 1); (VStr "b", VInt 2)]
           (VList [VStr "b"; VStr "z"; VStr "b"]) VNone (VStr ".") (VBool false)
           [VStr "b"; VStr "z"; VStr "b"]).
  - left. reflexivity.
  - discriminate.
  - reflexivity.
  - repeat constructor.
Defined.

Lemma map_keys_star_round_trip_witness :
  map_keys format_indexed json_refuse
    (VDict [(VStr "a", VInt 1); (VTuple [VInt 1; VInt 2], VList [])])
    (VStr "*") VNone (VStr ".") VNone
  = Ok (VDict [(VStr "a", VInt 1); (VTuple [VInt 1; VInt 2], VList [])]).
Proof.
  apply (map_keys_star_round_trip format_indexed json_refuse
           [(VStr "a", VInt 1); (VTuple [VInt 1; VInt 2], VList [])]
           VNone (VStr ".") VNone).
  - reflexivity.
  - discriminate.
  - reflexivity.
Defined.

Lemma map_keys_decode_json_missing_key_witness :
  exists e,
    map_keys format_indexed json_refuse
      (VDict [(VStr "a", VStr "1")]) (VSet [VStr "a"; VStr "b"]) VNone (VStr ".")
      (VBool true)
    = Raise e.
Proof.
  apply (map_keys_decode_json_missing_key format_indexed json_refuse
           [(VStr "a", VStr "1")] (VSet [VStr "a"; VStr "b"]) VNone (VStr ".")
           (VBool true) [VStr "a"; VStr "b"] (VStr "b") TypeError).
  - reflexivity.
  - right. reflexivity.
  - discriminate.
  - reflexivity.
  - repeat constructor.
  - right. left. reflexivity.
  - reflexivity.
Defined.

(** *** [to_map], once more *)

Lemma dict_set_Forall (P : value * value -> Prop) (k v : value)
    (d : list (value * value)) :
  Forall P d ->
  (forall k' v', P (k', v') -> py_eq k' k = true -> P (k', v)) ->
  P (k, v) ->
  Forall P (dict_set k v d).
Proof.
  intros Hd Hrep Hnew. induction Hd as [|[k' v'] d Hkv Hd IH]; simpl.
  - now constructor.
  - destruct (py_eq k' k) eqn:E; constructor; try assumption.
    now apply (Hrep k' v').
Qed.

Lemma dict_set_length (k v : value) (d : list (value * value)) :
  length (dict_set k v d) <= S (length d).
Proof.
  induction d as [|[k' v'] d IH]; simpl; [lia|].
  destruct (py_eq k' k); simpl; lia.
Qed.

(** X18: the mapping [to_map] returns holds nothing but what it was given:
    every value is an item of the sequence, every key is the resolved key of
    an item and equals the resolved key of the item it is bound to, and
    there are at most as many entries as items. *)
Theorem to_map_entries_are_items (l item_key path_delimiter r : value) :
  to_map l item_key path_delimiter = Ok r ->
  exists xs p res,
    py_iter l = Ok xs /\ py_split item_key path_delimiter = Ok p
    /\ r = VDict res
    /\ length res <= length xs
    /\ Forall (fun kv =>
                 In (snd kv) xs
                 /\ (exists x0, In x0 xs /\ item_key_of p x0 = Some (fst kv))
                 /\ (exists k', item_key_of p (snd kv) = Some k'
                                /\ py_eq (fst kv) k' = true)) res.
Proof.
  unfold to_map. intros H.
  apply bind_Ok in H as (p & Hp & H).
  apply bind_Ok in H as (xs & Hxs & H).
  apply bind_Ok in H as (res & Hres & H). injection H as <-.
  exists xs, p, res. repeat split; try assumption.
  - assert (Hgen : forall ys res0 res1,
               reduce (to_map_step p) ys res0 = Ok res1 ->
               length res1 <= length res0 + length ys).
    { induction ys as [|y ys IH]; intros res0 res1 Hr; simpl in Hr.
      - injection Hr as <-. lia.
      - apply bind_Ok in Hr as (r1 & Hstep & Hr). apply IH in Hr.
        unfold to_map_step in Hstep.
        apply bind_Ok in Hstep as (k & _ & Hstep).
        assert (length r1 <= S (length res0)).
        { destruct (truthy k); [|injection Hstep as <-; lia].
          unfold py_setitem in Hstep.
          destruct (hashable k); [|discriminate].
          injection Hstep as <-. apply dict_set_length. }
        simpl. lia. }
    apply Hgen in Hres. simpl in Hres. lia.
  - set (P := fun kv : value * value =>
                In (snd kv) xs
                /\ (exists x0, In x0 xs /\ item_key_of p x0 = Some (fst kv))
                /\ (exists k', item_key_of p (snd kv) = Some k'
                               /\ py_eq (fst kv) k' = true)).
    assert (Hgen : forall ys res0 res1,
               (forall y, In y ys -> In y xs) ->
               Forall P res0 ->
               reduce (to_map_step p) ys res0 = Ok res1 -> Forall P res1).
    { induction ys as [|y ys IH]; intros res0 res1 Hin H0 Hr; simpl in Hr.
      - now injection Hr as <-.
      - apply bind_Ok in Hr as (r1 & Hstep & Hr).
        apply (IH r1 res1); [intros; apply Hin; now right | | exact Hr].
        unfold to_map_step in Hstep.
        apply bind_Ok in Hstep as (k & Hk & Hstep).
        destruct (truthy k) eqn:Ht; [|now injection Hstep as <-].
        unfold py_setitem in Hstep.
        destruct (hashable k) eqn:Hh; [|discriminate].
        injection Hstep as <-.
        assert (Hy : item_key_of p y = Some k)
          by (unfold item_key_of; now rewrite Hk, Ht).
        apply dict_set_Forall; [exact H0 | |].
        + intros k' v' (_ & Hx0 & _) E. unfold P. simpl.
          split; [apply Hin; now left|]. split; [exact Hx0|].
          exists k. now split.
        + unfold P. simpl. split; [apply Hin; now left|]. split.
          * exists y. split; [apply Hin; now left | exact Hy].
          * exists k. split; [exact Hy | now apply py_eq_refl]. }
    apply (Hgen xs [] res); [auto | constructor | exact Hres].
Qed.

Lemma to_map_entries_are_items_witness :
  exists xs p res,
    py_iter (VList [VDict [(VStr "id", VInt 1)]; VDict [(VStr "id", VBool true)]])
    = Ok xs
    /\ py_split (VStr "id") (VStr ".") = Ok p
    /\ VDict [(VInt 1, VDict [(VStr "id", VBool true)])] = VDict res
    /\ length res <= length xs
    /\ Forall (fun kv =>
                 In (snd kv) xs
                 /\ (exists x0, In x0 xs /\ item_key_of p x0 = Some (fst kv))
                 /\ (exists k', item_key_of p (snd kv) = Some k'
                                /\ py_eq (fst kv) k' = true)) res.
Proof.
  apply (to_map_entries_are_items
           (VList [VDict [(VStr "id", VInt 1)]; VDict [(VStr "id", VBool true)]])
           (VStr "id") (VStr ".")).
  reflexivity.
Defined.

Lemma append_empty (s : string) : s +:+ EmptyString = s.
Proof.
  induction s as [|c s IH]; [reflexivity|].
  change (String c (s +:+ EmptyString) = String c s). now rewrite IH.
Qed.

Lemma append_char (s t : string) (c : ascii) :
  (s +:+ char_str c) +:+ t = s +:+ String c t.
Proof.
  induction s as [|a s IH]; [reflexivity|].
  change (String a ((s +:+ char_str c) +:+ t) = String a (s +:+ String c t)).
  now rewrite IH.
Qed.

(** A separator that does not occur leaves the string in one piece. *)
Lemma split_on_absent (sep cur s : string) :
  is_substring sep s = false -> split_on sep 0 cur s = [cur +:+ s].
Proof.
  revert cur. induction s as [|c s IH]; intros cur H.
  - cbn. now rewrite append_empty.
  - cbn [is_substring] in H. apply orb_false_elim in H as [Hp Hs].
    cbn [split_on]. rewrite Hp, (IH _ Hs). now rewrite append_char.
Qed.

Lemma find_ext_in {A : Type} (f g : A -> bool) (xs : list A) :
  (forall x, In x xs -> f x = g x) -> List.find f xs = List.find g xs.
Proof.
  induction xs as [|x xs IH]; simpl; intros H; [reflexivity|].
  rewrite (H x (or_introl eq_refl)).
  destruct (g x); [reflexivity | apply IH; auto].
Qed.

(** X19: with a key that holds no delimiter the delimiter plays no role:
    on mappings whose value under the key, when truthy, can be hashed,
    [to_map] returns, and binds a key [q] to the last item whose value
    under the key is truthy and equal to [q]; an item without the key, or
    with a falsy value under it, is bound nowhere. *)
Theorem to_map_plain_key (xs : list value) (k sep : string) :
  sep <> EmptyString ->
  is_substring sep k = false ->
  Forall (fun x => is_dict_type x = true
                   /\ (truthy (plain_key_of k x) = true ->
                       hashable (plain_key_of k x) = true)) xs ->
  exists res,
    to_map (VList xs) (VStr k) (VStr sep) = Ok (VDict res)
    /\ forall q,
         dict_find q res
         = List.find (fun x => truthy (plain_key_of k x)
                               && py_eq (plain_key_of k x) q) (rev xs).
Proof.
  intros Hsep Habs Hxs.
  assert (Hsplit : py_split (VStr k) (VStr sep) = Ok [k]).
  { destruct sep as [|c sep]; [congruence|]. simpl.
    now rewrite (split_on_absent _ EmptyString k Habs). }
  assert (Hres : forall x, In x xs ->
                           resolve [k] x = Ok (plain_key_of k x)).
  { intros x Hx. rewrite Forall_forall in Hxs.
    destruct (Hxs x (proj2 (list_elem_of_In _ _) Hx)) as [Hd _].
    destruct x; simpl in Hd; try discriminate.
    unfold resolve, reduce, path_step. cbn [map].
    destruct (truthy (VDict kvs)) eqn:Ht; [reflexivity|].
    destruct kvs; [reflexivity | discriminate]. }
  assert (Hfile : Forall (fileable [k]) xs).
  { apply Forall_forall. intros x Hx.
    exists (plain_key_of k x). split.
    - apply Hres. now apply list_elem_of_In.
    - rewrite Forall_forall in Hxs. now destruct (Hxs x Hx). }
  destruct (to_map_loop [k] xs Hfile []) as (res & Hred & Hfind & _).
  exists res. unfold to_map. rewrite Hsplit. simpl. rewrite Hred. simpl.
  split; [reflexivity|].
  intros q. rewrite Hfind. unfold last_item_keyed.
  rewrite (find_ext_in _ (fun x => truthy (plain_key_of k x)
                                   && py_eq (plain_key_of k x) q)).
  - now destruct (List.find _ (rev xs)).
  - intros x Hx. apply in_rev in Hx. unfold item_key_of.
    rewrite (Hres x Hx). now destruct (truthy (plain_key_of k x)).
Qed.

Lemma to_map_plain_key_witness :
  exists res,
    to_map (VList [VDict [(VStr "id", VStr "a"); (VStr "n", VInt 1)];
                   VDict [(VStr "n", VInt 2)];
                   VDict [(VStr "id", VStr "a"); (VStr "n", VInt 3)]])
      (VStr "id") (VStr "::")
    = Ok (VDict res)
    /\ forall q,
         dict_find q res
         = List.find (fun x => truthy (plain_key_of "id" x)
                               && py_eq (plain_key_of "id" x) q)
             (rev [VDict [(VStr "id", VStr "a"); (VStr "n", VInt 1)];
                   VDict [(VStr "n", VInt 2)];
                   VDict [(VStr "id", VStr "a"); (VStr "n", VInt 3)]]).
Proof.
  apply (to_map_plain_key
           [VDict [(VStr "id", VStr "a"); (VStr "n", VInt 1)];
            VDict [(VStr "n", VInt 2)];
            VDict [(VStr "id", VStr "a"); (VStr "n", VInt 3)]] "id" "::").
  - discriminate.
  - reflexivity.
  - repeat constructor.
Defined.

End PyFacts.

(** * The filters leave their arguments as they were *)

Module StoreFacts.
Import Store.

Lemma extends_refl (h : heap) : extends h h.
Proof. exists []. now rewrite app_nil_r. Qed.

Lemma extends_lookup (h0 h : heap) (l : loc) (o : object) :
  extends h0 h -> h0 !! l = Some o -> h !! l = Some o.
Proof. intros [new ->] H. now apply lookup_app_l_Some. Qed.

Lemma keeps_ret {A : Type} (h0 : heap) (a : A) (Q : A -> Prop) : Q a -> keeps h0 (ret a) Q.
Proof. intros HQ h Hh. split; [exact Hh|]. simpl. now intros ? [= <-]. Qed.

Lemma keeps_raise {A : Type} (h0 : heap) (e : exn) (Q : A -> Prop) : keeps h0 (raise e) Q.
Proof. intros h Hh. split; [exact Hh | discriminate]. Qed.

Lemma keeps_peek {A : Type} (h0 : heap) (f : heap -> result A) : keeps h0 (peek f) any.
Proof. intros h Hh. split; [exact Hh | split]. Qed.

Lemma keeps_weaken {A : Type} (h0 : heap) (m : M A) (Q R : A -> Prop) :
  keeps h0 m Q -> (forall a, Q a -> R a) -> keeps h0 m R.
Proof.
  intros Hm HQR h Hh. destruct (Hm h Hh) as [He HQ]. split; auto.
Qed.

Lemma keeps_bind {A B : Type} (h0 : heap) (m : M A) (k : A -> M B) (Q : A -> Prop) (R : B -> Prop) :
  keeps h0 m Q -> (forall a, Q a -> keeps h0 (k a) R) ->
  keeps h0 (mbind m k) R.
Proof.
  intros Hm Hk h Hh. unfold mbind.
  destruct (Hm h Hh) as [He HQ].
  destruct (m h) as [[a|e] h']; simpl in *.
  - apply (Hk a (HQ a eq_refl) h' He).
  - split; [exact He | discriminate].
Qed.

Lemma keeps_reduce {A B : Type} (h0 : heap) (f : A -> B -> M A) (xs : list B) (I : A -> Prop) :
  (forall acc x, I acc -> keeps h0 (f acc x) I) ->
  forall acc, I acc -> keeps h0 (reduce_M f xs acc) I.
Proof.
  intros Hf. induction xs as [|x xs IH]; intros acc Hacc; simpl.
  - now apply keeps_ret.
  - apply keeps_bind with (Q := I); [now apply Hf | exact IH].
Qed.

Lemma keeps_map {A B : Type} (h0 : heap) (f : A -> M B) (xs : list A) :
  Forall (fun x => keeps h0 (f x) any) xs -> keeps h0 (map_M f xs) any.
Proof.
  induction 1 as [|x xs Hx _ IH]; simpl.
  - now apply keeps_ret.
  - apply keeps_bind with (Q := any); [exact Hx|]. intros y _.
    apply keeps_bind with (Q := any); [exact IH|]. intros ys _.
    now apply keeps_ret.
Qed.

Lemma keeps_filter {A : Type} (h0 : heap) (f : A -> M bool) (xs : list A) :
  (forall x, keeps h0 (f x) any) -> keeps h0 (filter_M f xs) any.
Proof.
  intros Hf. induction xs as [|x xs IH]; simpl.
  - now apply keeps_ret.
  - apply keeps_bind with (Q := any); [apply Hf|]. intros b _.
    apply keeps_bind with (Q := any); [exact IH|]. intros ys _.
    now apply keeps_ret.
Qed.

Lemma keeps_alloc (h0 : heap) (o : object) : keeps h0 (alloc o) (fresh h0).
Proof.
  intros h [new ->]. unfold alloc. simpl. split.
  - exists (new ++ [o]). now rewrite app_assoc.
  - intros a [= <-]. eexists. split; [reflexivity|]. rewrite length_app. lia.
Qed.

Lemma keeps_load (h0 : heap) (l : loc) : keeps h0 (load l) any.
Proof. apply keeps_peek. Qed.

(** An update in place of a new object keeps the old ones. *)
Lemma keeps_store (h0 : heap) (l : loc) (o : object) :
  length h0 <= l -> keeps h0 (store l o) any.
Proof.
  intros Hl h [new ->]. unfold store. simpl. split; [|split].
  exists (<[l - length h0 := o]> new). now apply insert_app_r_alt.
Qed.

Create HintDb keeps.
#[local] Hint Resolve keeps_raise keeps_peek keeps_load : keeps.
#[local] Hint Extern 1 (keeps _ (ret _) any) => apply keeps_ret; exact I : keeps.
#[local] Hint Extern 1 (any _) => exact I : keeps.

(** One step through a computation: the first command of a sequence with
    the rule [tac] proves for it, then the rest. *)
Ltac step tac :=
  eapply keeps_bind; [tac | cbv beta; intros ? ?].

Ltac reads := auto with keeps.

Lemma keeps_py_iter (h0 : heap) (v : value) : keeps h0 (py_iter v) any.
Proof.
  destruct v; simpl; reads.
  step ltac:(apply keeps_load). destruct a; reads.
Qed.

Lemma keeps_py_len (h0 : heap) (v : value) : keeps h0 (py_len v) any.
Proof.
  destruct v; simpl; reads.
  step ltac:(apply keeps_load). destruct a; reads.
Qed.

Lemma keeps_py_getitem0 (h0 : heap) (v : value) : keeps h0 (py_getitem0 v) any.
Proof.
  destruct v as [| | |s|xs|l]; simpl; reads.
  - destruct s; reads.
  - destruct xs; reads.
  - step ltac:(apply keeps_load).
    destruct a as [[|x xs]|xs|kvs]; reads.
    destruct (dict_find _ _); reads.
Qed.

Lemma keeps_py_items (h0 : heap) (v : value) : keeps h0 (py_items v) any.
Proof.
  destruct v; simpl; reads.
  step ltac:(apply keeps_load). destruct a; reads.
Qed.

Lemma keeps_py_get (h0 : heap) (z k : value) : keeps h0 (py_get z k) any.
Proof.
  unfold py_get. step ltac:(apply keeps_py_items).
  destruct (hashable k); reads.
Qed.

Lemma keeps_py_split (h0 : heap) (s sep : value) : keeps h0 (py_split s sep) any.
Proof.
  destruct s; simpl; reads.
  destruct sep as [| | |[|c sep]| |]; reads.
Qed.

Lemma keeps_py_setitem (h0 : heap) (res k v : value) :
  fresh h0 res -> keeps h0 (py_setitem res k v) any.
Proof.
  intros (l & -> & Hl). simpl. step ltac:(apply keeps_load).
  destruct a; reads. destruct (hashable k); reads.
  now apply keeps_store.
Qed.

Lemma keeps_py_append (h0 : heap) (pres y : value) :
  fresh h0 pres -> keeps h0 (py_append pres y) any.
Proof.
  intros (l & -> & Hl). simpl. step ltac:(apply keeps_load).
  destruct a; reads. now apply keeps_store.
Qed.

Lemma keeps_alloc_value (h0 : heap) (t : Py.value) :
  keeps h0 (alloc_value t) any.
Proof.
  induction t using Py.value_nested_ind; simpl; reads.
  - step ltac:(apply keeps_map; eassumption).
    eapply keeps_weaken; [apply keeps_alloc | reads].
  - step ltac:(apply keeps_map; eassumption). reads.
  - step ltac:(apply keeps_map; eassumption).
    eapply keeps_weaken; [apply keeps_alloc | reads].
  - eapply keeps_bind with (Q := any).
    + apply keeps_map. eapply Forall_impl; [eassumption|].
      intros [k w] [Hk Hw]. simpl in *.
      step ltac:(exact Hk). step ltac:(exact Hw). reads.
    + intros es _. eapply keeps_weaken; [apply keeps_alloc | reads].
Qed.

(** One level of [snapshot] carries over from a heap and a depth to others
    that agree with them below. *)
Lemma snapshot_transfer (h h' : heap) (n n' : nat) :
  (forall (l : loc) o, h !! l = Some o -> h' !! l = Some o) ->
  (forall v t, snapshot n h v = Some t -> snapshot n' h' v = Some t) ->
  forall v t, snapshot (S n) h v = Some t -> snapshot (S n') h' v = Some t.
Proof.
  intros Hlook IH v t.
  assert (Hlist : forall xs ts, mapM (snapshot n h) xs = Some ts ->
                                mapM (snapshot n' h') xs = Some ts).
  { intros xs ts H. apply mapM_Some. apply mapM_Some in H.
    eapply Forall2_impl; [exact H | auto]. }
  destruct v as [| | | |xs|l]; simpl; try (intros; assumption).
  - destruct (mapM (snapshot n h) xs) as [ts|] eqn:E; [|discriminate].
    now rewrite (Hlist xs ts E).
  - destruct (h !! l) as [o|] eqn:El; [|discriminate].
    rewrite (Hlook l o El).
    destruct o as [xs|xs|kvs].
    + destruct (mapM (snapshot n h) xs) as [ts|] eqn:E; [|discriminate].
      now rewrite (Hlist xs ts E).
    + destruct (mapM (snapshot n h) xs) as [ts|] eqn:E; [|discriminate].
      now rewrite (Hlist xs ts E).
    + match goal with
      | |- context [mapM ?f kvs] =>
          destruct (mapM f kvs) as [ts|] eqn:E; [|discriminate]
      end.
      intros H. apply mapM_Some in E.
      match goal with
      | |- context [mapM ?f kvs] =>
          assert (E' : mapM f kvs = Some ts)
      end.
      { apply mapM_Some. eapply Forall2_impl; [exact E|].
        intros [k w] [k' w']. simpl.
        destruct (snapshot n h k) as [tk|] eqn:Ek; [|discriminate].
        destruct (snapshot n h w) as [tw|] eqn:Ew; [|discriminate].
        now rewrite (IH k tk Ek), (IH w tw Ew). }
      now rewrite E'.
Qed.

(** A snapshot taken before stays valid in any heap that extends the one it
    was taken in. *)
Lemma snapshot_extends (h0 h : heap) :
  extends h0 h ->
  forall fuel v t, snapshot fuel h0 v = Some t -> snapshot fuel h v = Some t.
Proof.
  intros Hext fuel. induction fuel as [|n IH]; [discriminate|].
  apply snapshot_transfer; [|exact IH].
  intros l o. now apply extends_lookup.
Qed.

(** A snapshot stays the same when more depth is allowed. *)
Lemma snapshot_mono (h : heap) (n m : nat) :
  n <= m -> forall v t, snapshot n h v = Some t -> snapshot m h v = Some t.
Proof.
  revert m. induction n as [|n IH]; intros m Hnm; [discriminate|].
  destruct m as [|m]; [lia|].
  apply snapshot_transfer; [auto | apply IH; lia].
Qed.

Lemma snapshot_list (n : nat) (h : heap) (l : loc) (xs : list value) :
  h !! l = Some (OList xs) ->
  snapshot (S n) h (VRef l) = Py.VList <$> mapM (snapshot n h) xs.
Proof. intros H. simpl. now rewrite H. Qed.

Lemma is_list_type_snapshot (fuel : nat) (h : heap) (v : value) (t : Py.value) :
  snapshot fuel h v = Some t -> is_list_type h v = Py.is_list_type t.
Proof.
  destruct fuel as [|n]; [discriminate|].
  destruct v as [| | | |xs|l]; simpl; try (intros [= <-]; reflexivity).
  - destruct (mapM _ xs); simpl; [intros [= <-]; reflexivity | discriminate].
  - destruct (h !! l) as [[xs|xs|kvs]|]; try discriminate;
      match goal with
      | |- context [mapM ?f ?ys] => destruct (mapM f ys)
      end; simpl; try discriminate; intros [= <-]; reflexivity.
Qed.

Section RuntimeFacts.

Variable str_format : heap -> string -> list value -> result string.
Variable py_str : heap -> value -> string.
Variable json_decode : string -> result Py.value.
Variable py_eq : heap -> value -> value -> result bool.
Variable py_order : heap -> Py.binary_entry -> value -> value -> result bool.

Variable h0 : heap.

(** [_flatten_list] appends to [pres] only, and hands [pres] back. *)
Lemma keeps_flatten_step (depth : nat) :
  forall pres y, fresh h0 pres ->
                 keeps h0 (_flatten_list depth pres y) (fun r => r = pres).
Proof.
  induction depth as [|depth IH]; intros pres y Hpres; simpl.
  - apply keeps_raise.
  - step ltac:(apply keeps_peek).
    destruct (negb a).
    + step ltac:(apply keeps_py_append; exact Hpres). now apply keeps_ret.
    + step ltac:(apply keeps_py_iter).
      apply keeps_reduce with (I := fun r => r = pres); [|reflexivity].
      intros acc x ->. now apply IH.
Qed.

Lemma keeps_one (l : value) : keeps h0 (one l) any.
Proof.
  unfold one. step ltac:(apply keeps_py_len).
  destruct (Nat.ltb 1 a); reads. destruct (Nat.eqb a 0); reads.
  apply keeps_py_getitem0.
Qed.

Lemma keeps_resolve (p : list string) (x : value) : keeps h0 (resolve p x) any.
Proof.
  unfold resolve. apply keeps_reduce with (I := any); [|exact I].
  intros z k _. unfold path_step. step ltac:(apply keeps_peek).
  destruct a; reads. apply keeps_py_get.
Qed.

Lemma keeps_to_map (l item_key path_delimiter : value) :
  keeps h0 (to_map l item_key path_delimiter) any.
Proof.
  unfold to_map. step ltac:(apply keeps_alloc).
  step ltac:(apply keeps_py_split). step ltac:(apply keeps_py_iter).
  eapply keeps_bind with (Q := any); [|intros; reads].
  apply keeps_reduce with (I := any); [|exact I].
  intros _ x _. step ltac:(apply keeps_resolve). step ltac:(apply keeps_peek).
  destruct a3; reads. now apply keeps_py_setitem.
Qed.

Lemma keeps_py_format (fmt : value) (args : list value) :
  keeps h0 (py_format str_format fmt args) any.
Proof. destruct fmt; simpl; reads. step ltac:(apply keeps_peek). reads. Qed.

Lemma keeps_format_items (it fmt : value) :
  keeps h0 (format_items str_format it fmt) any.
Proof.
  unfold format_items. step ltac:(apply keeps_py_iter).
  eapply keeps_bind with (Q := any).
  - apply keeps_map, Forall_forall. intros; apply keeps_py_format.
  - intros ys _. eapply keeps_weaken; [apply keeps_alloc | reads].
Qed.

Lemma keeps_flatten_list (depth : nat) (l : value) :
  keeps h0 (flatten_list depth l) any.
Proof.
  unfold flatten_list. step ltac:(apply keeps_alloc).
  step ltac:(apply keeps_py_iter).
  eapply keeps_weaken; [|reads].
  apply keeps_reduce with (I := fun r => r = a); [|reflexivity].
  intros acc x ->. now apply keeps_flatten_step.
Qed.

Lemma keeps_list_values (d : value) : keeps h0 (list_values d) any.
Proof.
  unfold list_values. step ltac:(apply keeps_py_items).
  eapply keeps_weaken; [apply keeps_alloc | reads].
Qed.

Lemma keeps_list_keys (d : value) : keeps h0 (list_keys d) any.
Proof.
  unfold list_keys. step ltac:(apply keeps_py_items).
  eapply keeps_weaken; [apply keeps_alloc | reads].
Qed.

Lemma keeps_to_kv_pairs (d sep : value) :
  keeps h0 (to_kv_pairs py_str d sep) any.
Proof.
  destruct sep; simpl; reads. step ltac:(apply keeps_py_items). reads.
Qed.

Lemma keeps_dict_comprehension {A : Type} (key : A -> value)
    (e : A -> M value) (xs : list A) :
  (forall x, keeps h0 (e x) any) -> keeps h0 (dict_comprehension key e xs) any.
Proof.
  intros He. unfold dict_comprehension. step ltac:(apply keeps_alloc).
  eapply keeps_bind with (Q := any); [|intros; reads].
  apply keeps_reduce with (I := any); [|exact I].
  intros _ x _. step ltac:(apply He). now apply keeps_py_setitem.
Qed.

Lemma keeps_json_loads (v : value) : keeps h0 (json_loads json_decode v) any.
Proof.
  destruct v; simpl; reads.
  destruct (json_decode s); reads. apply keeps_alloc_value.
Qed.

Lemma keeps_map_keys (d keys source_path path_delimiter decode_json : value) :
  keeps h0
    (map_keys str_format json_decode d keys source_path path_delimiter
       decode_json) any.
Proof.
  unfold map_keys. eapply keeps_bind with (Q := any).
  { destruct (key_eq keys (VStr "*")).
    - step ltac:(apply keeps_list_keys). apply keeps_py_iter.
    - step ltac:(apply keeps_peek). destruct a; reads. apply keeps_py_iter. }
  intros ks _. eapply keeps_bind with (Q := any).
  { destruct source_path;
      try (apply keeps_dict_comprehension; intros; apply keeps_py_get).
    apply keeps_dict_comprehension. intros k.
    step ltac:(apply keeps_py_format). step ltac:(apply keeps_py_split).
    apply keeps_resolve. }
  intros res _. step ltac:(apply keeps_peek). destruct a; reads.
  step ltac:(apply keeps_py_items).
  apply keeps_dict_comprehension. intros kv. apply keeps_json_loads.
Qed.

Lemma keeps_py_contains (x k : value) : keeps h0 (py_contains py_eq x k) any.
Proof.
  destruct x; simpl; reads.
  - destruct k; reads.
  - step ltac:(apply keeps_load).
    destruct a; reads; destruct (hashable k); reads.
    step ltac:(apply keeps_peek). destruct a; reads.
Qed.

Lemma keeps_call_unary (t : Py.unary_entry) (a : value) :
  keeps h0 (call_unary t a) any.
Proof. destruct t; simpl; reads. Qed.

Lemma keeps_call_binary (t : Py.binary_entry) (a b : value) :
  keeps h0 (call_binary py_eq py_order t a b) any.
Proof. destruct t; simpl; step ltac:(apply keeps_peek); reads. Qed.

Lemma keeps_predicate (key : value) (op : string) (val : value)
    (pred : value -> M bool) :
  predicate py_eq py_order key op val = Some pred ->
  forall x, keeps h0 (pred x) any.
Proof.
  unfold predicate. intros H x.
  destruct (String.eqb op "exists").
  { injection H as <-. apply keeps_py_contains. }
  destruct (Py.unary_ops op) as [t|].
  { injection H as <-. step ltac:(apply keeps_py_contains).
    destruct a; reads. step ltac:(apply keeps_py_get).
    step ltac:(apply keeps_call_unary). reads. }
  destruct (Py.binary_ops op) as [t|]; [|discriminate].
  injection H as <-. step ltac:(apply keeps_py_contains).
  destruct a; reads. step ltac:(apply keeps_py_get).
  step ltac:(apply keeps_call_binary). reads.
Qed.

Lemma keeps_py_filter (pred : value -> M bool) (l : value) :
  (forall x, keeps h0 (pred x) any) -> keeps h0 (py_filter pred l) any.
Proof.
  intros Hp.
  assert (Hlist : keeps h0 (let* xs := py_iter l in
                            let* ys := filter_M pred xs in
                            alloc (OList ys)) any).
  { step ltac:(apply keeps_py_iter).
    step ltac:(apply keeps_filter; exact Hp).
    eapply keeps_weaken; [apply keeps_alloc | reads]. }
  destruct l; try exact Hlist; simpl.
  - step ltac:(apply keeps_filter; exact Hp). reads.
  - step ltac:(apply keeps_filter; exact Hp). reads.
Qed.

Lemma keeps_filter_by_key (l key : value) (op : string) (val : value) :
  keeps h0 (filter_by_key py_eq py_order l key op val) any.
Proof.
  unfold filter_by_key.
  destruct (predicate py_eq py_order key op val) as [pred|] eqn:E; reads.
  apply keeps_py_filter. now apply (keeps_predicate key op val).
Qed.

Lemma keeps_filter_by_key_any (l key op val : value) :
  keeps h0 (filter_by_key_any py_str py_eq py_order l key op val) any.
Proof.
  destruct op as [| | |s|[|x [|y xs]]|]; simpl; reads.
  - apply keeps_filter_by_key.
  - destruct (hashable x); reads.
Qed.

(** Every registered filter, called with any arguments. *)
Lemma keeps_filters (depth : nat) (name : string) (f : list value -> M value)
    (args : list value) :
  filters str_format py_str json_decode py_eq py_order depth name = Some f ->
  keeps h0 (f args) any.
Proof.
  unfold filters. intros H.
  repeat match type of H with
         | (if ?c then _ else _) = _ =>
             destruct c; [injection H as <- | ]
         end;
    try discriminate H;
    repeat match goal with
           | |- keeps _ (match ?l with _ => _ end) _ =>
               destruct l as [|? l]; reads
           end;
    auto using keeps_one, keeps_format_items, keeps_flatten_list,
      keeps_map_keys, keeps_list_values, keeps_list_keys, keeps_to_kv_pairs,
      keeps_filter_by_key, keeps_filter_by_key_any, keeps_to_map.
  exact (keeps_to_kv_pairs _ (VStr ",")).
Qed.

End RuntimeFacts.

(** *** The two models of [flatten_list] agree *)

Lemma snapshots_mono (h : heap) (n m : nat) (xs : list value)
    (ts : list Py.value) :
  n <= m -> snapshots n h xs ts -> snapshots m h xs ts.
Proof.
  intros Hnm H. eapply Forall2_impl; [exact H|].
  intros x t. now apply snapshot_mono.
Qed.

(** The elements a loop over a sequence-like value visits are those of its
    snapshot. *)
Lemma py_iter_snapshot (n : nat) (h0 h : heap) (y : value) (t : Py.value) :
  extends h0 h ->
  snapshot (S n) h0 y = Some t -> Py.is_list_type t = true ->
  exists xs ts,
    py_iter y h = (Ok xs, h) /\ snapshots n h0 xs ts
    /\ Py.py_iter t = Ok ts /\ Py.leaves t = flat_map Py.leaves ts.
Proof.
  intros Hext Hs Ht.
  destruct y as [| | | |xs|l]; simpl in Hs;
    try (injection Hs as <-; discriminate).
  - destruct (mapM (snapshot n h0) xs) as [ts|] eqn:E; [|discriminate].
    injection Hs as <-. exists xs, ts.
    repeat split. now apply mapM_Some.
  - destruct (h0 !! l) as [o|] eqn:El; [|discriminate].
    unfold py_iter, load, mbind, peek.
    rewrite (extends_lookup h0 h l o Hext El).
    destruct o as [xs|xs|kvs];
      match type of Hs with
      | context [mapM ?f ?ys] => destruct (mapM f ys) as [ts|] eqn:E
      end; try discriminate; injection Hs as <-; try discriminate;
      exists xs, ts; repeat split; now apply mapM_Some.
Qed.

Lemma _flatten_list_unfold (depth : nat) (pres y : value) (h : heap) :
  _flatten_list (S depth) pres y h
  = (if negb (is_list_type h y)
     then let* _ := py_append pres y in ret pres
     else let* ys := py_iter y in reduce_M (_flatten_list depth) ys pres) h.
Proof. reflexivity. Qed.

Section FlattenRefines.

Variable h0 : heap.

Let pres : value := VRef (length h0).

(** The heap while [flatten_list] runs: the objects of the caller, then the
    accumulator. *)
Let during (acc : list value) : heap := h0 ++ [OList acc].

Lemma during_extends (acc : list value) : extends h0 (during acc).
Proof. now exists [OList acc]. Qed.

Lemma py_append_during (acc : list value) (y : value) :
  py_append pres y (during acc) = (Ok tt, during (acc ++ [y])).
Proof.
  unfold py_append, pres, during, load, mbind, peek, store.
  rewrite list_lookup_middle by reflexivity.
  rewrite insert_app_r_alt by lia. now rewrite Nat.sub_diag.
Qed.

Lemma flatten_fold_refines (n depth : nat) :
  (forall acc y t,
     snapshot n h0 y = Some t ->
     exists new,
       _flatten_list depth pres y (during acc) = (Ok pres, during (acc ++ new))
       /\ snapshots n h0 new (Py.leaves t)) ->
  forall xs ts acc,
    snapshots n h0 xs ts ->
    exists new,
      reduce_M (_flatten_list depth) xs pres (during acc)
      = (Ok pres, during (acc ++ new))
      /\ snapshots n h0 new (flat_map Py.leaves ts).
Proof.
  intros Hstep xs ts acc H. revert acc.
  induction H as [|x t xs ts Hx _ IH]; intros acc.
  - exists []. split; [|constructor]. simpl. now rewrite app_nil_r.
  - destruct (Hstep acc x t Hx) as (new1 & E1 & S1).
    destruct (IH (acc ++ new1)) as (new2 & E2 & S2).
    exists (new1 ++ new2). split.
    + simpl. unfold mbind. rewrite E1, E2. now rewrite app_assoc.
    + simpl. now apply Forall2_app.
Qed.

(** With room on the stack for the depth of [y], [_flatten_list] appends to
    the accumulator the values whose snapshots are the leaves of the
    snapshot of [y]. *)
Lemma flatten_step_refines (fuel : nat) :
  forall depth acc y t,
    fuel <= depth ->
    snapshot fuel h0 y = Some t ->
    exists new,
      _flatten_list depth pres y (during acc) = (Ok pres, during (acc ++ new))
      /\ snapshots fuel h0 new (Py.leaves t).
Proof.
  induction fuel as [|n IH]; intros depth acc y t Hd Hs; [discriminate|].
  destruct depth as [|d]; [lia|].
  pose proof (is_list_type_snapshot _ _ _ _
                (snapshot_extends _ _ (during_extends acc) _ _ _ Hs)) as Hty.
  rewrite _flatten_list_unfold, Hty.
  destruct (Py.is_list_type t) eqn:Ht; cbn [negb].
  - destruct (py_iter_snapshot n h0 (during acc) y t (during_extends acc) Hs Ht)
      as (xs & ts & Hit & Hxs & _ & Hl).
    unfold mbind. rewrite Hit.
    destruct (flatten_fold_refines n d
                (fun acc y t => IH d acc y t ltac:(lia)) xs ts acc Hxs)
      as (new & E & Hnew).
    exists new. split; [exact E|].
    rewrite Hl. apply snapshots_mono with (n := n); [lia | exact Hnew].
  - unfold mbind. rewrite py_append_during. exists [y]. split; [reflexivity|].
    assert (Hl : Py.leaves t = [t]) by (destruct t; try discriminate; reflexivity).
    rewrite Hl. repeat constructor. exact Hs.
Qed.

End FlattenRefines.

(** *** The outcome of a call is a function of the content of its arguments *)

(** What a snapshot says about a value, one level down, at the same
    depth. *)
Lemma snapshot_inv (n : nat) (h : heap) (v : value) (t : Py.value) :
  snapshot n h v = Some t ->
  match v with
  | VNone => t = Py.VNone
  | VBool b => t = Py.VBool b
  | VInt z => t = Py.VInt z
  | VStr s => t = Py.VStr s
  | VTuple xs => exists ts, t = Py.VTuple ts /\ snapshots n h xs ts
  | VRef l =>
      match h !! l with
      | Some (OList xs) => exists ts, t = Py.VList ts /\ snapshots n h xs ts
      | Some (OSet xs) => exists ts, t = Py.VSet ts /\ snapshots n h xs ts
      | Some (ODict kvs) => exists tkvs, t = Py.VDict tkvs /\ entries n h kvs tkvs
      | None => False
      end
  end.
Proof.
  destruct n as [|n]; [discriminate|].
  assert (Hup : forall xs ts, mapM (snapshot n h) xs = Some ts ->
                              snapshots (S n) h xs ts).
  { intros xs ts H. apply mapM_Some in H.
    eapply Forall2_impl; [exact H|]. intros x u. apply snapshot_mono. lia. }
  intros H.
  destruct v as [| | | |xs|l]; simpl in H; cbv beta iota;
    try (now injection H as <-).
  - destruct (mapM (snapshot n h) xs) as [ts|] eqn:E; [|discriminate].
    injection H as <-. eauto.
  - destruct (h !! l) as [[xs|xs|kvs]|]; [| | |discriminate].
    + destruct (mapM (snapshot n h) xs) as [ts|] eqn:E; [|discriminate].
      injection H as <-. eauto.
    + destruct (mapM (snapshot n h) xs) as [ts|] eqn:E; [|discriminate].
      injection H as <-. eauto.
    + match type of H with
      | context [mapM ?f kvs] => destruct (mapM f kvs) as [tkvs|] eqn:E
      end; [|discriminate].
      injection H as <-. exists tkvs. split; [reflexivity|].
      apply mapM_Some in E. eapply Forall2_impl; [exact E|].
      intros [k w] [tk tw]. cbn [fst snd].
      destruct (snapshot n h k) as [k'|] eqn:Ek; [|discriminate].
      destruct (snapshot n h w) as [w'|] eqn:Ew; [|discriminate].
      intros [= <- <-].
      split; (eapply snapshot_mono; [|eassumption]); lia.
Qed.

Lemma snapshot_positive (n : nat) (h : heap) (v : value) (t : Py.value) :
  snapshot n h v = Some t -> 0 < n.
Proof. destruct n; [discriminate | lia]. Qed.

(** A scalar is its own tree. *)
Lemma snapshot_scalar (n : nat) (h : heap) :
  0 < n ->
  snapshot n h VNone = Some Py.VNone
  /\ (forall b, snapshot n h (VBool b) = Some (Py.VBool b))
  /\ (forall z, snapshot n h (VInt z) = Some (Py.VInt z))
  /\ (forall s, snapshot n h (VStr s) = Some (Py.VStr s)).
Proof. destruct n; [lia|]. repeat split. Qed.

Lemma truthy_snapshot (n : nat) (h : heap) (v : value) (t : Py.value) :
  snapshot n h v = Some t -> truthy h v = Py.truthy t.
Proof.
  intros H. apply snapshot_inv in H.
  destruct v as [| | | |xs|l]; simpl.
  - now subst.
  - now subst.
  - now subst.
  - now subst.
  - destruct H as (ts & -> & H). simpl. now rewrite (Forall2_length _ _ _ H).
  - destruct (h !! l) as [[xs|xs|kvs]|]; [| | |destruct H];
      destruct H as (ts & -> & H); simpl; now rewrite (Forall2_length _ _ _ H).
Qed.

Lemma is_scalar_type_snapshot (n : nat) (h : heap) (v : value) (t : Py.value) :
  snapshot n h v = Some t -> is_scalar_type v = Py.is_scalar_type t.
Proof.
  intros H. apply snapshot_inv in H.
  destruct v as [|b|z|s|xs|l]; simpl.
  - now subst.
  - now subst.
  - subst. unfold Py.is_scalar_type, Py.isinstance, Py.type_of.
    now destruct (Py.is_long z).
  - now subst.
  - now destruct H as (ts & -> & H).
  - destruct (h !! l) as [[xs|xs|kvs]|]; [| | |destruct H];
      now destruct H as (ts & -> & H).
Qed.

Lemma hashable_snapshot (n : nat) (h : heap) :
  forall v t, snapshot n h v = Some t -> hashable v = Py.hashable t.
Proof.
  induction n as [|n IH]; [discriminate|].
  intros v t H.
  destruct v as [| | | |xs|l]; simpl in H; try (now injection H as <-).
  - destruct (mapM (snapshot n h) xs) as [ts|] eqn:E; [|discriminate].
    injection H as <-. simpl. apply mapM_Some in E.
    induction E as [|x u xs ts Hx _ IHE]; simpl; [reflexivity|].
    now rewrite (IH x u Hx), IHE.
  - destruct (h !! l) as [[xs|xs|kvs]|]; [| | |discriminate];
      match type of H with
      | context [mapM ?f ?ys] => destruct (mapM f ys)
      end; try discriminate; now injection H as <-.
Qed.

(** Equality with a key: the stored object against a hashable value. *)
Lemma key_eq_snapshot (n : nat) (h : heap) :
  forall a b ta tb,
    snapshot n h a = Some ta -> snapshot n h b = Some tb ->
    hashable b = true ->
    key_eq a b = Py.py_eq ta tb.
Proof.
  induction n as [|n IH]; [discriminate|].
  intros a b ta tb Ha Hb Hh.
  destruct b as [| | | |ys|lb]; [| | | | |discriminate];
    simpl in Hb;
    [injection Hb as <- | injection Hb as <- | injection Hb as <-
    | injection Hb as <- | ].
  1-4: destruct a as [| | | |xs|l]; simpl in Ha;
    try (injection Ha as <-; reflexivity);
    try (destruct (mapM (snapshot n h) xs); [|discriminate];
         injection Ha as <-; reflexivity);
    try (destruct (h !! l) as [[xs|xs|kvs]|]; [| | |discriminate];
         match type of Ha with
         | context [mapM ?f ?zs] => destruct (mapM f zs)
         end; try discriminate; injection Ha as <-; reflexivity).
  destruct (mapM (snapshot n h) ys) as [tys|] eqn:Ey; [|discriminate].
  injection Hb as <-.
  destruct a as [| | | |xs|l]; simpl in Ha;
    try (injection Ha as <-; reflexivity).
  - destruct (mapM (snapshot n h) xs) as [txs|] eqn:Ex; [|discriminate].
    injection Ha as <-. simpl in Hh.
    apply mapM_Some in Ex. apply mapM_Some in Ey.
    change (key_eq (VTuple xs) (VTuple ys))
      with ((fix eq_seq (xs ys : list value) {struct xs} : bool :=
               match xs, ys with
               | [], [] => true
               | x :: xs', y :: ys' => key_eq x y && eq_seq xs' ys'
               | _, _ => false
               end) xs ys).
    simpl Py.py_eq.
    revert ys tys Ey Hh.
    induction Ex as [|x u xs txs Hx _ IHx]; intros ys tys Ey Hh.
    + destruct Ey; reflexivity.
    + destruct Ey as [|y w ys tys Hy Ey]; [reflexivity|].
      simpl in Hh. apply andb_prop in Hh as [Hh1 Hh2]. simpl.
      rewrite (IH x y u w Hx Hy Hh1). f_equal. now apply IHx.
  - destruct (h !! l) as [[xs|xs|kvs]|]; [| | |discriminate];
      match type of Ha with
      | context [mapM ?f ?zs] => destruct (mapM f zs)
      end; try discriminate; injection Ha as <-; reflexivity.
Qed.

Lemma reads_ret {A B : Type} (h0 : heap) (a : A) (b : B) (Q : A -> B -> Prop) :
  Q a b -> reads_as h0 (ret a) (Ok b) Q.
Proof. intros H h _. now split. Qed.

Lemma reads_raise {A B : Type} (h0 : heap) (e : exn) (Q : A -> B -> Prop) :
  reads_as h0 (raise e) (Raise e) Q.
Proof. intros h _. now split. Qed.

Lemma reads_peek {A B : Type} (h0 : heap) (f : heap -> result A) (p : result B)
    (Q : A -> B -> Prop) :
  (forall h, extends h0 h -> rrel Q (f h) p) -> reads_as h0 (peek f) p Q.
Proof. intros H h Hh. split; [reflexivity | now apply H]. Qed.

Lemma reads_bind {A B A' B' : Type} (h0 : heap) (m : M A) (p : result B)
    (k : A -> M A') (k' : B -> result B') (Q : A -> B -> Prop)
    (Q' : A' -> B' -> Prop) :
  reads_as h0 m p Q ->
  (forall a b, Q a b -> reads_as h0 (k a) (k' b) Q') ->
  reads_as h0 (mbind m k) (bind p k') Q'.
Proof.
  intros Hm Hk h Hh. unfold mbind.
  destruct (Hm h Hh) as [Hs Hr].
  destruct (m h) as [[a|e] h1]; simpl in Hs, Hr; subst h1;
    destruct p as [b|e']; simpl in Hr; try contradiction.
  - apply (Hk a b Hr h Hh).
  - subst. now split.
Qed.

Lemma reads_weaken {A B : Type} (h0 : heap) (m : M A) (p : result B)
    (Q Q' : A -> B -> Prop) :
  reads_as h0 m p Q -> (forall a b, Q a b -> Q' a b) -> reads_as h0 m p Q'.
Proof.
  intros Hm HQ h Hh. destruct (Hm h Hh) as [Hs Hr]. split; [exact Hs|].
  destruct (fst (m h)), p; simpl in *; auto.
Qed.

Lemma reads_map {A B A' B' : Type} (h0 : heap) (f : A -> M A')
    (g : B -> result B') (Q : A' -> B' -> Prop) (xs : list A) (ys : list B) :
  Forall2 (fun x y => reads_as h0 (f x) (g y) Q) xs ys ->
  reads_as h0 (map_M f xs) (map_result g ys) (Forall2 Q).
Proof.
  induction 1 as [|x y xs ys Hx _ IH]; simpl.
  - apply reads_ret. constructor.
  - eapply reads_bind; [exact Hx|]. intros a b Hab.
    eapply reads_bind; [exact IH|]. intros az bz Hz.
    apply reads_ret. now constructor.
Qed.

Lemma reads_filter {A B : Type} (h0 : heap) (f : A -> M bool)
    (g : B -> result bool) (Q : A -> B -> Prop) (xs : list A) (ys : list B) :
  Forall2 (fun x y => Q x y /\ reads_as h0 (f x) (g y) eq) xs ys ->
  reads_as h0 (filter_M f xs) (filter_result g ys) (Forall2 Q).
Proof.
  induction 1 as [|x y xs ys [Hq Hx] _ IH]; simpl.
  - apply reads_ret. constructor.
  - eapply reads_bind; [exact Hx|]. intros a b <-.
    eapply reads_bind; [exact IH|]. intros az bz Hz.
    apply reads_ret. destruct a; [now constructor | assumption].
Qed.

Lemma reads_reduce {A B C D : Type} (h0 : heap) (f : A -> C -> M A)
    (g : B -> D -> result B) (Q : A -> B -> Prop) (P : C -> D -> Prop)
    (xs : list C) (ys : list D) :
  Forall2 P xs ys ->
  (forall a b x y, Q a b -> P x y -> reads_as h0 (f a x) (g b y) Q) ->
  forall a b, Q a b -> reads_as h0 (reduce_M f xs a) (reduce g ys b) Q.
Proof.
  intros Hxs Hf. induction Hxs as [|x y xs ys Hx _ IH]; intros a b Hab; simpl.
  - now apply reads_ret.
  - eapply reads_bind; [now apply Hf|]. exact IH.
Qed.

Section Readers.

Variable fuel : nat.
Variable h0 : heap.

Lemma lookup_snapshot (h : heap) (l : loc) (t : Py.value) :
  extends h0 h ->
  snapshot fuel h0 (VRef l) = Some t ->
  exists o, h0 !! l = Some o /\ h !! l = Some o.
Proof.
  intros Hh H. apply snapshot_inv in H.
  destruct (h0 !! l) as [o|] eqn:E; [|destruct H].
  exists o. split; [reflexivity | now apply (extends_lookup h0)].
Qed.

Lemma reads_py_items (d : value) (td : Py.value) :
  snapshot fuel h0 d = Some td ->
  reads_as h0 (py_items d) (Py.py_items td) (entries fuel h0).
Proof.
  intros H h Hh. pose proof (snapshot_inv _ _ _ _ H) as Hi.
  destruct d as [| | | |xs|l]; cbv beta iota in Hi.
  - now subst.
  - now subst.
  - now subst.
  - now subst.
  - now destruct Hi as (ts & -> & _).
  - destruct (lookup_snapshot h l td Hh H) as (o & E0 & Eh).
    rewrite E0 in Hi. unfold py_items, load, mbind, peek. rewrite Eh.
    destruct o as [xs|xs|kvs]; destruct Hi as (ts & -> & Hts); now split.
Qed.

Lemma chars_snapshot (s : string) :
  0 < fuel -> snapshots fuel h0 (chars s) (Py.chars s).
Proof.
  intros Hf. unfold chars, Py.chars, snapshots.
  induction (list_ascii_of_string s) as [|c cs IH]; simpl; constructor;
    [|exact IH].
  now apply snapshot_scalar.
Qed.

Lemma reads_py_iter (v : value) (t : Py.value) :
  snapshot fuel h0 v = Some t ->
  reads_as h0 (py_iter v) (Py.py_iter t) (snapshots fuel h0).
Proof.
  intros H h Hh. pose proof (snapshot_inv _ _ _ _ H) as Hi.
  pose proof (snapshot_positive _ _ _ _ H) as Hf.
  destruct v as [| | |s|xs|l]; cbv beta iota in Hi.
  - now subst.
  - now subst.
  - now subst.
  - subst. split; [reflexivity|]. now apply chars_snapshot.
  - destruct Hi as (ts & -> & Hts). now split.
  - destruct (lookup_snapshot h l t Hh H) as (o & E0 & Eh).
    rewrite E0 in Hi. unfold py_iter, load, mbind, peek. rewrite Eh.
    destruct o as [xs|xs|kvs]; destruct Hi as (ts & -> & Hts);
      (split; [reflexivity|]); simpl; try assumption.
    unfold snapshots. apply Forall2_fmap.
    eapply Forall2_impl; [exact Hts|]. now intros kv tkv [Hk _].
Qed.

Lemma reads_py_len (v : value) (t : Py.value) :
  snapshot fuel h0 v = Some t ->
  reads_as h0 (py_len v) (Py.py_len t) eq.
Proof.
  intros H h Hh. pose proof (snapshot_inv _ _ _ _ H) as Hi.
  destruct v as [| | |s|xs|l]; cbv beta iota in Hi.
  - now subst.
  - now subst.
  - now subst.
  - now subst.
  - destruct Hi as (ts & -> & Hts). split; [reflexivity|]. simpl.
    f_equal. apply (Forall2_length _ _ _ Hts).
  - destruct (lookup_snapshot h l t Hh H) as (o & E0 & Eh).
    rewrite E0 in Hi. unfold py_len, load, mbind, peek. rewrite Eh.
    destruct o as [xs|xs|kvs]; destruct Hi as (ts & -> & Hts);
      (split; [reflexivity|]); simpl; f_equal;
      apply (Forall2_length _ _ _ Hts).
Qed.

Lemma dict_find_snapshot (kvs : list (value * value))
    (tkvs : list (Py.value * Py.value)) (k : value) (tk : Py.value) :
  entries fuel h0 kvs tkvs ->
  snapshot fuel h0 k = Some tk ->
  hashable k = true ->
  match dict_find k kvs, Py.dict_find tk tkvs with
  | Some v, Some t => snapshot fuel h0 v = Some t
  | None, None => True
  | _, _ => False
  end.
Proof.
  intros He Hk Hh.
  induction He as [|[k' v] [tk' tv] kvs tkvs [Hk' Hv] _ IH]; simpl;
    [exact I|].
  simpl in Hk', Hv.
  rewrite (key_eq_snapshot fuel h0 k' k tk' tk Hk' Hk Hh).
  destruct (Py.py_eq tk' tk); [exact Hv | exact IH].
Qed.

Lemma dict_set_snapshot (kvs : list (value * value))
    (tkvs : list (Py.value * Py.value)) (k v : value) (tk tv : Py.value) :
  entries fuel h0 kvs tkvs ->
  snapshot fuel h0 k = Some tk ->
  snapshot fuel h0 v = Some tv ->
  hashable k = true ->
  entries fuel h0 (dict_set k v kvs) (Py.dict_set tk tv tkvs).
Proof.
  intros He Hk Hv Hh.
  induction He as [|[k' v'] [tk' tv'] kvs tkvs [Hk' Hv'] He IH]; simpl.
  - repeat constructor; assumption.
  - simpl in Hk', Hv'.
    rewrite (key_eq_snapshot fuel h0 k' k tk' tk Hk' Hk Hh).
    destruct (Py.py_eq tk' tk); constructor; try assumption; now split.
Qed.

Lemma reads_py_getitem0 (v : value) (t : Py.value) :
  snapshot fuel h0 v = Some t ->
  reads_as h0 (py_getitem0 v) (Py.py_getitem0 t)
    (fun a b => snapshot fuel h0 a = Some b).
Proof.
  intros H h Hh. pose proof (snapshot_inv _ _ _ _ H) as Hi.
  pose proof (snapshot_positive _ _ _ _ H) as Hf.
  destruct v as [| | |s|xs|l]; cbv beta iota in Hi.
  - now subst.
  - now subst.
  - now subst.
  - subst. destruct s; [now split|]. split; [reflexivity|].
    now apply snapshot_scalar.
  - destruct Hi as (ts & -> & Hts).
    destruct Hts; now split.
  - destruct (lookup_snapshot h l t Hh H) as (o & E0 & Eh).
    rewrite E0 in Hi. unfold py_getitem0, load, mbind, peek. rewrite Eh.
    destruct o as [xs|xs|kvs]; destruct Hi as (ts & -> & Hts).
    + destruct Hts; now split.
    + now split.
    + assert (H0 : snapshot fuel h0 (VInt 0) = Some (Py.VInt 0))
        by (destruct fuel; [lia | reflexivity]).
      pose proof (dict_find_snapshot kvs ts (VInt 0) (Py.VInt 0) Hts H0
                    eq_refl) as Hd.
      simpl.
      destruct (dict_find (VInt 0) kvs), (Py.dict_find (Py.VInt 0) ts);
        try contradiction; now split.
Qed.

Lemma reads_py_get (z k : value) (tz tk : Py.value) :
  snapshot fuel h0 z = Some tz ->
  snapshot fuel h0 k = Some tk ->
  reads_as h0 (py_get z k) (Py.py_get tz tk)
    (fun a b => snapshot fuel h0 a = Some b).
Proof.
  intros Hz Hk h Hh.
  pose proof (snapshot_positive _ _ _ _ Hk) as Hf.
  destruct (reads_py_items z tz Hz h Hh) as [Hs Hr].
  unfold py_get, mbind.
  destruct (py_items z h) as [[kvs|e] h1]; simpl in Hs, Hr; subst h1.
  - destruct tz; simpl in Hr; try contradiction. simpl.
    rewrite <- (hashable_snapshot fuel h0 k tk Hk).
    destruct (hashable k) eqn:Ehk; [|now split].
    split; [reflexivity|]. simpl.
    pose proof (dict_find_snapshot kvs kvs0 k tk Hr Hk Ehk) as Hd.
    destruct (dict_find k kvs), (Py.dict_find tk kvs0); try contradiction;
      [exact Hd | now apply snapshot_scalar].
  - destruct tz; simpl in Hr; try discriminate; try contradiction;
      subst; now split.
Qed.

Lemma reads_py_split (s sep : value) (ts tsep : Py.value) :
  snapshot fuel h0 s = Some ts ->
  snapshot fuel h0 sep = Some tsep ->
  reads_as h0 (py_split s sep) (Py.py_split ts tsep) eq.
Proof.
  intros Hs Hsep h Hh.
  apply snapshot_inv in Hs. pose proof (snapshot_inv _ _ _ _ Hsep) as Hi.
  destruct s as [| | |s|xs|l]; cbv beta iota in Hs.
  - now subst.
  - now subst.
  - now subst.
  - subst. destruct sep as [| | |[|c sep]|ys|l]; cbv beta iota in Hi;
      try (subst; now split).
    + destruct Hi as (us & -> & _). now split.
    + apply snapshot_inv in Hsep.
      destruct (h0 !! l) as [[?|?|?]|]; [| | |destruct Hsep];
        destruct Hsep as (us & -> & _); now split.
  - destruct Hs as (us & -> & _). now split.
  - destruct (h0 !! l) as [[?|?|?]|]; [| | |destruct Hs];
      destruct Hs as (us & -> & _); now split.
Qed.

Lemma reads_path_step (z k : value) (tz tk : Py.value) :
  snapshot fuel h0 z = Some tz ->
  snapshot fuel h0 k = Some tk ->
  reads_as h0 (path_step z k) (Py.path_step tz tk)
    (fun a b => snapshot fuel h0 a = Some b).
Proof.
  intros Hz Hk h Hh. unfold path_step, Py.path_step, mbind, peek.
  rewrite (truthy_snapshot fuel h z tz (snapshot_extends h0 h Hh _ _ _ Hz)).
  destruct (Py.truthy tz).
  - now apply reads_py_get.
  - split; [reflexivity|]. simpl.
    apply snapshot_scalar. now apply (snapshot_positive _ _ _ _ Hk).
Qed.

Lemma reads_resolve (p : list string) (x : value) (tx : Py.value) :
  snapshot fuel h0 x = Some tx ->
  reads_as h0 (resolve p x) (Py.resolve p tx)
    (fun a b => snapshot fuel h0 a = Some b).
Proof.
  intros Hx. unfold resolve, Py.resolve.
  apply reads_reduce
    with (P := fun k tk => snapshot fuel h0 k = Some tk); [| |exact Hx].
  - apply Forall2_fmap, Forall_Forall2_diag, Forall_forall. intros s _.
    apply snapshot_scalar. now apply (snapshot_positive _ _ _ _ Hx).
  - intros a b k tk Hab Hk. now apply reads_path_step.
Qed.

End Readers.

Lemma snapshot_list_of (n : nat) (h : heap) (l : loc) (xs : list value)
    (ts : list Py.value) :
  h !! l = Some (OList xs) -> snapshots n h xs ts ->
  snapshot (S n) h (VRef l) = Some (Py.VList ts).
Proof.
  intros E H. simpl. rewrite E.
  now rewrite (proj2 (mapM_Some (snapshot n h) xs ts) H).
Qed.

Lemma snapshot_tuple_of (n : nat) (h : heap) (xs : list value)
    (ts : list Py.value) :
  snapshots n h xs ts -> snapshot (S n) h (VTuple xs) = Some (Py.VTuple ts).
Proof.
  intros H. simpl. now rewrite (proj2 (mapM_Some (snapshot n h) xs ts) H).
Qed.

Lemma snapshot_dict_of (n : nat) (h : heap) (l : loc)
    (kvs : list (value * value)) (tkvs : list (Py.value * Py.value)) :
  h !! l = Some (ODict kvs) -> entries n h kvs tkvs ->
  snapshot (S n) h (VRef l) = Some (Py.VDict tkvs).
Proof.
  intros E H. simpl. rewrite E.
  match goal with
  | |- context [mapM ?f kvs] =>
      assert (Hm : mapM f kvs = Some tkvs)
  end.
  { apply mapM_Some. eapply Forall2_impl; [exact H|].
    intros [k w] [tk tw] [Hk Hw]. simpl in *. now rewrite Hk, Hw. }
  now rewrite Hm.
Qed.

Lemma entries_extends (n : nat) (h h' : heap) (kvs : list (value * value))
    (tkvs : list (Py.value * Py.value)) :
  extends h h' -> entries n h kvs tkvs -> entries n h' kvs tkvs.
Proof.
  intros He H. eapply Forall2_impl; [exact H|].
  intros kv tkv [Hk Hw]. split; now apply (snapshot_extends h h' He).
Qed.

Lemma snapshots_extends (n : nat) (h h' : heap) (xs : list value)
    (ts : list Py.value) :
  extends h h' -> snapshots n h xs ts -> snapshots n h' xs ts.
Proof.
  intros He H. eapply Forall2_impl; [exact H|].
  intros x t. apply (snapshot_extends h h' He).
Qed.

Lemma outcome_of_reads (h0 : heap) (n : nat) (m : M value) (p : result Py.value) :
  reads_as h0 m p (fun a b => snapshot n h0 a = Some b) -> outcome_is (m h0) p.
Proof.
  intros H. destruct (H h0 (extends_refl h0)) as [Hs Hr]. unfold outcome_is.
  destruct (m h0) as [[a|e] h1]; simpl in *; subst h1;
    destruct p; simpl in Hr; try contradiction; eauto.
Qed.

Lemma outcome_reads {A B : Type} (h0 : heap) (m : M A) (p : result B)
    (Q : A -> B -> Prop) (k : A -> M value) (k' : B -> result Py.value) :
  reads_as h0 m p Q ->
  (forall a b, Q a b -> outcome_is (k a h0) (k' b)) ->
  outcome_is (mbind m k h0) (bind p k').
Proof.
  intros Hm Hk. destruct (Hm h0 (extends_refl h0)) as [Hs Hr]. unfold mbind.
  destruct (m h0) as [[a|e] h1]; simpl in Hs, Hr; subst h1;
    destruct p as [b|e']; simpl in Hr; try contradiction.
  - now apply Hk.
  - exact Hr.
Qed.

Lemma outcome_alloc_list (h0 : heap) (n : nat) (ys : list value)
    (tys : list Py.value) :
  snapshots n h0 ys tys ->
  outcome_is (alloc (OList ys) h0) (Ok (Py.VList tys)).
Proof.
  intros H. exists (S n). simpl fst. simpl snd.
  apply snapshot_list_of with (xs := ys).
  - now apply list_lookup_middle.
  - apply (snapshots_extends n h0); [now eexists | exact H].
Qed.

Lemma map_M_allocates {A B : Type} (f : A -> M B)
    (Q : nat -> heap -> B -> A -> Prop) (size : A -> nat) (xs : list A) :
  Forall (fun x => forall h, exists v block,
              f x h = (Ok v, h ++ block)
              /\ forall hpre rest n,
                   length hpre = length h -> size x <= n ->
                   Q n (hpre ++ block ++ rest) v x) xs ->
  forall h, exists vs block,
    map_M f xs h = (Ok vs, h ++ block)
    /\ forall hpre rest n,
         length hpre = length h -> list_max (map size xs) <= n ->
         Forall2 (Q n (hpre ++ block ++ rest)) vs xs.
Proof.
  induction 1 as [|x xs Hx _ IH]; intros h.
  - exists [], []. split; [simpl; unfold ret; now rewrite app_nil_r|].
    intros. constructor.
  - destruct (Hx h) as (v & b1 & E1 & S1).
    destruct (IH (h ++ b1)) as (vs & b2 & E2 & S2).
    exists (v :: vs), (b1 ++ b2). split.
    + simpl. unfold mbind. rewrite E1, E2. unfold ret. now rewrite app_assoc.
    + intros hpre rest n Hlen Hn. simpl in Hn. constructor.
      * rewrite <- app_assoc. apply S1; [exact Hlen | lia].
      * rewrite <- app_assoc, (app_assoc hpre b1).
        apply S2; [rewrite !length_app; lia | lia].
Qed.

Lemma alloc_values_tree (xs : list Py.value) :
  Forall allocates xs ->
  forall h, exists vs block,
    map_M alloc_value xs h = (Ok vs, h ++ block)
    /\ forall hpre rest n,
         length hpre = length h -> list_max (map Py.height xs) <= n ->
         snapshots n (hpre ++ block ++ rest) vs xs.
Proof.
  intros H.
  exact (map_M_allocates alloc_value
           (fun n h v t => snapshot n h v = Some t) Py.height xs H).
Qed.

Lemma alloc_entries_tree (kvs : list (Py.value * Py.value)) :
  Forall (fun kv => allocates (fst kv) /\ allocates (snd kv)) kvs ->
  forall h, exists es block,
    map_M (fun kv => let* k := alloc_value (fst kv) in
                     let* w := alloc_value (snd kv) in
                     ret (k, w)) kvs h
    = (Ok es, h ++ block)
    /\ forall hpre rest n,
         length hpre = length h ->
         list_max (map (fun kv => Nat.max (Py.height (fst kv))
                                    (Py.height (snd kv))) kvs) <= n ->
         entries n (hpre ++ block ++ rest) es kvs.
Proof.
  intros H.
  apply (map_M_allocates _
           (fun n h (e : value * value) (kv : Py.value * Py.value) =>
              snapshot n h (fst e) = Some (fst kv)
              /\ snapshot n h (snd e) = Some (snd kv))).
  eapply Forall_impl; [exact H|].
  intros [tk tw] [Hk Hw] h. simpl in Hk, Hw.
  destruct (Hk h) as (k & b1 & E1 & S1).
  destruct (Hw (h ++ b1)) as (w & b2 & E2 & S2).
  exists (k, w), (b1 ++ b2). split.
  - unfold mbind. cbn [fst snd]. rewrite E1, E2. unfold ret.
    now rewrite app_assoc.
  - intros hpre rest n Hlen Hn. cbn [fst snd] in *. split.
    + rewrite <- app_assoc. apply S1; [exact Hlen | lia].
    + rewrite <- app_assoc, (app_assoc hpre b1).
      apply S2; [rewrite !length_app; lia | lia].
Qed.

Lemma lookup_after (hpre block rest : heap) (o : object) (h : heap) :
  length hpre = length h ->
  (hpre ++ (block ++ [o]) ++ rest) !! length (h ++ block) = Some o.
Proof.
  intros Hlen. rewrite <- app_assoc, app_assoc. simpl.
  apply list_lookup_middle. rewrite !length_app. lia.
Qed.

Lemma alloc_value_tree (t : Py.value) : allocates t.
Proof.
  induction t as [| | | |xs IH|xs IH|xs IH|kvs IH] using Py.value_nested_ind;
    intros h.
  1-4: (eexists _, []; split; [simpl; unfold ret; now rewrite app_nil_r|];
        intros hpre rest [|m] _ Hm; [simpl in Hm; lia | reflexivity]).
  - destruct (alloc_values_tree xs IH h) as (vs & block & E & Hs).
    exists (VRef (length (h ++ block))), (block ++ [OList vs]). split.
    + simpl. unfold mbind. rewrite E. unfold alloc. now rewrite app_assoc.
    + intros hpre rest [|m] Hlen Hm; [simpl in Hm; lia|].
      simpl in Hm.
      apply snapshot_list_of with (xs := vs); [now apply lookup_after|].
      rewrite <- app_assoc. apply Hs; [exact Hlen | lia].
  - destruct (alloc_values_tree xs IH h) as (vs & block & E & Hs).
    exists (VTuple vs), block. split.
    + simpl. unfold mbind. now rewrite E.
    + intros hpre rest [|m] Hlen Hm; [simpl in Hm; lia|].
      simpl in Hm. apply snapshot_tuple_of. apply Hs; [exact Hlen | lia].
  - destruct (alloc_values_tree xs IH h) as (vs & block & E & Hs).
    exists (VRef (length (h ++ block))), (block ++ [OSet vs]). split.
    + simpl. unfold mbind. rewrite E. unfold alloc. now rewrite app_assoc.
    + intros hpre rest [|m] Hlen Hm; [simpl in Hm; lia|].
      simpl in Hm. simpl. rewrite (lookup_after hpre block rest _ h Hlen).
      rewrite <- app_assoc.
      now rewrite (proj2 (mapM_Some _ _ _)
                     (Hs hpre ([OSet vs] ++ rest) m Hlen ltac:(lia))).
  - destruct (alloc_entries_tree kvs IH h) as (es & block & E & Hs).
    exists (VRef (length (h ++ block))), (block ++ [ODict es]). split.
    + simpl. unfold mbind at 1. rewrite E. unfold alloc.
      now rewrite app_assoc.
    + intros hpre rest [|m] Hlen Hm; [simpl in Hm; lia|].
      simpl in Hm.
      apply snapshot_dict_of with (kvs := es); [now apply lookup_after|].
      rewrite <- app_assoc. apply Hs; [exact Hlen | lia].
Qed.

Lemma mbind_ok {A B : Type} (m : M A) (k : A -> M B) (h h' : heap) (a : A) :
  m h = (Ok a, h') -> mbind m k h = k a h'.
Proof. intros E. unfold mbind. now rewrite E. Qed.

Lemma mbind_assoc {A B C : Type} (m : M A) (k0 : A -> M B) (k : B -> M C)
    (h : heap) :
  mbind (mbind m k0) k h = mbind m (fun a => mbind (k0 a) k) h.
Proof. unfold mbind. now destruct (m h) as [[a|e] h']. Qed.

Lemma mbind_raise {A B : Type} (m : M A) (k : A -> M B) (h h' : heap) (e : exn) :
  m h = (Raise e, h') -> mbind m k h = (Raise e, h').
Proof. intros E. unfold mbind. now rewrite E. Qed.

(** What a reading computation gives in a heap that extends [h0]. *)
Lemma reads_at {A B : Type} (h0 h : heap) (m : M A) (p : result B)
    (Q : A -> B -> Prop) :
  reads_as h0 m p Q -> extends h0 h ->
  match p with
  | Ok b => exists a, m h = (Ok a, h) /\ Q a b
  | Raise e => m h = (Raise e, h)
  end.
Proof.
  intros Hm Hh. destruct (Hm h Hh) as [Hs Hr].
  destruct (m h) as [[a|e] h1]; simpl in Hs, Hr; subst h1;
    destruct p as [b|e']; simpl in Hr; try contradiction.
  - now exists a.
  - now subst.
Qed.

(** [res[k] = v] on the mapping a call is filling. *)
Lemma setitem_filling (h1 post : heap) (kvs : list (value * value))
    (k v : value) :
  py_setitem (VRef (length h1)) k v (h1 ++ ODict kvs :: post)
  = if hashable k
    then (Ok tt, h1 ++ ODict (dict_set k v kvs) :: post)
    else (Raise TypeError, h1 ++ ODict kvs :: post).
Proof.
  unfold py_setitem, load, mbind, peek, store.
  rewrite list_lookup_middle by reflexivity.
  destruct (hashable k); [|reflexivity].
  rewrite insert_app_r_alt by lia. now rewrite Nat.sub_diag.
Qed.

(** [dict_set] on related mappings whose keys compare alike. *)
Lemma dict_set_related (Rk Rv : value -> Py.value -> Prop)
    (kvs : list (value * value)) (tkvs : list (Py.value * Py.value))
    (k v : value) (tk tv : Py.value) :
  Forall2 (fun kv tkv => Rk (fst kv) (fst tkv) /\ Rv (snd kv) (snd tkv))
    kvs tkvs ->
  (forall k' tk', Rk k' tk' -> key_eq k' k = Py.py_eq tk' tk) ->
  Rk k tk -> Rv v tv ->
  Forall2 (fun kv tkv => Rk (fst kv) (fst tkv) /\ Rv (snd kv) (snd tkv))
    (dict_set k v kvs) (Py.dict_set tk tv tkvs).
Proof.
  intros H Heq Hk Hv.
  induction H as [|[k' v'] [tk' tv'] kvs tkvs [Hk' Hv'] H IH]; simpl.
  - repeat constructor; assumption.
  - simpl in Hk', Hv'. rewrite (Heq k' tk' Hk').
    destruct (Py.py_eq tk' tk); constructor; try assumption; now split.
Qed.

Section Refinement.

Variable str_format : heap -> string -> list value -> result string.
Variable py_str : heap -> value -> string.
Variable json_decode : string -> result Py.value.
Variable py_eq : heap -> value -> value -> result bool.
Variable py_order : heap -> Py.binary_entry -> value -> value -> result bool.
Variable tree_format : string -> list Py.value -> result string.
Variable tree_order : Py.binary_entry -> Py.value -> Py.value -> result bool.

Variable fuel : nat.
Variable h0 : heap.

Hypothesis Hread :
  content_readers fuel str_format py_str py_eq py_order tree_format tree_order.

Lemma exists_result_snapshot (h : heap) (xs : list value) (ts : list Py.value)
    (k : value) (tk : Py.value) :
  extends h0 h ->
  snapshots fuel h0 xs ts ->
  snapshot fuel h0 k = Some tk ->
  exists_result (fun e => py_eq h e k) xs
  = Ok (existsb (fun e => Py.py_eq e tk) ts).
Proof using Hread.
  intros Hh Hxs Hk. destruct Hread as (_ & _ & Heq & _).
  induction Hxs as [|x t xs ts Hx _ IH]; simpl; [reflexivity|].
  rewrite (Heq h x k t tk (snapshot_extends h0 h Hh _ _ _ Hx)
             (snapshot_extends h0 h Hh _ _ _ Hk)).
  destruct (Py.py_eq t tk); [reflexivity | exact IH].
Qed.

Lemma existsb_key_eq_snapshot (xs : list value) (ts : list Py.value)
    (k : value) (tk : Py.value) :
  snapshots fuel h0 xs ts ->
  snapshot fuel h0 k = Some tk ->
  hashable k = true ->
  existsb (fun e => key_eq e k) xs = existsb (fun e => Py.py_eq e tk) ts.
Proof.
  intros Hxs Hk Hh.
  induction Hxs as [|x t xs ts Hx _ IH]; simpl; [reflexivity|].
  now rewrite (key_eq_snapshot fuel h0 x k t tk Hx Hk Hh), IH.
Qed.

Lemma reads_py_contains (x k : value) (tx tk : Py.value) :
  snapshot fuel h0 x = Some tx ->
  snapshot fuel h0 k = Some tk ->
  reads_as h0 (py_contains py_eq x k) (Py.py_contains tx tk) eq.
Proof using Hread.
  intros Hx Hk h Hh.
  pose proof (snapshot_inv _ _ _ _ Hx) as Hi.
  pose proof (snapshot_inv _ _ _ _ Hk) as Hki.
  pose proof (hashable_snapshot fuel h0 k tk Hk) as Hhk.
  destruct x as [| | |s|xs|l]; cbv beta iota in Hi.
  - now subst.
  - now subst.
  - now subst.
  - subst.
    destruct k as [| | |u|ys|lk]; cbv beta iota in Hki; try (subst; now split).
    + destruct Hki as (us & -> & _). now split.
    + destruct (h0 !! lk) as [[?|?|?]|]; [| | |destruct Hki];
        destruct Hki as (us & -> & _); now split.
  - destruct Hi as (ts & -> & Hts). split; [reflexivity|]. simpl.
    now rewrite (exists_result_snapshot h xs ts k tk Hh Hts Hk).
  - destruct (lookup_snapshot fuel h0 h l tx Hh Hx) as (o & E0 & Eh).
    rewrite E0 in Hi. unfold py_contains, load, mbind, peek. rewrite Eh.
    destruct o as [xs|xs|kvs]; destruct Hi as (ts & -> & Hts).
    + split; [reflexivity|]. simpl.
      now rewrite (exists_result_snapshot h xs ts k tk Hh Hts Hk).
    + simpl. rewrite <- Hhk. destruct (hashable k) eqn:Ehk.
      * split; [reflexivity|]. simpl. f_equal.
        now apply existsb_key_eq_snapshot.
      * destruct k as [| | |u|ys|lk]; try discriminate;
          cbv beta iota in Hki.
        -- destruct Hki as (us & -> & _). now split.
        -- destruct (lookup_snapshot fuel h0 h lk tk Hh Hk) as (ok & Ek0 & Ekh).
           rewrite Ek0 in Hki. rewrite Ekh.
           destruct ok; destruct Hki as (us & -> & _); now split.
    + simpl. rewrite <- Hhk. destruct (hashable k) eqn:Ehk; [|now split].
      split; [reflexivity|]. simpl.
      pose proof (dict_find_snapshot fuel h0 kvs ts k tk Hts Hk Ehk) as Hd.
      destruct (dict_find k kvs), (Py.dict_find tk ts); try contradiction;
        reflexivity.
Qed.

Lemma reads_py_format (fmt : value) (args : list value) (tfmt : Py.value)
    (targs : list Py.value) :
  snapshot fuel h0 fmt = Some tfmt ->
  snapshots fuel h0 args targs ->
  reads_as h0 (py_format str_format fmt args) (Py.py_format tree_format tfmt targs)
    (fun a b => snapshot fuel h0 a = Some b).
Proof using Hread.
  intros Hf Ha h Hh. destruct Hread as (Hfmt & _).
  pose proof (snapshot_positive _ _ _ _ Hf) as Hpos.
  apply snapshot_inv in Hf.
  destruct fmt as [| | |f|xs|l]; cbv beta iota in Hf.
  - now subst.
  - now subst.
  - now subst.
  - subst. unfold py_format, Py.py_format, mbind, peek.
    rewrite (Hfmt h f args targs).
    + destruct (tree_format f targs) as [r|e]; (split; [reflexivity|]);
        simpl; [now apply snapshot_scalar | reflexivity].
    + eapply Forall2_impl; [exact Ha|]. intros a b.
      apply (snapshot_extends h0 h Hh).
  - destruct Hf as (us & -> & _). now split.
  - destruct (h0 !! l) as [[?|?|?]|]; [| | |destruct Hf];
      destruct Hf as (us & -> & _); now split.
Qed.

Lemma reads_call_unary (t : Py.unary_entry) (a : value) (ta : Py.value) :
  snapshot fuel h0 a = Some ta ->
  reads_as h0 (call_unary t a) (Py.call_unary t ta)
    (fun a b => snapshot fuel h0 a = Some b).
Proof.
  intros Ha h Hh. pose proof (snapshot_positive _ _ _ _ Ha) as Hpos.
  pose proof (truthy_snapshot fuel h a ta (snapshot_extends h0 h Hh _ _ _ Ha))
    as Ht.
  destruct t; simpl; unfold peek; rewrite ?Ht; (split; [reflexivity|]);
    simpl; try reflexivity; now apply snapshot_scalar.
Qed.

Lemma reads_call_binary (t : Py.binary_entry) (a b : value) (ta tb : Py.value) :
  snapshot fuel h0 a = Some ta ->
  snapshot fuel h0 b = Some tb ->
  reads_as h0 (call_binary py_eq py_order t a b) (Py.call_binary tree_order t ta tb)
    (fun a b => snapshot fuel h0 a = Some b).
Proof using Hread.
  intros Ha Hb h Hh. pose proof (snapshot_positive _ _ _ _ Ha) as Hpos.
  destruct Hread as (_ & _ & Heq & Hord).
  pose proof (Heq h a b ta tb (snapshot_extends h0 h Hh _ _ _ Ha)
                (snapshot_extends h0 h Hh _ _ _ Hb)) as E1.
  pose proof (fun t => Hord h t a b ta tb (snapshot_extends h0 h Hh _ _ _ Ha)
                (snapshot_extends h0 h Hh _ _ _ Hb)) as E2.
  destruct t; simpl; unfold mbind, peek; rewrite ?E1, ?E2;
    try (split; [reflexivity|]; simpl; now apply snapshot_scalar);
    (destruct (tree_order _ ta tb); (split; [reflexivity|]); simpl;
     [now apply snapshot_scalar | reflexivity]).
Qed.

Lemma reads_truth (r : value) (tr : Py.value) :
  snapshot fuel h0 r = Some tr ->
  reads_as h0 (peek (fun h => Ok (truthy h r))) (Ok (Py.truthy tr)) eq.
Proof.
  intros Hr. apply reads_peek. intros h Hh. simpl.
  apply (truthy_snapshot fuel). now apply (snapshot_extends h0).
Qed.

Lemma reads_predicate (key val : value) (op : string) (tkey tval : Py.value) :
  snapshot fuel h0 key = Some tkey ->
  snapshot fuel h0 val = Some tval ->
  match predicate py_eq py_order key op val,
        Py.predicate tree_order tkey op tval with
  | Some pred, Some pred' =>
      forall x tx, snapshot fuel h0 x = Some tx ->
                   reads_as h0 (pred x) (pred' tx) eq
  | None, None => True
  | _, _ => False
  end.
Proof using Hread.
  intros Hkey Hval. unfold predicate, Py.predicate.
  destruct (String.eqb op "exists").
  { intros x tx Hx. now apply reads_py_contains. }
  destruct (Py.unary_ops op) as [t|].
  { intros x tx Hx.
    eapply reads_bind; [now apply reads_py_contains|].
    intros c c' <-. destruct c; [|now apply reads_ret].
    eapply reads_bind; [exact (reads_py_get fuel h0 x key tx tkey Hx Hkey)|].
    cbv beta. intros a ta Ha.
    eapply reads_bind; [exact (reads_call_unary t a ta Ha)|].
    cbv beta. intros r tr Hr.
    now apply reads_truth. }
  destruct (Py.binary_ops op) as [t|]; [|exact I].
  intros x tx Hx.
  eapply reads_bind; [now apply reads_py_contains|].
  intros c c' <-. destruct c; [|now apply reads_ret].
  eapply reads_bind; [exact (reads_py_get fuel h0 x key tx tkey Hx Hkey)|].
    cbv beta. intros a ta Ha.
  eapply reads_bind; [exact (reads_call_binary t a val ta tval Ha Hval)|].
  cbv beta. intros r tr Hr.
  now apply reads_truth.
Qed.

Lemma one_outcome (l : value) (tl : Py.value) :
  snapshot fuel h0 l = Some tl ->
  outcome_is (one l h0) (Py.one tl).
Proof.
  intros Hl. apply (outcome_of_reads h0 fuel). unfold one, Py.one.
  eapply reads_bind; [now apply (reads_py_len fuel)|].
  intros n n' <-. destruct (Nat.ltb 1 n); [apply reads_raise|].
  destruct (Nat.eqb n 0); [apply reads_raise|].
  now apply reads_py_getitem0.
Qed.

Lemma list_keys_outcome (d : value) (td : Py.value) :
  snapshot fuel h0 d = Some td ->
  outcome_is (list_keys d h0) (Py.list_keys td).
Proof.
  intros Hd.
  assert (E : Py.list_keys td
              = bind (Py.py_items td)
                  (fun kvs => Ok (Py.VList (map fst kvs))))
    by (now destruct td).
  rewrite E. unfold list_keys.
  eapply outcome_reads; [now apply (reads_py_items fuel)|].
  intros kvs tkvs H. apply (outcome_alloc_list h0 fuel).
  unfold snapshots. apply Forall2_fmap.
  eapply Forall2_impl; [exact H|]. now intros kv tkv [Hk _].
Qed.

Lemma list_values_outcome (d : value) (td : Py.value) :
  snapshot fuel h0 d = Some td ->
  outcome_is (list_values d h0) (Py.list_values td).
Proof.
  intros Hd.
  assert (E : Py.list_values td
              = bind (Py.py_items td)
                  (fun kvs => Ok (Py.VList (map snd kvs))))
    by (now destruct td).
  rewrite E. unfold list_values.
  eapply outcome_reads; [now apply (reads_py_items fuel)|].
  intros kvs tkvs H. apply (outcome_alloc_list h0 fuel).
  unfold snapshots. apply Forall2_fmap.
  eapply Forall2_impl; [exact H|]. now intros kv tkv [_ Hv].
Qed.

Lemma kv_tokens_snapshot (h : heap) (kvs : list (value * value))
    (tkvs : list (Py.value * Py.value)) :
  extends h0 h ->
  entries fuel h0 kvs tkvs ->
  map (kv_token py_str h) (List.filter (kv_included h) kvs)
  = map Py.kv_token (List.filter Py.kv_included tkvs).
Proof using Hread.
  intros Hh H. destruct Hread as (_ & Hstr & _).
  induction H as [|[k v] [tk tv] kvs tkvs [Hk Hv] _ IH]; [reflexivity|].
  simpl in Hk, Hv.
  pose proof (snapshot_extends h0 h Hh _ _ _ Hk) as Hk'.
  pose proof (snapshot_extends h0 h Hh _ _ _ Hv) as Hv'.
  assert (E1 : kv_included h (k, v) = Py.kv_included (tk, tv)).
  { unfold kv_included, Py.kv_included. cbn [snd].
    now rewrite (truthy_snapshot fuel h v tv Hv'),
      (is_scalar_type_snapshot fuel h v tv Hv'). }
  assert (E2 : kv_token py_str h (k, v) = Py.kv_token (tk, tv)).
  { unfold kv_token, Py.kv_token. cbn [fst snd].
    now rewrite (truthy_snapshot fuel h v tv Hv'), (Hstr h k tk Hk'),
      (Hstr h v tv Hv'). }
  cbn [List.filter]. rewrite E1.
  destruct (Py.kv_included (tk, tv)); cbn [map]; [now rewrite E2, IH | exact IH].
Qed.

Lemma to_kv_pairs_outcome (d sep : value) (td tsep : Py.value) :
  snapshot fuel h0 d = Some td ->
  snapshot fuel h0 sep = Some tsep ->
  outcome_is (to_kv_pairs py_str d sep h0) (Py.to_kv_pairs td tsep).
Proof using Hread.
  intros Hd Hsep. apply (outcome_of_reads h0 fuel).
  pose proof (snapshot_positive _ _ _ _ Hd) as Hpos.
  apply snapshot_inv in Hsep.
  destruct sep as [| | |s|xs|l]; cbv beta iota in Hsep.
  - subst. apply reads_raise.
  - subst. apply reads_raise.
  - subst. apply reads_raise.
  - subst. unfold to_kv_pairs, Py.to_kv_pairs.
    eapply reads_bind; [now apply (reads_py_items fuel)|].
    intros kvs tkvs H. apply reads_peek. intros h Hh. unfold rrel.
    rewrite (kv_tokens_snapshot h kvs tkvs Hh H).
    now apply snapshot_scalar.
  - destruct Hsep as (us & -> & _). apply reads_raise.
  - destruct (h0 !! l) as [[?|?|?]|]; [| | |destruct Hsep];
      destruct Hsep as (us & -> & _); apply reads_raise.
Qed.

Lemma format_items_outcome (it fmt : value) (tit tfmt : Py.value) :
  snapshot fuel h0 it = Some tit ->
  snapshot fuel h0 fmt = Some tfmt ->
  outcome_is (format_items str_format it fmt h0)
    (Py.format_items tree_format tit tfmt).
Proof using Hread.
  intros Hit Hfmt. unfold format_items, Py.format_items.
  eapply outcome_reads; [now apply (reads_py_iter fuel)|].
  intros xs txs Hxs.
  eapply outcome_reads.
  - apply reads_map with (Q := fun a b => snapshot fuel h0 a = Some b).
    eapply Forall2_impl; [exact Hxs|]. intros x tx Hx.
    apply reads_py_format; [exact Hfmt|]. now repeat constructor.
  - intros ys tys Hys. now apply (outcome_alloc_list h0 fuel).
Qed.

Lemma py_filter_outcome (pred : value -> M bool)
    (pred' : Py.value -> result bool) (l : value) (tl : Py.value) :
  (forall x tx, snapshot fuel h0 x = Some tx ->
                reads_as h0 (pred x) (pred' tx) eq) ->
  snapshot fuel h0 l = Some tl ->
  outcome_is (py_filter pred l h0) (Py.py_filter pred' tl).
Proof.
  intros Hp Hl.
  pose proof (snapshot_positive _ _ _ _ Hl) as Hpos.
  assert (Hfilter : forall xs txs,
             snapshots fuel h0 xs txs ->
             reads_as h0 (filter_M pred xs) (filter_result pred' txs)
               (snapshots fuel h0)).
  { intros xs txs Hxs.
    apply reads_filter with (Q := fun a b => snapshot fuel h0 a = Some b).
    eapply Forall2_impl; [exact Hxs|]. intros x tx Hx. split; auto. }
  assert (Hlist : outcome_is
                    ((let* xs := py_iter l in
                      let* ys := filter_M pred xs in
                      alloc (OList ys)) h0)
                    (do xs <- Py.py_iter tl;
                     do ys <- filter_result pred' xs;
                     Ok (Py.VList ys))).
  { eapply outcome_reads; [now apply (reads_py_iter fuel)|].
    intros xs txs Hxs.
    eapply outcome_reads; [now apply Hfilter|].
    intros ys tys Hys. now apply (outcome_alloc_list h0 fuel). }
  pose proof (snapshot_inv _ _ _ _ Hl) as Hi.
  destruct l as [| | |s|xs|l]; cbv beta iota in Hi.
  - subst. exact Hlist.
  - subst. exact Hlist.
  - subst. exact Hlist.
  - subst. unfold py_filter, Py.py_filter.
    eapply outcome_reads.
    + apply reads_filter
        with (Q := fun a b => exists c, a = VStr c /\ b = Py.VStr c).
      unfold chars, Py.chars.
      induction (list_ascii_of_string s) as [|c cs IH]; simpl; constructor;
        [|exact IH].
      split; [eauto|]. apply Hp. now apply snapshot_scalar.
    + intros ys tys Hys. exists fuel. simpl fst. simpl snd.
      assert (E : map (fun y => match y with
                                | VStr c => c
                                | _ => EmptyString
                                end) ys
                  = map Py.py_str tys).
      { induction Hys as [|y ty ys tys (c & -> & ->) _ IH]; simpl;
          [reflexivity | now rewrite IH]. }
      rewrite E. now apply snapshot_scalar.
  - destruct Hi as (ts & -> & Hts). unfold py_filter, Py.py_filter.
    eapply outcome_reads; [now apply Hfilter|].
    intros ys tys Hys. exists (S fuel). now apply snapshot_tuple_of.
  - destruct (h0 !! l) as [[?|?|?]|]; [| | |destruct Hi];
      destruct Hi as (us & -> & _); exact Hlist.
Qed.

Lemma filter_by_key_outcome (l key val : value) (op : string)
    (tl tkey tval : Py.value) :
  snapshot fuel h0 l = Some tl ->
  snapshot fuel h0 key = Some tkey ->
  snapshot fuel h0 val = Some tval ->
  outcome_is (filter_by_key py_eq py_order l key op val h0)
    (Py.filter_by_key tree_order tl tkey op tval).
Proof using Hread.
  intros Hl Hkey Hval. unfold filter_by_key, Py.filter_by_key.
  pose proof (reads_predicate key val op tkey tval Hkey Hval) as Hp.
  destruct (predicate py_eq py_order key op val) as [pred|],
    (Py.predicate tree_order tkey op tval) as [pred'|]; try contradiction.
  - now apply py_filter_outcome.
  - reflexivity.
Qed.

Lemma filter_by_key_any_outcome (l key op val : value)
    (tl tkey top tval : Py.value) :
  snapshot fuel h0 l = Some tl ->
  snapshot fuel h0 key = Some tkey ->
  snapshot fuel h0 op = Some top ->
  snapshot fuel h0 val = Some tval ->
  outcome_is (filter_by_key_any py_str py_eq py_order l key op val h0)
    (Py.filter_by_key_any tree_order tl tkey top tval).
Proof using Hread.
  intros Hl Hkey Hop Hval.
  pose proof (proj1 (proj2 Hread)) as Hstr.
  pose proof (Hstr h0 op top Hop) as Estr.
  pose proof (snapshot_inv _ _ _ _ Hop) as Hi.
  destruct op as [| | |s|xs|lo]; cbv beta iota in Hi.
  - subst. unfold outcome_is. simpl. now rewrite Estr.
  - subst. unfold outcome_is. simpl. now rewrite Estr.
  - subst. unfold outcome_is. simpl. now rewrite Estr.
  - subst. now apply filter_by_key_outcome.
  - destruct Hi as (ts & -> & Hts).
    destruct Hts as [|x tx xs ts Hx Hts]; [reflexivity|].
    destruct Hts; [|reflexivity].
    unfold outcome_is. simpl.
    rewrite <- (hashable_snapshot fuel h0 x tx Hx).
    destruct (hashable x); [|reflexivity]. simpl.
    now rewrite (Hstr h0 x tx Hx).
  - destruct (h0 !! lo) as [[?|?|?]|]; [| | |destruct Hi];
      destruct Hi as (us & -> & _); reflexivity.
Qed.

Lemma flatten_list_outcome (depth : nat) (l : value) (tl : Py.value) :
  fuel <= depth ->
  snapshot fuel h0 l = Some tl ->
  outcome_is (flatten_list depth l h0) (Py.flatten_list tl).
Proof.
  intros Hd Hl. unfold flatten_list, alloc, mbind.
  destruct (reads_py_iter fuel h0 l tl Hl (h0 ++ [OList []])
              (during_extends h0 [])) as [Hs Hr].
  destruct (py_iter l (h0 ++ [OList []])) as [[xs|e] h1];
    simpl in Hs, Hr; subst h1.
  - destruct (Py.py_iter tl) as [txs|] eqn:Et; simpl in Hr; [|contradiction].
    destruct (flatten_fold_refines h0 fuel depth
                (fun acc y t => flatten_step_refines h0 fuel depth acc y t Hd)
                xs txs [] Hr) as (new & E & Hnew).
    rewrite E. rewrite (PyFacts.flatten_list_iter tl txs Et).
    exists (S fuel). simpl fst. simpl snd.
    apply snapshot_list_of with (xs := new).
    + now apply list_lookup_middle.
    + apply (snapshots_extends fuel h0); [now eexists | exact Hnew].
  - unfold Py.flatten_list.
    destruct (Py.py_iter tl); simpl in Hr; [contradiction|]. exact Hr.
Qed.

(** A loop that fills the mapping created at the end of [h1]. *)
Lemma fill_loop {A B : Type} (h1 : heap) (step : A -> M unit)
    (step' : list (Py.value * Py.value) -> B ->
             result (list (Py.value * Py.value)))
    (P : A -> B -> Prop) (xs : list A) (txs : list B) :
  Forall2 P xs txs ->
  (forall x tx kvs tkvs,
     P x tx -> entries fuel h0 kvs tkvs ->
     filled fuel h0 h1 (step x (h1 ++ [ODict kvs])) (step' tkvs tx)) ->
  forall kvs tkvs,
    entries fuel h0 kvs tkvs ->
    filled fuel h0 h1
      (reduce_M (fun _ x => step x) xs tt (h1 ++ [ODict kvs]))
      (reduce step' txs tkvs).
Proof.
  intros Hxs Hstep.
  induction Hxs as [|x tx xs txs Hx _ IH]; intros kvs tkvs Hk; simpl.
  - exists kvs. now split.
  - destruct (Hstep x tx kvs tkvs Hx Hk) as (kvs1 & E & H1).
    unfold mbind.
    destruct (step x (h1 ++ [ODict kvs])) as [r hr]. simpl in E, H1. subst hr.
    destruct (step' tkvs tx) as [tkvs1|e]; simpl.
    + destruct H1 as [-> H1]. now apply IH.
    + subst r. now exists kvs1.
Qed.

Lemma extends_filling (h1 : heap) (kvs : list (value * value)) :
  extends h0 h1 -> extends h0 (h1 ++ [ODict kvs]).
Proof. intros [new ->]. exists (new ++ [ODict kvs]). now rewrite app_assoc. Qed.

(** One entry put into the mapping that is being filled. *)
Lemma fill_entry (h1 : heap) (kvs : list (value * value))
    (tkvs : list (Py.value * Py.value)) (k v : value) (tk tv : Py.value) :
  entries fuel h0 kvs tkvs ->
  snapshot fuel h0 k = Some tk ->
  snapshot fuel h0 v = Some tv ->
  filled fuel h0 h1
    (py_setitem (VRef (length h1)) k v (h1 ++ [ODict kvs]))
    (Py.py_setitem tkvs tk tv).
Proof.
  intros He Hk Hv. rewrite setitem_filling. unfold Py.py_setitem.
  rewrite <- (hashable_snapshot fuel h0 k tk Hk).
  destruct (hashable k) eqn:Eh.
  - eexists. split; [reflexivity|]. split; [reflexivity|].
    now apply dict_set_snapshot.
  - exists kvs. now split.
Qed.

(** A reading step before the mapping is touched. *)
Lemma fill_after_read {A B : Type} (h1 : heap) (kvs : list (value * value))
    (m : M A) (p : result B) (Q : A -> B -> Prop) (k : A -> M unit)
    (k' : B -> result (list (Py.value * Py.value))) :
  extends h0 h1 ->
  reads_as h0 m p Q ->
  (forall a b, Q a b -> filled fuel h0 h1 (k a (h1 ++ [ODict kvs])) (k' b)) ->
  filled fuel h0 h1 (mbind m k (h1 ++ [ODict kvs])) (bind p k').
Proof.
  intros Hext Hm Hk.
  pose proof (reads_at h0 _ _ _ _ Hm (extends_filling h1 kvs Hext)) as H.
  destruct p as [b|e]; simpl.
  - destruct H as (a & E & Hq). rewrite (mbind_ok _ _ _ _ _ E). now apply Hk.
  - rewrite (mbind_raise _ _ _ _ _ H). exists kvs. now split.
Qed.

(** The mapping that was filled is what the call returns. *)
Lemma filled_outcome (h1 : heap) (m : M unit)
    (p : result (list (Py.value * Py.value))) (h : heap) :
  extends h0 h1 ->
  filled fuel h0 h1 (m h) p ->
  outcome_is ((let* _ := m in ret (VRef (length h1))) h)
    (do res <- p; Ok (Py.VDict res)).
Proof.
  intros Hext (kvs & E & H). unfold mbind.
  destruct (m h) as [r hr]. simpl in E, H. subst hr.
  destruct p as [tkvs|e]; simpl.
  - destruct H as [-> H]. exists (S fuel). simpl fst. simpl snd.
    apply snapshot_dict_of with (kvs := kvs);
      [now apply list_lookup_middle|].
    apply (entries_extends fuel h0); [now apply extends_filling | exact H].
  - now subst r.
Qed.

Lemma to_map_outcome (l item_key path_delimiter : value)
    (tl tkey tpd : Py.value) :
  snapshot fuel h0 l = Some tl ->
  snapshot fuel h0 item_key = Some tkey ->
  snapshot fuel h0 path_delimiter = Some tpd ->
  outcome_is (to_map l item_key path_delimiter h0) (Py.to_map tl tkey tpd).
Proof.
  intros Hl Hkey Hpd. unfold to_map, Py.to_map.
  rewrite (mbind_ok _ _ h0 (h0 ++ [ODict []]) (VRef (length h0)) eq_refl).
  assert (Hext : extends h0 (h0 ++ [ODict []])) by now eexists.
  pose proof (reads_at h0 _ _ _ _
                (reads_py_split fuel h0 _ _ _ _ Hkey Hpd) Hext) as Hsp.
  destruct (Py.py_split tkey tpd) as [p'|e]; simpl;
    [|rewrite (mbind_raise _ _ _ _ _ Hsp); reflexivity].
  destruct Hsp as (p & Esp & <-). rewrite (mbind_ok _ _ _ _ _ Esp).
  pose proof (reads_at h0 _ _ _ _ (reads_py_iter fuel h0 _ _ Hl) Hext) as Hit.
  destruct (Py.py_iter tl) as [txs|e]; simpl;
    [|rewrite (mbind_raise _ _ _ _ _ Hit); reflexivity].
  destruct Hit as (xs & Eit & Hxs). rewrite (mbind_ok _ _ _ _ _ Eit).
  apply (filled_outcome h0); [apply extends_refl|].
  apply (fill_loop h0
           (fun x => let* k := resolve p x in
                     let* t := peek (fun h => Ok (truthy h k)) in
                     if t then py_setitem (VRef (length h0)) k x else ret tt)
           (Py.to_map_step p)
           (fun x tx => snapshot fuel h0 x = Some tx) xs txs Hxs);
    [|constructor].
  intros x tx kvs tkvs Hx Hk. unfold Py.to_map_step.
  apply fill_after_read
    with (Q := fun a b => snapshot fuel h0 a = Some b);
    [apply extends_refl | now apply reads_resolve|].
  intros k tk Hk'.
  change (Py.truthy tk) with (Py.truthy tk).
  change (if Py.truthy tk then Py.py_setitem tkvs tk tx else Ok tkvs)
    with (bind (Ok (Py.truthy tk))
            (fun t => if t then Py.py_setitem tkvs tk tx else Ok tkvs)).
  apply fill_after_read with (Q := eq);
    [apply extends_refl | now apply reads_truth|].
  intros t t' <-. destruct t; [now apply fill_entry|].
  exists kvs. now split.
Qed.

Lemma filled_result (h1 : heap) (m : M unit)
    (p : result (list (Py.value * Py.value))) (h : heap) :
  filled fuel h0 h1 (m h) p ->
  exists r h2,
    (let* _ := m in ret (VRef (length h1))) h = (r, h2)
    /\ match r, p with
       | Ok res, Ok tkvs =>
           exists kvs, res = VRef (length h1) /\ h2 = h1 ++ [ODict kvs]
                       /\ entries fuel h0 kvs tkvs
       | Raise err, Raise err' => err = err'
       | _, _ => False
       end.
Proof.
  intros (kvs & E & H). unfold mbind.
  destruct (m h) as [r hr]. simpl in E, H. subst hr.
  destruct p as [tkvs|e].
  - destruct H as [-> H]. eexists _, _. split; [reflexivity|]. now exists kvs.
  - subst r. eexists _, _. split; reflexivity.
Qed.

(** A dict comprehension whose expression reads the heap. *)
Lemma comprehension_filled {A B : Type} (key : A -> value)
    (key' : B -> Py.value) (e : A -> M value) (e' : B -> result Py.value)
    (P : A -> B -> Prop) (xs : list A) (txs : list B) (h1 : heap) :
  extends h0 h1 ->
  Forall2 P xs txs ->
  (forall x tx, P x tx ->
                snapshot fuel h0 (key x) = Some (key' tx)
                /\ reads_as h0 (e x) (e' tx)
                     (fun a b => snapshot fuel h0 a = Some b)) ->
  exists r h2,
    dict_comprehension key e xs h1 = (r, h2)
    /\ match r, Py.dict_comprehension key' e' txs with
       | Ok res, Ok tkvs =>
           exists kvs, res = VRef (length h1) /\ h2 = h1 ++ [ODict kvs]
                       /\ entries fuel h0 kvs tkvs
       | Raise err, Raise err' => err = err'
       | _, _ => False
       end.
Proof.
  intros Hext Hxs He. unfold dict_comprehension, Py.dict_comprehension.
  rewrite (mbind_ok _ _ h1 (h1 ++ [ODict []]) (VRef (length h1)) eq_refl).
  apply filled_result.
  apply (fill_loop h1
           (fun x => let* v := e x in
                     py_setitem (VRef (length h1)) (key x) v)
           (fun res x => do v <- e' x; Py.py_setitem res (key' x) v)
           P xs txs Hxs); [|constructor].
  intros x tx kvs tkvs Hx Hk. destruct (He x tx Hx) as [Hkey Hex].
  apply fill_after_read
    with (Q := fun a b => snapshot fuel h0 a = Some b);
    [exact Hext | exact Hex|].
  intros v tv Hv. now apply fill_entry.
Qed.

Lemma decoded_later (h2 post block : heap) (kvs : list (value * value))
    (tkvs : list (Py.value * Py.value)) :
  decoded fuel h0 h2 post kvs tkvs ->
  decoded fuel h0 h2 (post ++ block) kvs tkvs.
Proof.
  intros H. eapply Forall2_impl; [exact H|].
  intros kv tkv [Hk Hv]. split; [exact Hk|].
  intros d rest m Hm. rewrite <- app_assoc. now apply Hv.
Qed.

Lemma decode_loop (h2 : heap) (xs : list (value * value))
    (txs : list (Py.value * Py.value)) :
  entries fuel h0 xs txs ->
  forall kvs tkvs post,
    decoded fuel h0 h2 post kvs tkvs ->
    exists r kvs' post',
      reduce_M (fun _ kv => let* v := json_loads json_decode (snd kv) in
                            py_setitem (VRef (length h2)) (fst kv) v)
        xs tt (h2 ++ ODict kvs :: post)
      = (r, h2 ++ ODict kvs' :: post')
      /\ match reduce (fun res kv =>
                         do v <- Py.json_loads_of json_decode (snd kv);
                         Py.py_setitem res (fst kv) v) txs tkvs with
         | Ok tkvs' => r = Ok tt /\ decoded fuel h0 h2 post' kvs' tkvs'
         | Raise e => r = Raise e
         end.
Proof.
  induction 1 as [|[k v] [tk tv] xs txs [Hk Hv] _ IH];
    intros kvs tkvs post Hd.
  - exists (Ok tt), kvs, post. now split.
  - cbn [fst snd] in Hk, Hv. cbn [reduce_M reduce]. cbn [fst snd].
    assert (Hstop : forall e,
               json_loads json_decode v (h2 ++ ODict kvs :: post)
               = (Raise e, h2 ++ ODict kvs :: post) ->
               Py.json_loads_of json_decode tv = Raise e ->
               exists r kvs' post',
                 (let* acc' := (let* v0 := json_loads json_decode v in
                                py_setitem (VRef (length h2)) k v0) in
                  reduce_M (fun _ kv =>
                              let* v0 := json_loads json_decode (snd kv) in
                              py_setitem (VRef (length h2)) (fst kv) v0)
                    xs acc') (h2 ++ ODict kvs :: post)
                 = (r, h2 ++ ODict kvs' :: post')
                 /\ match (do acc' <- (do v0 <- Py.json_loads_of json_decode tv;
                                       Py.py_setitem tkvs tk v0);
                           reduce (fun res kv =>
                                     do v0 <- Py.json_loads_of json_decode
                                                (snd kv);
                                     Py.py_setitem res (fst kv) v0) txs acc')
                    with
                    | Ok tkvs' =>
                        r = Ok tt /\ decoded fuel h0 h2 post' kvs' tkvs'
                    | Raise e => r = Raise e
                    end).
    { intros e E1 E2. exists (Raise e), kvs, post. rewrite E2. simpl.
      split; [|reflexivity].
      apply mbind_raise. now apply mbind_raise. }
    pose proof (snapshot_inv _ _ _ _ Hv) as Hi.
    destruct v as [| | |s|ys|l]; cbv beta iota in Hi.
    + subst. now apply (Hstop TypeError).
    + subst. now apply (Hstop TypeError).
    + subst. now apply (Hstop TypeError).
    + subst. destruct (json_decode s) as [t|e] eqn:Ej.
      * cbn [json_loads Py.json_loads_of]. rewrite Ej.
        destruct (alloc_value_tree t (h2 ++ ODict kvs :: post))
          as (w & block & Ew & Sw).
        assert (Eheap : (h2 ++ ODict kvs :: post) ++ block
                        = h2 ++ ODict kvs :: (post ++ block))
          by now rewrite <- app_assoc.
        rewrite Eheap in Ew.
        rewrite mbind_assoc, (mbind_ok _ _ _ _ _ Ew). unfold mbind at 1.
        rewrite setitem_filling. cbn [bind]. unfold Py.py_setitem.
        rewrite <- (hashable_snapshot fuel h0 k tk Hk).
        destruct (hashable k) eqn:Eh; cbv beta iota.
        -- cbn [bind]. apply IH.
           apply dict_set_related
             with (Rk := fun a b => snapshot fuel h0 a = Some b)
                  (Rv := fun a b =>
                           forall d rest m,
                             Py.height b <= m ->
                             snapshot m (h2 ++ ODict d :: (post ++ block) ++ rest)
                               a = Some b).
           ++ now apply decoded_later.
           ++ intros k' tk' Hk'. now apply (key_eq_snapshot fuel h0).
           ++ exact Hk.
           ++ intros d rest m Hm.
              replace (h2 ++ ODict d :: (post ++ block) ++ rest)
                with ((h2 ++ ODict d :: post) ++ block ++ rest)
                by (now rewrite <- !app_assoc).
              apply Sw; [|exact Hm]. rewrite !length_app. simpl. lia.
        -- exists (Raise TypeError), kvs, (post ++ block). now split.
      * apply (Hstop e); [|exact Ej]. cbn [json_loads]. now rewrite Ej.
    + destruct Hi as (us & -> & _). now apply (Hstop TypeError).
    + destruct (h0 !! l) as [[?|?|?]|]; [| | |destruct Hi];
        destruct Hi as (us & -> & _); now apply (Hstop TypeError).
Qed.

Lemma decode_outcome (h2 : heap) (kvs : list (value * value))
    (tkvs : list (Py.value * Py.value)) :
  extends h0 h2 ->
  entries fuel h0 kvs tkvs ->
  outcome_is
    (dict_comprehension fst (fun kv => json_loads json_decode (snd kv)) kvs h2)
    (do res <- Py.dict_comprehension fst
                 (fun kv => Py.json_loads_of json_decode (snd kv)) tkvs;
     Ok (Py.VDict res)).
Proof.
  intros Hext Hk. unfold dict_comprehension, Py.dict_comprehension.
  rewrite (mbind_ok _ _ h2 (h2 ++ [ODict []]) (VRef (length h2)) eq_refl).
  destruct (decode_loop h2 kvs tkvs Hk [] [] [] ltac:(constructor))
    as (r & kvs' & post' & E & H).
  unfold mbind at 1. rewrite E.
  match type of H with
  | match ?p with _ => _ end => destruct p as [tkvs'|e]
  end.
  - destruct H as [-> H]. simpl.
    assert (Hm : exists m,
               fuel <= m
               /\ Forall (fun tkv => Py.height (snd tkv) <= m) tkvs').
    { exists (Nat.max fuel
                (list_max (map (fun tkv => Py.height (snd tkv)) tkvs'))).
      split; [lia|]. apply Forall_forall. intros tkv Hin.
      assert (Hle : list_max (map (fun tkv => Py.height (snd tkv)) tkvs')
                    <= list_max (map (fun tkv => Py.height (snd tkv)) tkvs'))
        by lia.
      apply list_max_le in Hle. rewrite List.Forall_forall in Hle.
      assert (Hx : Py.height (snd tkv)
                   <= list_max (map (fun tkv => Py.height (snd tkv)) tkvs')).
      { apply Hle. apply in_map_iff. exists tkv. split; [reflexivity|].
        now apply list_elem_of_In. }
      lia. }
    destruct Hm as (m & Hfm & Hall).
    exists (S m). simpl fst. simpl snd.
    apply snapshot_dict_of with (kvs := kvs');
      [now apply list_lookup_middle|].
    assert (Hent : forall d, entries m (h2 ++ ODict d :: post') kvs' tkvs').
    { intros d. clear E.
      induction H as [|kv tkv kvs1 tkvs1 [Hk1 Hv1] H IH]; [constructor|].
      apply Forall_cons in Hall as [Hm Hall]. constructor; [|now apply IH].
      split.
      - apply snapshot_mono with (n := fuel); [exact Hfm|].
        apply (snapshot_extends h0); [|exact Hk1].
        destruct Hext as [new ->]. eexists. now rewrite <- app_assoc.
      - specialize (Hv1 d [] m Hm). now rewrite app_nil_r in Hv1. }
    apply Hent.
  - subst r. reflexivity.
Qed.

Lemma py_keys_items (td : Py.value) :
  Py.py_keys td = bind (Py.py_items td) (fun kvs => Ok (map fst kvs)).
Proof. now destruct td. Qed.

(** The keys [map_keys] goes through. *)
Lemma map_keys_keys (d keys : value) (td tkeys : Py.value) :
  snapshot fuel h0 d = Some td ->
  snapshot fuel h0 keys = Some tkeys ->
  exists r h1,
    (if key_eq keys (VStr "*") then
       let* ks := list_keys d in py_iter ks
     else
       let* accepted :=
         peek (fun h => Ok (match keys with
                            | VRef l =>
                                match h !! l with
                                | Some (OList _ | OSet _) => true
                                | _ => false
                                end
                            | _ => false
                            end)) in
       if accepted then py_iter keys
       else raise (AssertionError "Expected an iterable of keys")) h0
    = (r, h1)
    /\ extends h0 h1
    /\ rrel (snapshots fuel h0) r
         (if Py.py_eq tkeys (Py.VStr "*") then Py.py_keys td
          else match tkeys with
               | Py.VList ks | Py.VSet ks => Ok ks
               | _ => Raise (AssertionError "Expected an iterable of keys")
               end).
Proof.
  intros Hd Hkeys.
  pose proof (snapshot_positive _ _ _ _ Hd) as Hpos.
  assert (Hstar : snapshot fuel h0 (VStr "*") = Some (Py.VStr "*"))
    by now apply snapshot_scalar.
  rewrite (key_eq_snapshot fuel h0 keys (VStr "*") tkeys (Py.VStr "*")
             Hkeys Hstar eq_refl).
  destruct (Py.py_eq tkeys (Py.VStr "*")).
  - rewrite py_keys_items. unfold list_keys. rewrite mbind_assoc.
    pose proof (reads_at h0 h0 _ _ _ (reads_py_items fuel h0 d td Hd)
                  (extends_refl h0)) as Hi.
    destruct (Py.py_items td) as [tkvs|e]; simpl.
    + destruct Hi as (kvs & E & Hk). rewrite (mbind_ok _ _ _ _ _ E).
      rewrite (mbind_ok _ _ h0 (h0 ++ [OList (map fst kvs)])
                 (VRef (length h0)) eq_refl).
      exists (Ok (map fst kvs)), (h0 ++ [OList (map fst kvs)]).
      split; [|split; [now eexists|]].
      * unfold py_iter, load, mbind, peek.
        now rewrite list_lookup_middle by reflexivity.
      * simpl. unfold snapshots. apply Forall2_fmap.
        eapply Forall2_impl; [exact Hk|]. now intros kv tkv [Hkv _].
    + rewrite (mbind_raise _ _ _ _ _ Hi). exists (Raise e), h0.
      split; [reflexivity|]. split; [apply extends_refl | reflexivity].
  - pose proof (snapshot_inv _ _ _ _ Hkeys) as Hi.
    unfold mbind at 1, peek.
    destruct keys as [| | |s|xs|l]; cbv beta iota in Hi.
    1-4: (subst; exists (Raise (AssertionError "Expected an iterable of keys")),
            h0; split; [reflexivity|]; split;
          [apply extends_refl | reflexivity]).
    + destruct Hi as (ts & -> & _).
      exists (Raise (AssertionError "Expected an iterable of keys")), h0.
      split; [reflexivity|]. split; [apply extends_refl | reflexivity].
    + destruct (h0 !! l) as [[xs|xs|kvs]|] eqn:El; [| | |destruct Hi];
        destruct Hi as (ts & -> & Hts).
      * exists (Ok xs), h0. split; [|split; [apply extends_refl | exact Hts]].
        unfold py_iter, load, mbind, peek. now rewrite El.
      * exists (Ok xs), h0. split; [|split; [apply extends_refl | exact Hts]].
        unfold py_iter, load, mbind, peek. now rewrite El.
      * exists (Raise (AssertionError "Expected an iterable of keys")), h0.
        split; [reflexivity|]. split; [apply extends_refl | reflexivity].
Qed.

Lemma map_keys_outcome (d keys source_path path_delimiter decode_json : value)
    (td tkeys tsp tpd tdj : Py.value) :
  snapshot fuel h0 d = Some td ->
  snapshot fuel h0 keys = Some tkeys ->
  snapshot fuel h0 source_path = Some tsp ->
  snapshot fuel h0 path_delimiter = Some tpd ->
  snapshot fuel h0 decode_json = Some tdj ->
  outcome_is
    (map_keys str_format json_decode d keys source_path path_delimiter
       decode_json h0)
    (Py.map_keys tree_format (Py.json_loads_of json_decode) td tkeys tsp tpd
       tdj).
Proof using Hread.
  intros Hd Hkeys Hsp Hpd Hdj. unfold map_keys, Py.map_keys.
  destruct (map_keys_keys d keys td tkeys Hd Hkeys) as (r & h1 & E & Hext & Hr).
  unfold mbind at 1. rewrite E.
  match type of Hr with
  | rrel _ _ ?p => destruct p as [tks|e]
  end; destruct r as [ks|e']; simpl in Hr; try contradiction;
    [|subst; reflexivity].
  cbn [bind].
  match goal with
  | |- outcome_is _ (bind ?p _) => set (tres := p)
  end.
  assert (Hres :
            exists r h2,
              match source_path with
              | VStr _ =>
                  dict_comprehension (fun k => k)
                    (fun k =>
                       let* s := py_format str_format source_path [k] in
                       let* p := py_split s path_delimiter in
                       resolve p d) ks
              | _ => dict_comprehension (fun k => k) (fun k => py_get d k) ks
              end h1 = (r, h2)
              /\ match r, tres with
                 | Ok res, Ok tkvs =>
                     exists kvs, res = VRef (length h1)
                                 /\ h2 = h1 ++ [ODict kvs]
                                 /\ entries fuel h0 kvs tkvs
                 | Raise err, Raise err' => err = err'
                 | _, _ => False
                 end).
  { subst tres. assert (Hget : exists r h2,
               dict_comprehension (fun k => k) (fun k => py_get d k) ks h1
               = (r, h2)
               /\ match r, Py.dict_comprehension (fun k => k)
                             (fun k => Py.py_get td k) tks with
                  | Ok res, Ok tkvs =>
                      exists kvs, res = VRef (length h1)
                                  /\ h2 = h1 ++ [ODict kvs]
                                  /\ entries fuel h0 kvs tkvs
                  | Raise err, Raise err' => err = err'
                  | _, _ => False
                  end).
    { apply comprehension_filled
        with (P := fun a b => snapshot fuel h0 a = Some b);
        [exact Hext | exact Hr|].
      intros k tk Hk. split; [exact Hk|]. now apply reads_py_get. }
    pose proof (snapshot_inv _ _ _ _ Hsp) as Hi.
    destruct source_path as [| | |f|xs|l]; cbv beta iota in Hi.
    - subst. exact Hget.
    - subst. exact Hget.
    - subst. exact Hget.
    - subst. apply comprehension_filled
        with (P := fun a b => snapshot fuel h0 a = Some b);
        [exact Hext | exact Hr|].
      intros k tk Hk. split; [exact Hk|].
      eapply reads_bind.
      + apply reads_py_format; [exact Hsp|]. now repeat constructor.
      + intros s ts Hs. eapply reads_bind.
        * now apply (reads_py_split fuel h0 s path_delimiter ts tpd).
        * intros p p' <-. now apply reads_resolve.
    - destruct Hi as (ts & -> & _). exact Hget.
    - destruct (h0 !! l) as [[?|?|?]|]; [| | |destruct Hi];
        destruct Hi as (us & -> & _); exact Hget. }
  destruct Hres as (r & h2 & Eres & Hres).
  unfold mbind at 1. rewrite Eres.
  destruct tres as [tkvs|e]; destruct r as [res|e']; try contradiction;
    [|subst; reflexivity].
  destruct Hres as (kvs & -> & -> & Hk). cbn [bind].
  assert (Hext2 : extends h0 (h1 ++ [ODict kvs]))
    by now apply extends_filling.
  unfold mbind at 1, peek.
  rewrite (truthy_snapshot fuel _ decode_json tdj
             (snapshot_extends h0 _ Hext2 _ _ _ Hdj)).
  destruct (Py.truthy tdj).
  - assert (Eit : py_items (VRef (length h1)) (h1 ++ [ODict kvs])
                  = (Ok kvs, h1 ++ [ODict kvs])).
    { unfold py_items, load, mbind, peek.
      now rewrite list_lookup_middle by reflexivity. }
    rewrite (mbind_ok _ _ _ _ _ Eit). now apply decode_outcome.
  - exists (S fuel). simpl fst. simpl snd.
    apply snapshot_dict_of with (kvs := kvs);
      [now apply list_lookup_middle|].
    now apply (entries_extends fuel h0).
Qed.

(** Every registered filter. *)
Lemma filters_outcome (depth : nat) (name : string)
    (f : list value -> M value) (args : list value) (ts : list Py.value) :
  (name = "flatten_list" -> fuel <= depth) ->
  filters str_format py_str json_decode py_eq py_order depth name = Some f ->
  snapshots fuel h0 args ts ->
  exists g,
    Py.filters tree_format (Py.json_loads_of json_decode) tree_order name
    = Some g
    /\ outcome_is (f args h0) (g ts).
Proof using Hread.
  intros Hdepth Hf Hargs. unfold filters in Hf. unfold Py.filters.
  assert (Hsc : forall a t, snapshot fuel h0 a = Some t ->
                            snapshot fuel h0 VNone = Some Py.VNone
                            /\ (forall b, snapshot fuel h0 (VBool b)
                                          = Some (Py.VBool b))
                            /\ (forall s, snapshot fuel h0 (VStr s)
                                          = Some (Py.VStr s))).
  { intros a t Ha. pose proof (snapshot_positive _ _ _ _ Ha) as Hpos.
    destruct (snapshot_scalar fuel h0 Hpos) as (H1 & H2 & _ & H4).
    auto. }
  repeat match type of Hf with
         | (if ?c then _ else _) = _ =>
             destruct c eqn:?;
             [injection Hf as <-; eexists; split; [reflexivity|] | ]
         end;
    try discriminate Hf;
    try match goal with
        | H : String.eqb name "flatten_list" = true |- _ =>
            apply String.eqb_eq in H; specialize (Hdepth H)
        end;
    do 6 (try destruct Hargs as [|? ? ? ? ? Hargs]);
    cbv beta iota; try reflexivity;
    repeat match goal with
           | H : snapshot fuel h0 ?a = Some ?t |- _ =>
               lazymatch goal with
               | _ : snapshot fuel h0 VNone = Some Py.VNone |- _ => fail
               | _ => destruct (Hsc a t H) as (HNone & HBool & HStr)
               end
           end;
    eauto using one_outcome, format_items_outcome, flatten_list_outcome,
      map_keys_outcome, list_values_outcome, list_keys_outcome,
      to_kv_pairs_outcome, filter_by_key_outcome, filter_by_key_any_outcome,
      to_map_outcome.
  match goal with
  | H : snapshot fuel h0 ?x = Some ?y |- _ =>
      exact (to_kv_pairs_outcome x (VStr ",") y (Py.VStr ",") H (HStr ","))
  end.
Qed.

End Refinement.

Lemma content_readers_at (n : nat)
    (tree_format : string -> list Py.value -> result string)
    (tree_order : Py.binary_entry -> Py.value -> Py.value -> result bool) :
  content_readers n (str_format_at n tree_format) (py_str_at n) (py_eq_at n)
    (py_order_at n tree_order) tree_format tree_order.
Proof.
  repeat split.
  - intros h f args ts H. unfold str_format_at.
    assert (E : mapM (snapshot n h) args = Some ts) by now apply mapM_Some.
    now rewrite E.
  - intros h v t H. unfold py_str_at. now rewrite H.
  - intros h a b ta tb Ha Hb. unfold py_eq_at. now rewrite Ha, Hb.
  - intros h t a b ta tb Ha Hb. unfold py_order_at. now rewrite Ha, Hb.
Qed.

Lemma outcome_same (r1 r2 : result value * heap) (p : result Py.value) :
  outcome_is r1 p -> outcome_is r2 p -> same_outcome r1 r2.
Proof.
  unfold outcome_is, same_outcome.
  destruct (fst r1) as [v1|e1], (fst r2) as [v2|e2], p as [t|e];
    try contradiction; try congruence.
  intros [n1 H1] [n2 H2]. exists (Nat.max n1 n2), t.
  split; eapply snapshot_mono; try eassumption; lia.
Qed.

(** C1: a call of any registered filter, with any arguments and in any
    heap, leaves every object that existed before the call as it was: the
    heap after the call is the heap before it followed by the objects the
    call created, whether the call returns or raises; so a snapshot of an
    argument taken before the call is still its snapshot after it.  The
    outcome of the call, the value it returns or the exception it raises,
    is that of the value-level filter of the same name applied to the trees
    of the arguments: it does not depend on where the arguments are stored,
    nor on anything else in the heap, so that two calls whose arguments
    have the same trees have the same outcome.  This holds when the
    primitives of the interpreter read the content of their arguments only,
    and, for [flatten_list], when its argument nests no deeper than the
    stack has room, [depth]: beyond it the call raises [RuntimeError].  The
    registered names are the nine filters. *)
Theorem filters_leave_arguments_unchanged
    (str_format : heap -> string -> list value -> result string)
    (py_str : heap -> value -> string)
    (json_decode : string -> result Py.value)
    (py_eq : heap -> value -> value -> result bool)
    (py_order : heap -> Py.binary_entry -> value -> value -> result bool)
    (depth : nat) :
  (forall name f args h,
     filters str_format py_str json_decode py_eq py_order depth name = Some f ->
     extends h (snd (f args h))
     /\ (forall a fuel t,
           In a args -> snapshot fuel h a = Some t ->
           snapshot fuel (snd (f args h)) a = Some t))
  /\ (forall tree_format tree_order fuel name f args h ts,
        content_readers fuel str_format py_str py_eq py_order tree_format
          tree_order ->
        (name = "flatten_list" -> fuel <= depth) ->
        filters str_format py_str json_decode py_eq py_order depth name
        = Some f ->
        snapshots fuel h args ts ->
        exists g,
          Py.filters tree_format (Py.json_loads_of json_decode) tree_order name
          = Some g
          /\ outcome_is (f args h) (g ts))
  /\ (forall tree_format tree_order fuel name f args1 h1 args2 h2 ts,
        content_readers fuel str_format py_str py_eq py_order tree_format
          tree_order ->
        (name = "flatten_list" -> fuel <= depth) ->
        filters str_format py_str json_decode py_eq py_order depth name
        = Some f ->
        snapshots fuel h1 args1 ts ->
        snapshots fuel h2 args2 ts ->
        same_outcome (f args1 h1) (f args2 h2))
  /\ Forall (fun name =>
               is_Some (filters str_format py_str json_decode py_eq py_order
                          depth name))
       ["one"; "to_map"; "format_items"; "flatten_list"; "list_values";
        "list_keys"; "to_kv_pairs"; "map_keys"; "filter_by_key"].
Proof.
  split; [|split; [|split]].
  - intros name f args h Hf.
    pose proof (keeps_filters str_format py_str json_decode py_eq py_order
                  h depth name f args Hf h (extends_refl h)) as [Hext _].
    split; [exact Hext|].
    intros a fuel t _. now apply snapshot_extends.
  - intros tree_format tree_order fuel name f args h ts Hread Hdepth Hf Hargs.
    now apply (filters_outcome str_format py_str json_decode py_eq py_order
                 tree_format tree_order fuel h Hread depth name f args ts).
  - intros tree_format tree_order fuel name f args1 h1 args2 h2 ts Hread
      Hdepth Hf H1 H2.
    destruct (filters_outcome str_format py_str json_decode py_eq py_order
                tree_format tree_order fuel h1 Hread depth name f args1 ts
                Hdepth Hf H1) as (g1 & Eg1 & O1).
    destruct (filters_outcome str_format py_str json_decode py_eq py_order
                tree_format tree_order fuel h2 Hread depth name f args2 ts
                Hdepth Hf H2) as (g2 & Eg2 & O2).
    rewrite Eg1 in Eg2. injection Eg2 as <-.
    now apply outcome_same with (p := g1 ts).
  - repeat constructor; eexists; reflexivity.
Qed.

Lemma filters_leave_arguments_unchanged_witness :
  exists f h',
    filters (str_format_at 3 Py.format_indexed) (py_str_at 3)
      (fun _ => Raise (ValueError "No JSON object could be decoded"))
      (py_eq_at 3) (py_order_at 3 (Py.python_order Py.scalar_order))
      5 "flatten_list" = Some f
    /\ f [VRef 0] [OList [VRef 1; VInt 1]; OList [VInt 2]]
       = (Ok (VRef 2), h')
    /\ extends [OList [VRef 1; VInt 1]; OList [VInt 2]] h'
    /\ snapshot 3 h' (VRef 0)
       = Some (Py.VList [Py.VList [Py.VInt 2]; Py.VInt 1])
    /\ snapshot 3 h' (VRef 2) = Some (Py.VList [Py.VInt 2; Py.VInt 1])
    /\ outcome_is (f [VRef 0] [OList [VRef 1; VInt 1]; OList [VInt 2]])
         (Py.flatten_list (Py.VList [Py.VList [Py.VInt 2]; Py.VInt 1]))
    /\ same_outcome
         (f [VRef 0] [OList [VRef 1; VInt 1]; OList [VInt 2]])
         (f [VRef 2] [OList [VInt 2]; OList [VInt 0]; OList [VRef 0; VInt 1]]).
Proof.
  eexists. eexists.
  split; [reflexivity|]. split; [reflexivity|].
  pose proof (filters_leave_arguments_unchanged
                (str_format_at 3 Py.format_indexed) (py_str_at 3)
                (fun _ => Raise (ValueError "No JSON object could be decoded"))
                (py_eq_at 3) (py_order_at 3 (Py.python_order Py.scalar_order))
                5) as (Hframe & Hout & Hsame & _).
  destruct (Hframe "flatten_list" _ [VRef 0]
              [OList [VRef 1; VInt 1]; OList [VInt 2]] eq_refl) as [H1 H2].
  split; [exact H1|].
  split; [apply (H2 (VRef 0) 3); [left; reflexivity | reflexivity]|].
  split; [reflexivity|].
  assert (Hstack : "flatten_list" = "flatten_list" -> 3 <= 5) by (intros _; lia).
  split.
  - destruct (Hout Py.format_indexed (Py.python_order Py.scalar_order) 3
                "flatten_list" _ [VRef 0]
                [OList [VRef 1; VInt 1]; OList [VInt 2]]
                [Py.VList [Py.VList [Py.VInt 2]; Py.VInt 1]]
                (content_readers_at 3 _ _) Hstack eq_refl
                ltac:(repeat constructor)) as (g & Eg & Og).
    injection Eg as <-. exact Og.
  - apply (Hsame Py.format_indexed (Py.python_order Py.scalar_order) 3
             "flatten_list" _ [VRef 0]
             [OList [VRef 1; VInt 1]; OList [VInt 2]] [VRef 2]
             [OList [VInt 2]; OList [VInt 0]; OList [VRef 0; VInt 1]]
             [Py.VList [Py.VList [Py.VInt 2]; Py.VInt 1]]
             (content_readers_at 3 _ _) Hstack eq_refl);
      repeat constructor.
Defined.

(** Beyond the room on the stack [flatten_list] raises [RuntimeError]. *)
Example flatten_list_beyond_stack_room :
  fst (flatten_list 1 (VRef 0) [OList [VRef 1; VInt 1]; OList [VInt 2]])
  = Raise RuntimeError
  /\ fst (flatten_list 2 (VRef 0) [OList [VRef 1; VInt 1]; OList [VInt 2]])
     = Ok (VRef 2).
Proof. split; reflexivity. Qed.

(** The helper [_flatten_list] does update its first argument: it is the
    accumulator, which [flatten_list] creates for the call. *)
Example _flatten_list_appends :
  _flatten_list 2 (VRef 0) (VInt 7) [OList [VInt 1]]
  = (Ok (VRef 0), [OList [VInt 1; VInt 7]]).
Proof. reflexivity. Qed.

(** [map_keys] with ["*"] builds the list of keys and the mapping it
    returns, and leaves [d] alone. *)
Example map_keys_star_in_store :
  map_keys (fun _ _ _ => Raise TypeError) (fun _ => Raise TypeError)
    (VRef 0) (VStr "*") VNone (VStr ".") (VBool false)
    [ODict [(VStr "a", VInt 1); (VStr "b", VInt 2)]]
  = (Ok (VRef 2),
     [ODict [(VStr "a", VInt 1); (VStr "b", VInt 2)];
      OList [VStr "a"; VStr "b"];
      ODict [(VStr "a", VInt 1); (VStr "b", VInt 2)]]).
Proof. reflexivity. Qed.

(** [filter_by_key] returns a new list of the items it was given. *)
Example filter_by_key_in_store :
  filter_by_key (fun _ _ _ => Raise TypeError) (fun _ _ _ _ => Raise TypeError)
    (VRef 2) (VStr "k") "truth" VNone
    [ODict [(VStr "k", VInt 0)]; ODict [(VStr "k", VInt 3)];
     OList [VRef 0; VRef 1]]
  = (Ok (VRef 3),
     [ODict [(VStr "k", VInt 0)]; ODict [(VStr "k", VInt 3)];
      OList [VRef 0; VRef 1]; OList [VRef 1]]).
Proof. reflexivity. Qed.

(** The mapping [to_map] returns holds the items themselves, not copies. *)
Example to_map_shares_items :
  to_map (VRef 1) (VStr "id") (VStr ".")
    [ODict [(VStr "id", VStr "a")]; OList [VRef 0]]
  = (Ok (VRef 2),
     [ODict [(VStr "id", VStr "a")]; OList [VRef 0];
      ODict [(VStr "a", VRef 0)]]).
Proof. reflexivity. Qed.

(** *** Further properties of the store-level model *)

(** X20: the two models of [flatten_list] agree.  On a heap in which [l]
    is a nested sequence without cycles, no deeper than the stack allows,
    the call returns a new list, created at the next free address; the tree
    below that list is the list the value-level [flatten_list] returns on
    the tree below [l]; and the heap after the call is the heap before it
    followed by that one list. *)
Theorem flatten_list_agrees_with_value_model
    (h0 : heap) (fuel depth : nat) (l : value) (t : Py.value) :
  fuel <= S depth ->
  snapshot fuel h0 l = Some t ->
  Py.is_list_type t = true ->
  exists new r,
    flatten_list depth l h0 = (Ok (VRef (length h0)), h0 ++ [OList new])
    /\ Py.flatten_list t = Ok r
    /\ snapshot (S fuel) (h0 ++ [OList new]) (VRef (length h0)) = Some r.
Proof.
  intros Hd Hs Ht. destruct fuel as [|n]; [discriminate|].
  destruct (py_iter_snapshot n h0 (h0 ++ [OList []]) l t
              (during_extends h0 []) Hs Ht)
    as (xs & ts & Hit & Hxs & Hpy & Hl).
  destruct (flatten_fold_refines h0 n depth
              (fun acc y t => flatten_step_refines h0 n depth acc y t ltac:(lia))
              xs ts [] Hxs) as (new & E & Hnew).
  exists new, (Py.VList (flat_map Py.leaves ts)).
  split; [|split].
  - unfold flatten_list, alloc, mbind. now rewrite Hit, E.
  - exact (PyFacts.flatten_list_iter t ts Hpy).
  - rewrite (snapshot_list _ _ _ new) by now apply list_lookup_middle.
    assert (Hm : mapM (snapshot (S n) (h0 ++ [OList new])) new
                 = Some (flat_map Py.leaves ts)).
    { apply mapM_Some. eapply Forall2_impl; [exact Hnew|].
      intros x u Hx. apply (snapshot_extends h0); [now eexists|].
      now apply snapshot_mono with (n := n); [lia|]. }
    now rewrite Hm.
Qed.

Lemma flatten_list_agrees_with_value_model_witness :
  exists new r,
    flatten_list 5 (VRef 0) [OList [VRef 1; VInt 1]; OList [VInt 2]]
    = (Ok (VRef (length [OList [VRef 1; VInt 1]; OList [VInt 2]])),
       [OList [VRef 1; VInt 1]; OList [VInt 2]] ++ [OList new])
    /\ Py.flatten_list (Py.VList [Py.VList [Py.VInt 2]; Py.VInt 1]) = Ok r
    /\ snapshot 4 ([OList [VRef 1; VInt 1]; OList [VInt 2]] ++ [OList new])
         (VRef (length [OList [VRef 1; VInt 1]; OList [VInt 2]]))
       = Some r.
Proof.
  apply (flatten_list_agrees_with_value_model
           [OList [VRef 1; VInt 1]; OList [VInt 2]] 3 5 (VRef 0)
           (Py.VList [Py.VList [Py.VInt 2]; Py.VInt 1])).
  - lia.
  - reflexivity.
  - reflexivity.
Defined.

Section FlattenCycle.

Variable h0 : heap.

Let pres : value := VRef (length h0).

Let during (acc : list value) : heap := h0 ++ [OList acc].

(** Whatever [y] is, [_flatten_list] on the accumulator of [flatten_list]
    either returns the accumulator or runs out of stack; it has appended to
    the accumulator and done nothing else. *)
Lemma flatten_step_outcome (depth : nat) :
  forall y acc,
  exists new,
    _flatten_list depth pres y (during acc) = (Ok pres, during (acc ++ new))
    \/ _flatten_list depth pres y (during acc)
       = (Raise RuntimeError, during (acc ++ new)).
Proof.
  induction depth as [|d IH]; intros y acc.
  - exists []. right. unfold during. now rewrite app_nil_r.
  - rewrite _flatten_list_unfold.
    destruct (is_list_type (during acc) y) eqn:Ety; cbn [negb].
    + assert (Hit : exists ys, py_iter y (during acc) = (Ok ys, during acc)).
      { destruct y as [| | | |ys|l']; try discriminate.
        - now exists ys.
        - simpl in Ety. unfold py_iter, load, mbind, peek.
          destruct (during acc !! l') as [[ys|ys|kvs]|]; try discriminate;
            now exists ys. }
      destruct Hit as (ys & Hit). unfold mbind. rewrite Hit.
      clear Hit Ety. revert acc.
      induction ys as [|z ys IHys]; intros acc.
      * exists []. left. simpl. unfold ret, during. now rewrite app_nil_r.
      * simpl. unfold mbind.
        destruct (IH z acc) as (new1 & [E1|E1]); rewrite E1.
        -- destruct (IHys (acc ++ new1)) as (new2 & [E2|E2]);
             exists (new1 ++ new2); rewrite app_assoc; [left | right]; exact E2.
        -- exists new1. now right.
    + unfold mbind.
      replace (py_append pres y (during acc))
        with (Ok tt, during (acc ++ [y]))
        by (symmetry; apply (py_append_during h0 acc y)).
      exists [y]. now left.
Qed.

Lemma flatten_cycle_overflows (l : loc) (xs : list value) :
  h0 !! l = Some (OList xs) ->
  In (VRef l) xs ->
  forall depth acc,
  exists new,
    _flatten_list depth pres (VRef l) (during acc)
    = (Raise RuntimeError, during (acc ++ new)).
Proof.
  intros Hl Hin depth.
  assert (Hd : forall acc, during acc !! l = Some (OList xs)).
  { intros acc.
    apply (extends_lookup h0); [apply (during_extends h0) | exact Hl]. }
  assert (Hty : forall acc, is_list_type (during acc) (VRef l) = true)
    by (intros acc; unfold is_list_type; now rewrite (Hd acc)).
  assert (Hit : forall acc, py_iter (VRef l) (during acc) = (Ok xs, during acc))
    by (intros acc; unfold py_iter, load, mbind, peek; now rewrite (Hd acc)).
  induction depth as [|d IH]; intros acc.
  - exists []. unfold during. now rewrite app_nil_r.
  - rewrite _flatten_list_unfold, Hty. cbn [negb].
    unfold mbind at 1. rewrite Hit.
    clear Hl Hd Hty Hit. revert acc. induction xs as [|z ys IHys]; intros acc.
    + destruct Hin.
    + simpl. unfold mbind. destruct Hin as [->|Hin].
      * destruct (IH acc) as (new & E). rewrite E. now exists new.
      * destruct (flatten_step_outcome d z acc) as (new1 & [E1|E1]); rewrite E1.
        -- destruct (IHys Hin (acc ++ new1)) as (new2 & E2).
           exists (new1 ++ new2). now rewrite app_assoc.
        -- now exists new1.
Qed.

End FlattenCycle.

(** X21: a list that holds itself cannot be flattened: whatever room the
    call stack has, [flatten_list] on it raises [RuntimeError], the
    interpreter's report of a recursion too deep; the objects of the caller
    are as they were. *)
Theorem flatten_list_self_containing_list
    (h : heap) (l : loc) (xs : list value) (depth : nat) :
  h !! l = Some (OList xs) ->
  In (VRef l) xs ->
  exists h',
    flatten_list depth (VRef l) h = (Raise RuntimeError, h') /\ extends h h'.
Proof.
  intros Hl Hin.
  assert (Hit : py_iter (VRef l) (h ++ [OList []]) = (Ok xs, h ++ [OList []])).
  { unfold py_iter, load, mbind, peek.
    now rewrite (extends_lookup h (h ++ [OList []]) l (OList xs)
                   (during_extends h []) Hl). }
  unfold flatten_list, alloc, mbind. rewrite Hit. clear Hit.
  assert (Hgen : forall ys acc,
             In (VRef l) ys ->
             exists new,
               reduce_M (_flatten_list depth) ys (VRef (length h))
                 (h ++ [OList acc])
               = (Raise RuntimeError, h ++ [OList (acc ++ new)])).
  { induction ys as [|z ys IHys]; intros acc Hz; [destruct Hz|].
    simpl. unfold mbind. destruct Hz as [->|Hz].
    - destruct (flatten_cycle_overflows h l xs Hl Hin depth acc) as (new & E).
      rewrite E. now exists new.
    - destruct (flatten_step_outcome h depth z acc) as (new1 & [E1|E1]);
        rewrite E1.
      + destruct (IHys (acc ++ new1) Hz) as (new2 & E2).
        exists (new1 ++ new2). now rewrite app_assoc.
      + now exists new1. }
  destruct (Hgen xs [] Hin) as (new & E). rewrite E.
  eexists. split; [reflexivity|]. now eexists.
Qed.

Lemma flatten_list_self_containing_list_witness :
  exists h',
    flatten_list 1000 (VRef 0) [OList [VInt 1; VRef 0]]
    = (Raise RuntimeError, h')
    /\ extends [OList [VInt 1; VRef 0]] h'.
Proof.
  apply (flatten_list_self_containing_list
           [OList [VInt 1; VRef 0]] 0 [VInt 1; VRef 0] 1000).
  - reflexivity.
  - right. left. reflexivity.
Defined.

(** Looking an item up reads the heap and leaves it as it is. *)
Lemma py_get_reads (z k : value) (h : heap) : snd (py_get z k h) = h.
Proof.
  unfold py_get, py_items, mbind, load, peek.
  destruct z as [| | | | |l]; try reflexivity.
  destruct (h !! l) as [[xs|xs|kvs]|]; try reflexivity.
  now destruct (hashable k).
Qed.

Lemma resolve_reads (p : list string) (x : value) (h : heap) :
  snd (resolve p x h) = h.
Proof.
  unfold resolve. revert x. induction p as [|s p IH]; intros x; [reflexivity|].
  simpl. unfold mbind at 1. unfold path_step at 1. unfold mbind at 1, peek.
  pose proof (py_get_reads x (VStr s) h) as Hg.
  destruct (truthy h x).
  - destruct (py_get x (VStr s) h) as [[v|e] h1]; simpl in Hg; subst h1;
      [apply IH | reflexivity].
  - apply IH.
Qed.

Lemma py_iter_extends (l : value) (h : heap) (xs : list value) (new : heap) :
  py_iter l h = (Ok xs, h) -> py_iter l (h ++ new) = (Ok xs, h ++ new).
Proof.
  destruct l as [| | |s|ys|l0]; simpl; try discriminate.
  - now intros [= <-].
  - now intros [= <-].
  - unfold mbind, load, peek.
    destruct (h !! l0) as [o|] eqn:E; [|discriminate].
    rewrite (lookup_app_l_Some _ _ _ _ E).
    destruct o; now intros [= <-].
Qed.

Lemma store_dict_set_Forall (P : value * value -> Prop) (k v : value)
    (d : list (value * value)) :
  Forall P d -> (forall k', P (k', v)) -> Forall P (dict_set k v d).
Proof.
  intros Hd Hv. induction Hd as [|[k' v'] d Hkv Hd IH]; simpl.
  - now constructor.
  - destruct (key_eq k' k); constructor; auto.
Qed.

Lemma store_dict_set_length (k v : value) (d : list (value * value)) :
  length (dict_set k v d) <= S (length d).
Proof.
  induction d as [|[k' v'] d IH]; simpl; [lia|].
  destruct (key_eq k' k); simpl; lia.
Qed.

(** X22: the mapping [to_map] returns is the one object the call creates,
    and it holds the items themselves: each of its values is an element of
    the sequence as the caller passed it, a reference to the caller's
    object and not a copy; it has at most as many entries as the sequence
    has elements. *)
Theorem to_map_result_shares_items
    (l item_key path_delimiter : value) (h h' : heap) (xs : list value)
    (r : value) :
  py_iter l h = (Ok xs, h) ->
  to_map l item_key path_delimiter h = (Ok r, h') ->
  exists kvs,
    r = VRef (length h) /\ h' = h ++ [ODict kvs]
    /\ Forall (fun kv => In (snd kv) xs) kvs
    /\ length kvs <= length xs.
Proof.
  intros Hit H.
  unfold to_map, mbind at 1, alloc in H.
  unfold mbind at 1 in H.
  assert (Hsp : snd (py_split item_key path_delimiter (h ++ [ODict []]))
                = h ++ [ODict []]).
  { destruct item_key; try reflexivity.
    destruct path_delimiter as [| | |[|c sep]| |]; reflexivity. }
  destruct (py_split item_key path_delimiter (h ++ [ODict []]))
    as [[p|e] h1]; simpl in Hsp; subst h1; [|discriminate].
  unfold mbind at 1 in H. rewrite (py_iter_extends l h xs _ Hit) in H.
  unfold mbind at 1 in H.
  assert (Hgen : forall ys kvs u h2,
             reduce_M (fun _ x =>
                         let* k := resolve p x in
                         let* t := peek (fun h => Ok (truthy h k)) in
                         if t then py_setitem (VRef (length h)) k x else ret tt)
               ys tt (h ++ [ODict kvs]) = (Ok u, h2) ->
             (forall y, In y ys -> In y xs) ->
             Forall (fun kv => In (snd kv) xs) kvs ->
             exists kvs',
               h2 = h ++ [ODict kvs']
               /\ Forall (fun kv => In (snd kv) xs) kvs'
               /\ length kvs' <= length kvs + length ys).
  { induction ys as [|y ys IH]; intros kvs u h2 Hr Hys Hk.
    - injection Hr as <- <-. exists kvs. repeat split; [exact Hk | lia].
    - simpl in Hr. unfold mbind at 1 in Hr. unfold mbind at 1 in Hr.
      pose proof (resolve_reads p y (h ++ [ODict kvs])) as Hrd.
      destruct (resolve p y (h ++ [ODict kvs])) as [[k|e] h3];
        simpl in Hrd; subst h3; [|discriminate].
      unfold mbind at 1, peek in Hr.
      destruct (truthy (h ++ [ODict kvs]) k).
      + unfold py_setitem, mbind, load, peek, store in Hr.
        rewrite list_lookup_middle in Hr by reflexivity.
        destruct (hashable k); [|discriminate].
        rewrite insert_app_r_alt in Hr by lia.
        rewrite Nat.sub_diag in Hr. simpl insert in Hr.
        destruct (IH _ u h2 Hr) as (kvs' & -> & HF & Hlen).
        * intros; apply Hys; now right.
        * apply store_dict_set_Forall; [exact Hk|].
          intros k'. simpl. apply Hys. now left.
        * exists kvs'. repeat split; [exact HF|].
          pose proof (store_dict_set_length k y kvs). simpl. lia.
      + unfold ret in Hr.
        destruct (IH _ u h2 Hr) as (kvs' & -> & HF & Hlen).
        * intros; apply Hys; now right.
        * exact Hk.
        * exists kvs'. repeat split; [exact HF | simpl; lia]. }
  match type of H with
  | context [reduce_M ?f xs tt ?hh] =>
      destruct (reduce_M f xs tt hh) as [[u|e] h2] eqn:Hred; [|discriminate]
  end.
  injection H as <- <-.
  destruct (Hgen xs [] u h2 Hred) as (kvs' & -> & HF & Hlen);
    [auto | constructor |].
  exists kvs'. repeat split; [exact HF | simpl in Hlen; lia].
Qed.

Lemma to_map_result_shares_items_witness :
  exists kvs,
    VRef 2 = VRef (length [ODict [(VStr "id", VStr "a")]; OList [VRef 0]])
    /\ [ODict [(VStr "id", VStr "a")]; OList [VRef 0];
        ODict [(VStr "a", VRef 0)]]
       = [ODict [(VStr "id", VStr "a")]; OList [VRef 0]] ++ [ODict kvs]
    /\ Forall (fun kv => In (snd kv) [VRef 0]) kvs
    /\ length kvs <= length [VRef 0].
Proof.
  apply (to_map_result_shares_items (VRef 1) (VStr "id") (VStr ".")
           [ODict [(VStr "id", VStr "a")]; OList [VRef 0]]).
  - reflexivity.
  - reflexivity.
Defined.

End StoreFacts.
